(** * The Milvus client of [src/client/database/milvus/milvus_client.py]

    A shallow embedding of [MilvusClient] (collection lifecycle, insert path,
    search path) and the properties of its specification.

    The client talks to two collaborators that are not part of the repository:
    the [pymilvus] SDK and Python's [json] module.  Both are interfaces here
    (type classes [Milvus] and [JsonCodec]); the client code is written against
    them exactly as the Python code calls them.  [RefStore] below is an
    executable in-memory instance of the store interface, used to run the
    client end to end. *)

From Stdlib Require Import String Ascii ZArith QArith List Lia Sorted Permutation.
From stdpp Require Import base option list gmap strings sorting.

Set Warnings "-register-all".
Local Open Scope string_scope.
Local Open Scope Z_scope.

(** ** Python exceptions and results *)

(** [MilvusFailed] is the only exception class the module defines; every other
    exception ([pymilvus] errors, [json.JSONDecodeError], [TypeError]) is
    [Foreign], carrying what [str(e)] shows. *)
Inductive exn : Type :=
| MilvusFailed (msg : string)
| Foreign (msg : string).

Definition str (e : exn) : string :=
  match e with
  | MilvusFailed msg => msg
  | Foreign msg => msg
  end.

Inductive result (A : Type) : Type :=
| Ok (a : A)
| Raise (e : exn).
Arguments Ok {A} a.
Arguments Raise {A} e.

(** ** JSON values, as [json.dumps] reads them and [json.loads] builds them *)

Inductive json : Type :=
| JNull
| JBool (b : bool)
| JNumber (z : Z)
| JString (s : string)
| JArray (l : list json)
| JObject (m : list (string * json)).

(** The [json] module: [dumps] is total on [json]; [loads] raises on text that
    is no JSON document. *)
Class JsonCodec : Type := {
  json_dumps : json -> string;
  json_loads : string -> result json
}.

(** ** Schema and parameter dictionaries *)

Inductive DataType : Type := INT64 | VARCHAR | FLOAT_VECTOR.

(** [FieldSchema(name=, dtype=, is_primary=False, auto_id=False, max_length=, dim=)] *)
Record FieldSchema : Type := {
  name : string;
  dtype : DataType;
  is_primary : bool;
  auto_id : bool;
  max_length : option Z;
  dim : option Z
}.

(** [{"metric_type": .., "params": {..}}] *)
Record SearchParams : Type := {
  sp_metric_type : string;
  sp_params : list (string * Z)
}.

(** [{"metric_type": .., "index_type": .., "params": {..}}] *)
Record IndexParams : Type := {
  ip_metric_type : string;
  ip_index_type : string;
  ip_params : list (string * Z)
}.

(** ** The langchain [Document] given to [store_doc] *)

(** [doc.metadata]: a field is [None] when the key is absent ([metadata.get]
    then yields Python's [None], or the default given for [headers]). *)
Record Metadata : Type := {
  md_user_id : option string;
  md_kb_id : option string;
  md_file_id : option string;
  md_headers : option (list (string * json));
  md_doc_id : option string
}.

Record Document : Type := {
  page_content : string;
  metadata : Metadata
}.

Section Model.

(** The representation of a Python [float]: the client only moves floats
    around, it never computes with them. *)
Context {F : Type}.

(** Configuration constants of [src/configs/configs.py]. *)
Variable MILVUS_HOST_LOCAL : string.
Variable MILVUS_PORT : Z.
Variable VECTOR_SEARCH_TOP_K : Z.

(** ** Python values that flow through the client *)

Inductive value : Type :=
| VNone
| VInt (z : Z)
| VStr (s : string)
| VVec (v : list F).

(** Python truthiness, as [all([...])] and [if x] read it. *)
Definition truthy (v : value) : bool :=
  match v with
  | VNone => false
  | VInt z => negb (z =? 0)
  | VStr s => negb (String.eqb s EmptyString)
  | VVec l => match l with [] => false | _ :: _ => true end
  end.

Definition all (vs : list value) : bool := forallb truthy vs.

(** [d.get(k)] on an optional string entry. *)
Definition get_str (o : option string) : value :=
  match o with
  | Some s => VStr s
  | None => VNone
  end.

(** An optional vector argument ([None] when absent). *)
Definition vec_value (o : option (list F)) : value :=
  match o with
  | Some v => VVec v
  | None => VNone
  end.

(** ** What [Collection.search] takes and returns *)

(** The keyword arguments [search_docs] passes with [**search_params]. *)
Record SearchKwargs : Type := {
  metric_type : string;
  params : list (string * Z);
  data : option (list (list F));
  anns_field : string;
  param : SearchParams;
  limit : Z;
  expr : string;
  kw_output_fields : list string
}.

Record Hit : Type := {
  hit_id : Z;
  hit_distance : Q;
  entity : gmap string value
}.

(** [hit.entity.get(k)] *)
Definition entity_get (hit : Hit) (k : string) : value :=
  match entity hit !! k with
  | Some v => v
  | None => VNone
  end.

(** ** The store interface ([pymilvus]) *)

(** [W] is the state of the database service.  A call that raises leaves it
    as it was. *)
Class Milvus (W : Type) : Type := {
  utility_has_collection : string -> W -> result bool;
  Collection_create : string -> list FieldSchema -> W -> result W;
  Collection_open : string -> W -> result W;
  Collection_create_index : string -> string -> IndexParams -> W -> result W;
  Collection_load : string -> W -> result W;
  Collection_insert : string -> list (list value) -> W -> result W;
  Collection_search : string -> SearchKwargs -> W -> result (list (list Hit))
}.

(** The calls a client issues to the store, in the order it issues them. *)
Inductive Call : Type :=
| CHasCollection (collection : string)
| CCreate (collection : string) (schema : list FieldSchema)
| COpen (collection : string)
| CCreateIndex (collection : string) (field_name : string) (index_params : IndexParams)
| CLoad (collection : string)
| CInsert (collection : string) (rows : list (list value))
| CSearch (collection : string) (kwargs : SearchKwargs).

(** ** The client object *)

(** [self.sess] holds the loaded [Collection] handle (its name), or [None]. *)
Record MilvusClient : Type := {
  host : string;
  port : Z;
  sess : option string;
  partitions : list string;
  top_k : Z;
  search_params : SearchParams;
  create_params : IndexParams
}.

(** [MilvusClient.__init__]; [connections.connect] is wrapped in a [try] that
    only logs, so construction always yields this object. *)
Definition MilvusClient_init : MilvusClient := {|
  host := MILVUS_HOST_LOCAL;
  port := MILVUS_PORT;
  sess := None;
  partitions := [];
  top_k := VECTOR_SEARCH_TOP_K;
  search_params := {| sp_metric_type := "L2"; sp_params := [("nprobe", 128)] |};
  create_params := {| ip_metric_type := "L2"; ip_index_type := "IVF_FLAT";
                      ip_params := [("nlist", 1024)] |}
|}.

(** [MilvusClient.fields] *)
Definition fields : list FieldSchema := [
  {| name := "id"; dtype := INT64; is_primary := true; auto_id := true;
     max_length := None; dim := None |};
  {| name := "user_id"; dtype := VARCHAR; is_primary := false; auto_id := false;
     max_length := Some 64; dim := None |};
  {| name := "kb_id"; dtype := VARCHAR; is_primary := false; auto_id := false;
     max_length := Some 64; dim := None |};
  {| name := "file_id"; dtype := VARCHAR; is_primary := false; auto_id := false;
     max_length := Some 64; dim := None |};
  {| name := "headers"; dtype := VARCHAR; is_primary := false; auto_id := false;
     max_length := Some 256; dim := None |};
  {| name := "doc_id"; dtype := VARCHAR; is_primary := false; auto_id := false;
     max_length := Some 64; dim := None |};
  {| name := "content"; dtype := VARCHAR; is_primary := false; auto_id := false;
     max_length := Some 4000; dim := None |};
  {| name := "embedding"; dtype := FLOAT_VECTOR; is_primary := false; auto_id := false;
     max_length := None; dim := Some 768 |}
].

(** [MilvusClient.output_fields] *)
Definition output_fields : list string :=
  ["id"; "user_id"; "kb_id"; "file_id"; "headers"; "doc_id"; "content"; "embedding"].

(** The dictionary [search_docs] builds for every hit. *)
Record RetrievedDoc : Type := {
  doc_user_id : value;
  doc_kb_id : value;
  doc_file_id : value;
  doc_headers : json;
  doc_doc_id : value;
  doc_content : value;
  doc_embedding : value
}.

Context `{JsonCodec}.

(** [json.loads(x)] on a Python value: only text is accepted. *)
Definition loads_value (v : value) : result json :=
  match v with
  | VStr s => json_loads s
  | _ => Raise (Foreign "the JSON object must be str, bytes or bytearray")
  end.

(** The body of the inner loop of [search_docs]: the dictionary for one hit. *)
Definition hit_doc (hit : Hit) : result RetrievedDoc :=
  match loads_value (entity_get hit "headers") with
  | Ok headers =>
      Ok {| doc_user_id := entity_get hit "user_id";
            doc_kb_id := entity_get hit "kb_id";
            doc_file_id := entity_get hit "file_id";
            doc_headers := headers;
            doc_doc_id := entity_get hit "doc_id";
            doc_content := entity_get hit "content";
            doc_embedding := entity_get hit "embedding" |}
  | Raise e => Raise e
  end.

(** [for hit in hits: ...; retrieved_docs.append(doc)] *)
Fixpoint for_hit (hits : list Hit) (retrieved_docs : list RetrievedDoc)
  : result (list RetrievedDoc) :=
  match hits with
  | [] => Ok retrieved_docs
  | hit :: rest =>
      match hit_doc hit with
      | Ok doc => for_hit rest (retrieved_docs ++ [doc])
      | Raise e => Raise e
      end
  end.

(** [for hits in results: for hit in hits: ...] *)
Fixpoint for_hits (results : list (list Hit)) (retrieved_docs : list RetrievedDoc)
  : result (list RetrievedDoc) :=
  match results with
  | [] => Ok retrieved_docs
  | hits :: rest =>
      match for_hit hits retrieved_docs with
      | Ok docs => for_hits rest docs
      | Raise e => Raise e
      end
  end.

(** ** The monad of client methods: state, exceptions, and the calls issued *)

Context {W : Type} `{Milvus W}.

Record State : Type := {
  self : MilvusClient;
  server : W;
  issued : list Call
}.

Definition M (A : Type) : Type := State -> result A * State.

Definition ret {A} (a : A) : M A := fun s => (Ok a, s).

Definition raise {A} (e : exn) : M A := fun s => (Raise e, s).

Definition bind {A B} (m : M A) (k : A -> M B) : M B :=
  fun s =>
    match m s with
    | (Ok a, s') => k a s'
    | (Raise e, s') => (Raise e, s')
    end.

(** [try: m except Exception as e: h e] *)
Definition try_except {A} (m : M A) (h : exn -> M A) : M A :=
  fun s =>
    match m s with
    | (Ok a, s') => (Ok a, s')
    | (Raise e, s') => h e s'
    end.

Notation "x <- m ;; k" := (bind m (fun x => k))
  (at level 100, m at next level, right associativity).
Notation "m ;;; k" := (bind m (fun _ => k))
  (at level 100, right associativity).

Definition get_sess : M (option string) := fun s => (Ok (sess (self s)), s).

(** [self.sess = collection] *)
Definition set_sess (collection : string) : M unit :=
  fun s =>
    (Ok tt,
     {| self := {| host := host (self s); port := port (self s);
                   sess := Some collection;
                   partitions := partitions (self s); top_k := top_k (self s);
                   search_params := search_params (self s);
                   create_params := create_params (self s) |};
        server := server s;
        issued := issued s |}).

(** A read-only call to the store. *)
Definition query {A} (c : Call) (f : W -> result A) : M A :=
  fun s =>
    (f (server s),
     {| self := self s; server := server s; issued := issued s ++ [c] |}).

(** A call that changes the store when it succeeds. *)
Definition command (c : Call) (f : W -> result W) : M unit :=
  fun s =>
    match f (server s) with
    | Ok w => (Ok tt, {| self := self s; server := w; issued := issued s ++ [c] |})
    | Raise e =>
        (Raise e, {| self := self s; server := server s; issued := issued s ++ [c] |})
    end.

(** Modelled from the spec: the decorator [get_time] of
    [src/utils/general_utils.py] is not among the sources; the specification
    describes [ensure_loaded] and [search] by what the decorated methods do
    and return, so the decorator runs the method and hands back its result
    unchanged. *)
Definition get_time {A} (method : M A) : M A := method.

(** ** [MilvusClient.load_collection_] *)

Definition load_collection_ (user_id : string) : M unit :=
  get_time (
    exists_ <- query (CHasCollection user_id) (utility_has_collection user_id) ;;
    (if negb exists_ then
       (command (CCreate user_id fields) (Collection_create user_id fields) ;;;
        create_params_ <- (fun s => (Ok (create_params (self s)), s)) ;;
        command (CCreateIndex user_id "embedding" create_params_)
                (Collection_create_index user_id "embedding" create_params_))
     else
       command (COpen user_id) (Collection_open user_id)) ;;;
    command (CLoad user_id) (Collection_load user_id) ;;;
    set_sess user_id).

(** ** [MilvusClient.store_doc] *)

Definition store_doc (doc : Document) (embedding : option (list F)) : M unit :=
  try_except (
    sess_ <- get_sess ;;
    match sess_ with
    | None =>
        raise (MilvusFailed "Milvus collection is not loaded. Call load_collection_() first.")
    | Some collection =>
        let metadata_ := metadata doc in
        let user_id := get_str (md_user_id metadata_) in
        let kb_id := get_str (md_kb_id metadata_) in
        let file_id := get_str (md_file_id metadata_) in
        let headers :=
          json_dumps (JObject (match md_headers metadata_ with
                               | Some h => h
                               | None => []
                               end)) in
        let doc_id := get_str (md_doc_id metadata_) in
        let content := VStr (page_content doc) in
        let embedding_ := vec_value embedding in
        if negb (all [user_id; kb_id; file_id; doc_id; content; embedding_]) then
          raise (MilvusFailed "Missing required fields in document metadata or embedding.")
        else
          let data_ := [
            [user_id];
            [kb_id];
            [file_id];
            [VStr headers];
            [doc_id];
            [content];
            [embedding_]
          ] in
          command (CInsert collection data_) (Collection_insert collection data_)
    end)
  (fun e => raise (MilvusFailed ("Failed to store document: " +:+ str e))).

(** ** [MilvusClient.search_docs] *)

(** [[query_embedding] if query_embedding else None] *)
Definition query_data (query_embedding : option (list F)) : option (list (list F)) :=
  match query_embedding with
  | Some (x :: v) => Some [x :: v]
  | _ => None
  end.

(** [expr = ""; if filter_expr: expr = filter_expr] *)
Definition query_expr (filter_expr : option string) : string :=
  match filter_expr with
  | Some f => if negb (String.eqb f EmptyString) then f else EmptyString
  | None => EmptyString
  end.

(** The dictionary [search_params] after [update]. *)
Definition search_kwargs (c : MilvusClient) (query_embedding : option (list F))
    (filter_expr : option string) (doc_limit : Z) : SearchKwargs := {|
  metric_type := sp_metric_type (search_params c);
  params := sp_params (search_params c);
  data := query_data query_embedding;
  anns_field := "embedding";
  param := {| sp_metric_type := "L2"; sp_params := [("nprobe", 128)] |};
  limit := doc_limit;
  expr := query_expr filter_expr;
  kw_output_fields := output_fields
|}.

Definition search_docs (query_embedding : option (list F))
    (filter_expr : option string) (doc_limit : Z) : M (list RetrievedDoc) :=
  get_time (
    try_except (
      sess_ <- get_sess ;;
      match sess_ with
      | None =>
          raise (MilvusFailed "Milvus collection is not loaded. Call load_collection_() first.")
      | Some collection =>
          kwargs <- (fun s => (Ok (search_kwargs (self s) query_embedding filter_expr doc_limit), s)) ;;
          results <- query (CSearch collection kwargs) (Collection_search collection kwargs) ;;
          match for_hits results [] with
          | Ok retrieved_docs => ret retrieved_docs
          | Raise e => raise e
          end
      end)
    (fun e => raise (MilvusFailed ("Failed to search documents: " +:+ str e)))).

(** The defaults of the signature
    [search_docs(self, query_embedding=None, filter_expr=None, doc_limit=10)]:
    an argument the caller leaves out is [None] here. *)
Definition search_docs_call (query_embedding : option (list F))
    (filter_expr : option string) (doc_limit : option Z) : M (list RetrievedDoc) :=
  search_docs query_embedding filter_expr
    (match doc_limit with Some n => n | None => 10 end).

End Model.

Arguments value : clear implicits.
Arguments SearchKwargs : clear implicits.
Arguments Hit : clear implicits.
Arguments Milvus : clear implicits.
Arguments Call : clear implicits.
Arguments RetrievedDoc : clear implicits.
Arguments State : clear implicits.
Arguments M : clear implicits.

(** ** A reference store

    An in-memory instance of the [Milvus] interface, after what sections 3
    and 4 of the specification say of the store: collections by name, each
    with its schema, index and rows; an insert that checks the rows against the
    schema (types, lengths, dimension) and assigns the primary keys; a search
    that filters the rows by the expression, ranks them by ascending distance
    to the query vector and keeps the first [limit].  It is an idealization:
    the search is exact, an inserted row is visible at once, values are kept
    as they are given (vector components are not rounded), and distances are
    exact numbers.  The metric [l2] and the parser of the store's expression
    language are parameters. *)
Module RefStore.

(** The metric of the index, on exact numbers. *)
Class Metric (F : Type) : Type :=
  l2 : list F -> list F -> Q.

(** The parser of the store's boolean expressions over a row; [None] on a
    malformed expression. *)
Class Expressions (F : Type) : Type :=
  parse_expr : string -> option (gmap string (value F) -> bool).

Section Store.

Context {F : Type} `{Metric F} `{Expressions F}.

Record Coll : Type := {
  c_schema : list FieldSchema;
  c_index : option (string * IndexParams);
  c_loaded : bool;
  c_rows : list (gmap string (value F));
  c_next_id : Z
}.

Definition has_collection (n : string) (w : gmap string Coll) : result bool :=
  match w !! n with
  | Some _ => Ok true
  | None => Ok false
  end.

Definition create (n : string) (schema : list FieldSchema) (w : gmap string Coll)
  : result (gmap string Coll) :=
  match w !! n with
  | Some _ => Raise (Foreign "collection already exists")
  | None =>
      Ok (<[n := {| c_schema := schema; c_index := None; c_loaded := false;
                    c_rows := []; c_next_id := 1 |}]> w)
  end.

Definition open (n : string) (w : gmap string Coll) : result (gmap string Coll) :=
  match w !! n with
  | Some _ => Ok w
  | None => Raise (Foreign "collection not found")
  end.

(** The dimension of the vector field [field], when the schema has one. *)
Definition vector_dim (field : string) (schema : list FieldSchema) : option Z :=
  match find (fun f => String.eqb (name f) field) schema with
  | Some f => match dtype f with FLOAT_VECTOR => dim f | _ => None end
  | None => None
  end.

Definition create_index (n field : string) (ip : IndexParams) (w : gmap string Coll)
  : result (gmap string Coll) :=
  match w !! n with
  | None => Raise (Foreign "collection not found")
  | Some c =>
      match vector_dim field (c_schema c) with
      | None => Raise (Foreign "cannot index a field that is no vector field")
      | Some _ =>
          Ok (<[n := {| c_schema := c_schema c; c_index := Some (field, ip);
                        c_loaded := c_loaded c; c_rows := c_rows c;
                        c_next_id := c_next_id c |}]> w)
      end
  end.

Definition load (n : string) (w : gmap string Coll) : result (gmap string Coll) :=
  match w !! n with
  | None => Raise (Foreign "collection not found")
  | Some c =>
      match c_index c with
      | None => Raise (Foreign "index not found")
      | Some _ =>
          Ok (<[n := {| c_schema := c_schema c; c_index := c_index c;
                        c_loaded := true; c_rows := c_rows c;
                        c_next_id := c_next_id c |}]> w)
      end
  end.

(** A value fits a field: its type, and the field's length or dimension. *)
Definition conforms (f : FieldSchema) (v : value F) : bool :=
  match dtype f, v with
  | INT64, VInt _ => true
  | VARCHAR, VStr s =>
      match max_length f with
      | Some n => Z.of_nat (String.length s) <=? n
      | None => false
      end
  | FLOAT_VECTOR, VVec l =>
      match dim f with
      | Some d => Z.of_nat (length l) =? d
      | None => false
      end
  | _, _ => false
  end.

Fixpoint conform_all (fs : list FieldSchema) (vs : list (value F)) : bool :=
  match fs, vs with
  | [], [] => true
  | f :: fs', v :: vs' => conforms f v && conform_all fs' vs'
  | _, _ => false
  end.

(** The fields a caller supplies: all but the auto-generated ones. *)
Definition insert_fields (schema : list FieldSchema) : list FieldSchema :=
  List.filter (fun f => negb (auto_id f)) schema.

(** Column-major data to [n] rows. *)
Fixpoint rows_of_columns (n : nat) (cols : list (list (value F))) : list (list (value F)) :=
  match n with
  | O => []
  | S k => map (hd VNone) cols :: rows_of_columns k (map (@tl _) cols)
  end.

Definition mk_row (schema : list FieldSchema) (id : Z) (vals : list (value F))
  : gmap string (value F) :=
  list_to_map (map (fun f => (name f, VInt id)) (List.filter auto_id schema)
               ++ zip (map name (insert_fields schema)) vals).

Fixpoint mk_rows (schema : list FieldSchema) (id : Z) (rows : list (list (value F)))
  : list (gmap string (value F)) :=
  match rows with
  | [] => []
  | r :: rest => mk_row schema id r :: mk_rows schema (id + 1) rest
  end.

Definition insert_rows (n : string) (cols : list (list (value F))) (w : gmap string Coll)
  : result (gmap string Coll) :=
  match w !! n with
  | None => Raise (Foreign "collection not found")
  | Some c =>
      let count := match cols with [] => O | col :: _ => length col end in
      let rows := rows_of_columns count cols in
      if forallb (fun col => Nat.eqb (length col) count) cols
         && forallb (conform_all (insert_fields (c_schema c))) rows
         && negb (Nat.eqb count 0)
      then
        Ok (<[n := {| c_schema := c_schema c; c_index := c_index c;
                      c_loaded := c_loaded c;
                      c_rows := c_rows c ++ mk_rows (c_schema c) (c_next_id c) rows;
                      c_next_id := c_next_id c + Z.of_nat count |}]> w)
      else Raise (Foreign "the data does not match the schema")
  end.

Definition row_vector (field : string) (r : gmap string (value F)) : list F :=
  match r !! field with
  | Some (VVec v) => v
  | _ => []
  end.

Definition row_id (r : gmap string (value F)) : Z :=
  match r !! "id" with
  | Some (VInt i) => i
  | _ => 0
  end.

(** The requested output fields of a row. *)
Definition project (outs : list string) (r : gmap string (value F)) : gmap string (value F) :=
  list_to_map (omap (fun k => match r !! k with Some v => Some (k, v) | None => None end) outs).

Definition mk_hit (q : list F) (field : string) (outs : list string)
    (r : gmap string (value F)) : Hit F :=
  {| hit_id := row_id r;
     hit_distance := l2 q (row_vector field r);
     entity := project outs r |}.

(** [h1] ranks no later than [h2]. *)
Definition closer (h1 h2 : Hit F) : Prop :=
  Is_true (Qle_bool (hit_distance h1) (hit_distance h2)).

#[local] Instance closer_dec : RelDecision closer :=
  fun h1 h2 => Is_true_dec (Qle_bool (hit_distance h1) (hit_distance h2)).

(** An empty expression selects every row. *)
Definition compile_expr (e : string) : option (gmap string (value F) -> bool) :=
  if String.eqb e EmptyString then Some (fun _ => true) else parse_expr e.

Definition top_hits (kw : SearchKwargs F) (p : gmap string (value F) -> bool)
    (rows : list (gmap string (value F))) (q : list F) : list (Hit F) :=
  take (Z.to_nat (limit kw))
       (merge_sort closer
          (map (mk_hit q (anns_field kw) (kw_output_fields kw)) (List.filter p rows))).

Definition search_rows (n : string) (kw : SearchKwargs F) (w : gmap string Coll)
  : result (list (list (Hit F))) :=
  match w !! n with
  | None => Raise (Foreign "collection not found")
  | Some c =>
      if negb (c_loaded c) then Raise (Foreign "collection not loaded") else
      match data kw with
      | None => Raise (Foreign "search data is illegal")
      | Some qs =>
          match vector_dim (anns_field kw) (c_schema c) with
          | None => Raise (Foreign "the anns field is no vector field")
          | Some d =>
              if negb (forallb (fun q => Z.of_nat (length q) =? d) qs)
              then Raise (Foreign "vector dimension mismatch") else
              if negb (String.eqb (sp_metric_type (param kw)) "L2")
              then Raise (Foreign "metric type not supported") else
              if negb ((1 <=? limit kw) && (limit kw <=? 16384))
              then Raise (Foreign "limit out of range") else
              match compile_expr (expr kw) with
              | None => Raise (Foreign "cannot parse expression")
              | Some p => Ok (map (top_hits kw p (c_rows c)) qs)
              end
          end
      end
  end.

#[global] Instance store : Milvus F (gmap string Coll) := {|
  utility_has_collection := has_collection;
  Collection_create := create;
  Collection_open := open;
  Collection_create_index := create_index;
  Collection_load := load;
  Collection_insert := insert_rows;
  Collection_search := search_rows
|}.

End Store.

Arguments Coll : clear implicits.

End RefStore.

(** ** A sample instance

    A small JSON codec, the squared Euclidean distance on rational vectors and
    a one-form expression language ([user_id == '...']), to run the client on
    the reference store. *)
Module Sample.

Definition dquote : ascii := "034"%char.

Fixpoint digits (n : nat) (p : positive) (acc : list ascii) : list ascii :=
  match n with
  | O => acc
  | S k =>
      let d := ascii_of_nat (48 + Z.to_nat (Zpos p mod 10)) :: acc in
      match Zpos p / 10 with
      | Zpos p' => digits k p' d
      | _ => d
      end
  end.

Definition decimal (z : Z) : list ascii :=
  match z with
  | Z0 => ["0"%char]
  | Zpos p => digits (Pos.to_nat p) p []
  | Zneg p => "-"%char :: digits (Pos.to_nat p) p []
  end.

(** The parts of an array or object, with [", "] between them. *)
Fixpoint separated (parts : list (list ascii)) : list ascii :=
  match parts with
  | [] => []
  | part :: rest =>
      match rest with
      | [] => part
      | _ :: _ => (part ++ ","%char :: " "%char :: separated rest)%list
      end
  end.

Definition quoted (s : string) : list ascii :=
  (dquote :: list_ascii_of_string s ++ [dquote])%list.

(** The characters [json.dumps] writes, with its default separators; text is
    written without escapes (a key or string holding a quote or a backslash is
    outside this codec). *)
Fixpoint chars (j : json) : list ascii :=
  match j with
  | JNull => list_ascii_of_string "null"
  | JBool true => list_ascii_of_string "true"
  | JBool false => list_ascii_of_string "false"
  | JNumber z => decimal z
  | JString s => quoted s
  | JArray l => ("["%char :: separated (map chars l) ++ ["]"%char])%list
  | JObject m =>
      ("{"%char
       :: separated
            (map (fun kv => quoted (fst kv) ++ ":"%char :: " "%char :: chars (snd kv)) m)
       ++ ["}"%char])%list
  end.

Definition dumps (j : json) : string := string_of_list_ascii (chars j).

Fixpoint skip_blanks (l : list ascii) : list ascii :=
  match l with
  | c :: r => if Ascii.eqb c " " then skip_blanks r else l
  | [] => []
  end.

(** The text up to the closing quote, and what follows it. *)
Fixpoint read_text (l : list ascii) : option (string * list ascii) :=
  match l with
  | [] => None
  | c :: r =>
      if Ascii.eqb c dquote then Some (EmptyString, r)
      else if Ascii.eqb c "\"%char then None
      else match read_text r with
           | Some (s, r') => Some (String c s, r')
           | None => None
           end
  end.

Definition digit_of (c : ascii) : option Z :=
  let n := Z.of_nat (nat_of_ascii c) in
  if (48 <=? n) && (n <=? 57) then Some (n - 48) else None.

Fixpoint read_number (l : list ascii) (acc : Z) : Z * list ascii :=
  match l with
  | c :: r =>
      match digit_of c with
      | Some d => read_number r (10 * acc + d)
      | None => (acc, l)
      end
  | [] => (acc, l)
  end.

Fixpoint read_value (fuel : nat) (l : list ascii) : option (json * list ascii) :=
  match fuel with
  | O => None
  | S n =>
      match skip_blanks l with
      | "n"%char :: "u"%char :: "l"%char :: "l"%char :: r => Some (JNull, r)
      | "t"%char :: "r"%char :: "u"%char :: "e"%char :: r => Some (JBool true, r)
      | "f"%char :: "a"%char :: "l"%char :: "s"%char :: "e"%char :: r => Some (JBool false, r)
      | "["%char :: r =>
          match skip_blanks r with
          | c :: r' =>
              if Ascii.eqb c "]" then Some (JArray [], r') else read_items n r []
          | [] => None
          end
      | "{"%char :: r =>
          match skip_blanks r with
          | c :: r' =>
              if Ascii.eqb c "}" then Some (JObject [], r') else read_members n r []
          | [] => None
          end
      | "-"%char :: c :: r =>
          match digit_of c with
          | Some _ => let (z, r') := read_number (c :: r) 0 in Some (JNumber (- z), r')
          | None => None
          end
      | c :: r =>
          if Ascii.eqb c dquote then
            match read_text r with
            | Some (s, r') => Some (JString s, r')
            | None => None
            end
          else
            match digit_of c with
            | Some _ => let (z, r') := read_number (c :: r) 0 in Some (JNumber z, r')
            | None => None
            end
      | [] => None
      end
  end
with read_items (fuel : nat) (l : list ascii) (acc : list json)
  : option (json * list ascii) :=
  match fuel with
  | O => None
  | S n =>
      match read_value n l with
      | Some (v, r) =>
          match skip_blanks r with
          | c :: r' =>
              if Ascii.eqb c "," then read_items n r' (acc ++ [v])
              else if Ascii.eqb c "]" then Some (JArray (acc ++ [v]), r')
              else None
          | [] => None
          end
      | None => None
      end
  end
with read_members (fuel : nat) (l : list ascii) (acc : list (string * json))
  : option (json * list ascii) :=
  match fuel with
  | O => None
  | S n =>
      match skip_blanks l with
      | c :: r =>
          if Ascii.eqb c dquote then
            match read_text r with
            | Some (k, r1) =>
                match skip_blanks r1 with
                | c1 :: r2 =>
                    if Ascii.eqb c1 ":" then
                      match read_value n r2 with
                      | Some (v, r3) =>
                          match skip_blanks r3 with
                          | c3 :: r4 =>
                              if Ascii.eqb c3 "," then read_members n r4 (acc ++ [(k, v)])
                              else if Ascii.eqb c3 "}" then Some (JObject (acc ++ [(k, v)]), r4)
                              else None
                          | [] => None
                          end
                      | None => None
                      end
                    else None
                | [] => None
                end
            | None => None
            end
          else None
      | [] => None
      end
  end.

(** [json.loads]: one value, then only blanks. *)
Definition loads (s : string) : result json :=
  let l := list_ascii_of_string s in
  match read_value (S (length l)) l with
  | Some (j, r) =>
      match skip_blanks r with
      | [] => Ok j
      | _ => Raise (Foreign "Extra data")
      end
  | None => Raise (Foreign "Expecting value")
  end.

(** Text the codec writes as it is: no quote, no backslash. *)
Definition plain_text (s : string) : bool :=
  forallb (fun c => negb (Ascii.eqb c dquote) && negb (Ascii.eqb c "\"%char))
          (list_ascii_of_string s).

(** The values made of plain text only: [null], booleans, plain strings, and
    arrays and objects of such, with plain keys. *)
Fixpoint text_only (j : json) : bool :=
  match j with
  | JNull => true
  | JBool _ => true
  | JNumber _ => false
  | JString s => plain_text s
  | JArray l => forallb text_only l
  | JObject m => forallb (fun kv => plain_text (fst kv) && text_only (snd kv)) m
  end.

(** The fuel the reader needs for a value. *)
Fixpoint weight (j : json) : nat :=
  match j with
  | JArray l => S (fold_right (fun x acc => S (weight x + acc)) O l)
  | JObject m => S (fold_right (fun kv acc => S (weight (snd kv) + acc)) O m)
  | _ => 1
  end.

Definition items_weight (l : list json) : nat :=
  fold_right (fun x acc => S (weight x + acc)) O l.

Definition members_weight (m : list (string * json)) : nat :=
  fold_right (fun kv acc => S (weight (snd kv) + acc)) O m.

(** A member of an object, as written, and when it is plain text. *)
Definition member_chars (kv : string * json) : list ascii :=
  (quoted (fst kv) ++ ":"%char :: " "%char :: chars (snd kv))%list.

Definition member_ok (kv : string * json) : bool :=
  plain_text (fst kv) && text_only (snd kv).

#[global] Instance codec : JsonCodec := {| json_dumps := dumps; json_loads := loads |}.

(** Milvus' [L2] metric on exact numbers: the sum of squared differences. *)
Fixpoint squared_distance (a b : list Q) : Q :=
  match a, b with
  | x :: a', y :: b' => (x - y) * (x - y) + squared_distance a' b'
  | _, _ => 0
  end.

#[global] Instance metric : RefStore.Metric Q := squared_distance.

(** The expressions [user_id == 'literal']. *)
Definition user_id_equals (e : string) : option (gmap string (value Q) -> bool) :=
  let pre := "user_id == '" in
  let n := String.length e in
  let k := String.length pre in
  if String.prefix pre e && Nat.ltb k n && String.eqb (substring (n - 1) 1 e) "'" then
    let lit := substring k (n - k - 1) e in
    Some (fun r => match r !! "user_id" with
                   | Some (VStr s) => String.eqb s lit
                   | _ => false
                   end)
  else None.

#[global] Instance expressions : RefStore.Expressions Q := user_id_equals.

Definition client : MilvusClient := MilvusClient_init "127.0.0.1" 19530 30.

(** A tenant, its documents, and query vectors. *)
Definition zeros : list Q := repeat (0 : Q) 768.

Definition tenant_doc : Document := {|
  page_content := "hello world";
  metadata := {| md_user_id := Some "tenant_42"; md_kb_id := Some "kb1";
                 md_file_id := Some "f1";
                 md_headers := Some [("h1", JString "Intro")];
                 md_doc_id := Some "d1" |}
|}.

Definition start : State Q (gmap string (RefStore.Coll Q)) :=
  {| self := client; server := ∅; issued := [] |}.

(** The document of the specification's scenario, with empty headers. *)
Definition scenario_doc : Document := {|
  page_content := "hello world";
  metadata := {| md_user_id := Some "tenant_42"; md_kb_id := Some "kb1";
                 md_file_id := Some "f1"; md_headers := Some [];
                 md_doc_id := Some "d1" |}
|}.

Definition tenant_filter : string := "user_id == 'tenant_42'".

Definition ones : list Q := repeat (1 : Q) 768.

(** A second document of the same tenant, without headers. *)
Definition other_doc : Document := {|
  page_content := "second chunk";
  metadata := {| md_user_id := Some "tenant_42"; md_kb_id := Some "kb1";
                 md_file_id := Some "f1"; md_headers := None;
                 md_doc_id := Some "d2" |}
|}.

(** The client after [load_collection_("tenant_42")] on the empty store. *)
Definition loaded : State Q (gmap string (RefStore.Coll Q)) :=
  (load_collection_ "tenant_42" start).2.

(** Then with [other_doc] stored at the origin. *)
Definition one_stored : State Q (gmap string (RefStore.Coll Q)) :=
  (store_doc other_doc (Some zeros) loaded).2.

(** The loaded client with [tenant_doc] stored far from the origin, then
    [other_doc] at the origin. *)
Definition far_then_near : State Q (gmap string (RefStore.Coll Q)) :=
  (store_doc other_doc (Some zeros) (store_doc tenant_doc (Some ones) loaded).2).2.

End Sample.

(** ** The vocabulary of the specification *)

Local Open Scope list_scope.

Section Properties.

Context {F : Type}.

(** The two failures [store_doc] and [search_docs] raise themselves; both are
    [MilvusFailed], told apart by their message. *)
Definition not_loaded_message : string :=
  "Milvus collection is not loaded. Call load_collection_() first.".

Definition missing_fields_message : string :=
  "Missing required fields in document metadata or embedding.".

Definition NotLoadedError (prefix : string) : exn :=
  MilvusFailed (prefix +:+ not_loaded_message).

Definition ValidationError : exn :=
  MilvusFailed ("Failed to store document: " +:+ missing_fields_message).

(** A field that is empty or absent. *)
Definition absent_str (o : option string) : Prop :=
  o = None \/ o = Some EmptyString.

Definition absent_vec (o : option (list F)) : Prop :=
  o = None \/ o = Some [].

(** One of [user_id, kb_id, file_id, doc_id, content, embedding] is empty or
    absent. *)
Definition incomplete (doc : Document) (embedding : option (list F)) : Prop :=
  absent_str (md_user_id (metadata doc)) \/
  absent_str (md_kb_id (metadata doc)) \/
  absent_str (md_file_id (metadata doc)) \/
  absent_str (md_doc_id (metadata doc)) \/
  page_content doc = EmptyString \/
  absent_vec embedding.

(** The six values [store_doc] validates, in the order of its [all([...])]. *)
Definition validated (doc : Document) (embedding : option (list F)) : list (value F) :=
  [get_str (md_user_id (metadata doc)); get_str (md_kb_id (metadata doc));
   get_str (md_file_id (metadata doc)); get_str (md_doc_id (metadata doc));
   VStr (page_content doc); vec_value embedding].

(** The fields of the schema as the specification lists them. *)
Definition auto_int64_key (n : string) : FieldSchema :=
  {| name := n; dtype := INT64; is_primary := true; auto_id := true;
     max_length := None; dim := None |}.

Definition string_field (n : string) (len : Z) : FieldSchema :=
  {| name := n; dtype := VARCHAR; is_primary := false; auto_id := false;
     max_length := Some len; dim := None |}.

Definition float_vector_field (n : string) (d : Z) : FieldSchema :=
  {| name := n; dtype := FLOAT_VECTOR; is_primary := false; auto_id := false;
     max_length := None; dim := Some d |}.

Definition specified_schema : list FieldSchema :=
  [auto_int64_key "id"; string_field "user_id" 64; string_field "kb_id" 64;
   string_field "file_id" 64; string_field "headers" 256; string_field "doc_id" 64;
   string_field "content" 4000; float_vector_field "embedding" 768].

Definition specified_index : IndexParams :=
  {| ip_metric_type := "L2"; ip_index_type := "IVF_FLAT"; ip_params := [("nlist", 1024)] |}.

(** The Python type a column of the given data type holds. *)
Definition holds (t : DataType) (v : value F) : Prop :=
  match t, v with
  | INT64, VInt _ => True
  | VARCHAR, VStr _ => True
  | FLOAT_VECTOR, VVec _ => True
  | _, _ => False
  end.

(** The query vectors a search request carries. *)
Definition queries (kw : SearchKwargs F) : list (list F) :=
  match data kw with
  | Some qs => qs
  | None => []
  end.

(** The store keeps to the limit: it answers a request only for a limit that
    is not negative, with at most one hit list per query vector, each of at
    most [limit] hits. *)
Definition reply_capped (kw : SearchKwargs F) (results : list (list (Hit F))) : Prop :=
  0 <= limit kw /\
  (length results <= length (queries kw))%nat /\
  Forall (fun hits => Z.of_nat (length hits) <= limit kw) results.

Definition vector_of (v : value F) : list F :=
  match v with
  | VVec l => l
  | _ => []
  end.

(** The store ranks: one hit list per query vector, each in ascending order
    of distance, the distance of a hit being that of its vector to the query
    under the metric. *)
Definition reply_ranked (metric : list F -> list F -> Q) (kw : SearchKwargs F)
    (results : list (list (Hit F))) : Prop :=
  Forall2 (fun q hits =>
             Sorted (fun h1 h2 => (hit_distance h1 <= hit_distance h2)%Q) hits /\
             Forall (fun h =>
                       (hit_distance h == metric q (vector_of (entity_get h (anns_field kw))))%Q)
                    hits)
          (queries kw) results.



(** The client once [self.sess] is set to [collection]. *)
Definition attached (c : MilvusClient) (collection : string) : MilvusClient :=
  {| host := host c; port := port c; sess := Some collection;
     partitions := partitions c; top_k := top_k c;
     search_params := search_params c; create_params := create_params c |}.

(** The [headers] entry of the metadata, [{}] when the key is absent. *)
Definition headers_of (doc : Document) : list (string * json) :=
  match md_headers (metadata doc) with
  | Some h => h
  | None => []
  end.

(** The dictionary [search_docs] returns for a hit whose stored headers read
    back as [headers]. *)
Definition record_of (hit : Hit F) (headers : json) : RetrievedDoc F :=
  {| doc_user_id := entity_get hit "user_id";
     doc_kb_id := entity_get hit "kb_id";
     doc_file_id := entity_get hit "file_id";
     doc_headers := headers;
     doc_doc_id := entity_get hit "doc_id";
     doc_content := entity_get hit "content";
     doc_embedding := entity_get hit "embedding" |}.

(** The state after a call [c] that left the store as it was. *)
Definition logged {W : Type} (c : Call F) (s : State F W) : State F W :=
  {| self := self s; server := server s; issued := issued s ++ [c] |}.

End Properties.

(** ** The vocabulary of the round trip through the reference store *)

Section RoundTripProperties.

Context {F : Type} `{JsonCodec}.

(** The entry of a stored row under [k] ([None] when it has none). *)
Definition row_value (r : gmap string (value F)) (k : string) : value F :=
  match r !! k with
  | Some v => v
  | None => VNone
  end.

(** A stored row whose headers text [json.loads] can read. *)
Definition readable (r : gmap string (value F)) : Prop :=
  exists j, loads_value (row_value r "headers") = Ok j.

(** The record whose fields equal the input of [store_doc]: the metadata, the
    headers as the map they are, the content and the embedding. *)
Definition input_record (doc : Document) (embedding : option (list F)) : RetrievedDoc F :=
  {| doc_user_id := get_str (md_user_id (metadata doc));
     doc_kb_id := get_str (md_kb_id (metadata doc));
     doc_file_id := get_str (md_file_id (metadata doc));
     doc_headers := JObject (headers_of doc);
     doc_doc_id := get_str (md_doc_id (metadata doc));
     doc_content := VStr (page_content doc);
     doc_embedding := vec_value embedding |}.

(** The values [store_doc] sends, one per column. *)
Definition document_values (doc : Document) (embedding : option (list F)) : list (value F) :=
  [get_str (md_user_id (metadata doc)); get_str (md_kb_id (metadata doc));
   get_str (md_file_id (metadata doc));
   VStr (json_dumps (JObject (headers_of doc)));
   get_str (md_doc_id (metadata doc)); VStr (page_content doc); vec_value embedding].

Definition at_most (n : Z) (o : option string) : Prop :=
  match o with
  | Some s => Z.of_nat (String.length s) <= n
  | None => True
  end.

(** The sizes of the schema, as the store counts them, in bytes: identifiers
    of at most 64, serialized headers of at most 256, content of at most 4000,
    and an embedding of 768 numbers. *)
Definition within_bounds (doc : Document) (embedding : list F) : Prop :=
  at_most 64 (md_user_id (metadata doc)) /\
  at_most 64 (md_kb_id (metadata doc)) /\
  at_most 64 (md_file_id (metadata doc)) /\
  at_most 256 (Some (json_dumps (JObject (headers_of doc)))) /\
  at_most 64 (md_doc_id (metadata doc)) /\
  at_most 4000 (Some (page_content doc)) /\
  length embedding = 768%nat.

End RoundTripProperties.

(** ** Construction, the test harness [main], and runs of operations *)

(** [connections.connect(host=, port=, timeout=, timeout_retry=, wait_time=)]:
    the connection layer of the SDK, on the state of the database service. *)
Class Connections (W : Type) : Type :=
  connections_connect : string -> Z -> Z -> Z -> Z -> W -> result W.

(** What the [print] calls of the module write while [main] runs, line by
    line: those of [main] and the one in the [except] handler of
    [search_docs].  The layout of the text is left out, and so is what the
    logger and the decorator [get_time], which are not among the sources, may
    write. *)
Inductive Line (F : Type) : Type :=
| LSearchFailed (e : exn)
| LLoaded (user_id : string)
| LLoadFailed (user_id : string) (e : exn)
| LNoDocuments (user_id : string)
| LFound (n : nat) (user_id : string)
| LDocument (i : nat)
| LField (label : string) (v : value F)
| LHeaders (headers : json)
| LHeadersUnparsable (headers : string)
| LHeadersUnknown (headers : json)
| LEmbedding (head : value F)
| LRetrieveFailed (user_id : string) (e : exn).
Arguments LSearchFailed {F} e.
Arguments LLoaded {F} user_id.
Arguments LLoadFailed {F} user_id e.
Arguments LNoDocuments {F} user_id.
Arguments LFound {F} n user_id.
Arguments LDocument {F} i.
Arguments LField {F} label v.
Arguments LHeaders {F} headers.
Arguments LHeadersUnparsable {F} headers.
Arguments LHeadersUnknown {F} headers.
Arguments LEmbedding {F} head.
Arguments LRetrieveFailed {F} user_id e.

Section Harness.

Context {F : Type} `{JsonCodec} {W : Type} `{Milvus F W} `{Connections W}.

Variable MILVUS_HOST_LOCAL : string.
Variable MILVUS_PORT : Z.
Variable VECTOR_SEARCH_TOP_K : Z.

(** [embed_user_input] of [src/client/embedding/embedding_client.py], which is
    not among the sources: the embedding of a text, or an exception. *)
Variable embed_user_input : string -> result (option (list F)).

(** [MilvusClient.__init__] on a database in state [w]: the fields are set,
    then [connections.connect] runs inside a [try] whose handler only logs. *)
Definition MilvusClient__init__ (w : W) : State F W :=
  let self_ := MilvusClient_init MILVUS_HOST_LOCAL MILVUS_PORT VECTOR_SEARCH_TOP_K in
  match connections_connect (host self_) (port self_) 3 3 1 w with
  | Ok w' => {| self := self_; server := w'; issued := [] |}
  | Raise _ => {| self := self_; server := w; issued := [] |}
  end.

(** [x[:5]] *)
Definition slice5 (x : value F) : result (value F) :=
  match x with
  | VVec l => Ok (VVec (firstn 5 l))
  | VStr s => Ok (VStr (substring 0 5 s))
  | VNone => Raise (Foreign "'NoneType' object is not subscriptable")
  | VInt _ => Raise (Foreign "'int' object is not subscriptable")
  end.

(** The [isinstance] cascade of [main] on [result.get('headers')]. *)
Definition print_headers (headers : json) : Line F :=
  match headers with
  | JObject _ => LHeaders headers
  | JString text =>
      match json_loads text with
      | Ok parsed => LHeaders parsed
      | Raise _ => LHeadersUnparsable text
      end
  | _ => LHeadersUnknown headers
  end.

(** The body of the loop over [enumerate(results)]: the lines printed, and
    the exception that ended it, if any. *)
Definition print_result (i : nat) (result : RetrievedDoc F) : list (Line F) * option exn :=
  let printed :=
    [LDocument (S i);
     LField "user_id" (doc_user_id result);
     LField "kb_id" (doc_kb_id result);
     LField "file_id" (doc_file_id result);
     print_headers (doc_headers result);
     LField "doc_id" (doc_doc_id result);
     LField "content" (doc_content result)] in
  match slice5 (doc_embedding result) with
  | Ok head => (printed ++ [LEmbedding head], None)
  | Raise e => (printed, Some e)
  end.

Fixpoint print_results (i : nat) (results : list (RetrievedDoc F))
  : list (Line F) * option exn :=
  match results with
  | [] => ([], None)
  | result :: rest =>
      match print_result i result with
      | (printed, None) =>
          let (more, e) := print_results (S i) rest in (printed ++ more, e)
      | (printed, Some e) => (printed, Some e)
      end
  end.

(** The body of the [try] of [search_docs]. *)
Definition search_docs_try (query_embedding : option (list F))
    (filter_expr : option string) (doc_limit : Z) : M F W (list (RetrievedDoc F)) :=
  bind get_sess (fun sess_ =>
    match sess_ with
    | None =>
        raise (MilvusFailed "Milvus collection is not loaded. Call load_collection_() first.")
    | Some collection =>
        bind (fun s =>
                (Ok (search_kwargs (self s) query_embedding filter_expr doc_limit), s))
          (fun kwargs =>
             bind (query (CSearch collection kwargs) (Collection_search collection kwargs))
               (fun results =>
                  match for_hits results [] with
                  | Ok retrieved_docs => ret retrieved_docs
                  | Raise e => raise e
                  end))
    end).

(** What a call of [search_docs] prints: when the body of its [try] raises,
    the line of its handler, which shows the exception caught; nothing when
    the body returns. *)
Definition search_docs_prints (query_embedding : option (list F))
    (filter_expr : option string) (doc_limit : Z) (s : State F W) : list (Line F) :=
  match search_docs_try query_embedding filter_expr doc_limit s with
  | (Ok _, _) => []
  | (Raise e, _) => [LSearchFailed e]
  end.

(** [main]: the lines printed and the state it leaves. *)
Definition main (w : W) : list (Line F) * State F W :=
  let client := MilvusClient__init__ w in
  let user_id := "abc1234__5678" in
  match load_collection_ user_id client with
  | (Raise e, s1) => ([LLoadFailed user_id e], s1)
  | (Ok _, s1) =>
      let filter_expr := "123" in
      match embed_user_input "荷塘月色" with
      | Raise e => ([LLoaded user_id; LRetrieveFailed user_id e], s1)
      | Ok query_expr =>
          let during := search_docs_prints query_expr (Some filter_expr) 1000 s1 in
          match search_docs query_expr (Some filter_expr) 1000 s1 with
          | (Raise e, s2) =>
              (LLoaded user_id :: during ++ [LRetrieveFailed user_id e], s2)
          | (Ok results, s2) =>
              match results with
              | [] => (LLoaded user_id :: during ++ [LNoDocuments user_id], s2)
              | _ :: _ =>
                  let (printed, e) := print_results 0 results in
                  (LLoaded user_id :: during
                   ++ LFound (length results) user_id :: printed
                   ++ match e with
                      | Some e => [LRetrieveFailed user_id e]
                      | None => []
                      end,
                   s2)
              end
          end
      end
  end.

(** A run of the client: its methods called one after the other, whatever
    each returns. *)
Inductive Op : Type :=
| OpLoad (user_id : string)
| OpStore (doc : Document) (embedding : option (list F))
| OpSearch (query_embedding : option (list F)) (filter_expr : option string)
           (doc_limit : Z).

Definition step (op : Op) (s : State F W) : State F W :=
  match op with
  | OpLoad user_id => (load_collection_ user_id s).2
  | OpStore doc embedding => (store_doc doc embedding s).2
  | OpSearch q f lim => (search_docs q f lim s).2
  end.

Definition run (ops : list Op) (s : State F W) : State F W :=
  fold_left (fun s op => step op s) ops s.

(** The answer of the store to a call, when it is an exception. *)
Definition store_raises (c : Call F) (w : W) (e : exn) : Prop :=
  match c with
  | CHasCollection n => utility_has_collection n w = Raise e
  | CCreate n schema => Collection_create n schema w = Raise e
  | COpen n => Collection_open n w = Raise e
  | CCreateIndex n field ip => Collection_create_index n field ip w = Raise e
  | CLoad n => Collection_load n w = Raise e
  | CInsert n rows => Collection_insert n rows w = Raise e
  | CSearch n kw => Collection_search n kw w = Raise e
  end.

(** The headers of a hit are text that [json.loads] reads. *)
Definition headers_readable (hit : Hit F) : Prop :=
  exists text j, entity_get hit "headers" = VStr text /\ json_loads text = Ok j.

End Harness.

Arguments Op : clear implicits.

(** ** The protocol between the client and the store *)

Section Protocol.

Context {F : Type} `{JsonCodec}.

(** The data [store_doc] hands to [insert]: one single-value column per
    field, in the order of the schema. *)
Definition columns (doc : Document) (embedding : option (list F)) : list (list (value F)) :=
  map (fun v => [v]) (document_values doc embedding).

(** A hit shows a row the client inserted: under the name of every supplied
    field it holds the value of the column, a text as it was inserted and a
    vector as the store keeps it ([kept] is the representation of the store:
    the vector itself on a store that keeps numbers exactly, each component
    rounded to single precision on one that keeps 32-bit floats). *)
Definition shows (kept : list F -> list F) (row : list (list (value F))) (hit : Hit F)
  : Prop :=
  Forall2 (fun k column =>
             match column with
             | [VVec e] => entity_get hit k = VVec (kept e)
             | [v] => entity_get hit k = v
             | _ => False
             end)
          (map name (List.filter (fun x => negb (auto_id x)) fields)) row.

Definition is_load (op : Op F) : bool :=
  match op with
  | OpLoad _ => true
  | _ => false
  end.

(** What a call of the client looks like, whatever its arguments were: the
    schema and the index are the fixed ones, an insert carries one row with
    no required value empty, a search asks for all output fields with at most
    one query vector. *)
Definition well_formed (c : MilvusClient) (call : Call F) : Prop :=
  match call with
  | CHasCollection _ | COpen _ | CLoad _ => True
  | CCreate _ schema => schema = fields
  | CCreateIndex _ field_name index_params =>
      field_name = "embedding" /\ index_params = create_params c
  | CInsert _ rows =>
      exists u k f h d t e,
        rows = [[VStr u]; [VStr k]; [VStr f]; [VStr h]; [VStr d]; [VStr t]; [VVec e]] /\
        u <> EmptyString /\ k <> EmptyString /\ f <> EmptyString /\
        d <> EmptyString /\ t <> EmptyString /\ e <> []
  | CSearch _ kw =>
      metric_type kw = sp_metric_type (search_params c) /\
      params kw = sp_params (search_params c) /\
      anns_field kw = "embedding" /\
      param kw = {| sp_metric_type := "L2"; sp_params := [("nprobe", 128)] |} /\
      kw_output_fields kw = output_fields /\
      (data kw = None \/ exists x v, data kw = Some [x :: v])
  end.

(** Every insert and every search in a history of calls names a collection
    for which a load was issued earlier in the history, or one of [seen]. *)
Fixpoint loads_first (seen : list string) (calls : list (Call F)) : Prop :=
  match calls with
  | [] => True
  | CLoad n :: rest => loads_first (n :: seen) rest
  | CInsert n _ :: rest => In n seen /\ loads_first seen rest
  | CSearch n _ :: rest => In n seen /\ loads_first seen rest
  | _ :: rest => loads_first seen rest
  end.

(** The collection the client holds, if any. *)
Definition held (c : MilvusClient) : list string :=
  match sess c with
  | Some n => [n]
  | None => []
  end.

End Protocol.

(** ** What the client keeps true of the reference store *)

Section StoreInvariant.

Context {F : Type} `{JsonCodec}.

(** Text that is not empty and has at most [n] characters. *)
Definition text_within (n : Z) (v : value F) : Prop :=
  exists s, v = VStr s /\ s <> EmptyString /\ Z.of_nat (String.length s) <= n.

(** A vector of the dimension of the schema. *)
Definition embedding_value (v : value F) : Prop :=
  exists e, v = VVec e /\ length e = 768%nat.

(** A row as [store_doc] writes it: a key, the five texts and the vector all
    there and within the sizes of the schema, and headers that [json.dumps]
    wrote from a map. *)
Definition valid_row (r : gmap string (value F)) : Prop :=
  (exists i, r !! "id" = Some (VInt i)) /\
  text_within 64 (row_value r "user_id") /\
  text_within 64 (row_value r "kb_id") /\
  text_within 64 (row_value r "file_id") /\
  (exists m, row_value r "headers" = VStr (json_dumps (JObject m)) /\
             Z.of_nat (String.length (json_dumps (JObject m))) <= 256) /\
  text_within 64 (row_value r "doc_id") /\
  text_within 4000 (row_value r "content") /\
  embedding_value (row_value r "embedding").

(** A collection as [load_collection_] creates it and [store_doc] fills it. *)
Definition valid_collection (c : RefStore.Coll F) : Prop :=
  RefStore.c_schema c = fields /\
  RefStore.c_index c = Some ("embedding", specified_index) /\
  Forall valid_row (RefStore.c_rows c).

(** A client with the index parameters of [__init__] on a store of valid
    collections, the one it holds being there and loaded. *)
Definition valid_state (s : State F (gmap string (RefStore.Coll F))) : Prop :=
  create_params (self s) = specified_index /\
  (forall n c, server s !! n = Some c -> valid_collection c) /\
  (forall n, sess (self s) = Some n ->
             exists c, server s !! n = Some c /\ RefStore.c_loaded c = true).

(** A record as [search_docs] returns it from valid rows. *)
Definition valid_record (d : RetrievedDoc F) : Prop :=
  text_within 64 (doc_user_id d) /\
  text_within 64 (doc_kb_id d) /\
  text_within 64 (doc_file_id d) /\
  (exists m, json_loads (json_dumps (JObject m)) = Ok (doc_headers d)) /\
  text_within 64 (doc_doc_id d) /\
  text_within 4000 (doc_content d) /\
  embedding_value (doc_embedding d).

(** The collection [load_collection_] creates. *)
Definition new_collection (index_params : IndexParams) : RefStore.Coll F :=
  {| RefStore.c_schema := fields;
     RefStore.c_index := Some ("embedding", index_params);
     RefStore.c_loaded := true;
     RefStore.c_rows := [];
     RefStore.c_next_id := 1 |}.

(** A collection once loaded. *)
Definition loaded_collection (c : RefStore.Coll F) : RefStore.Coll F :=
  {| RefStore.c_schema := RefStore.c_schema c;
     RefStore.c_index := RefStore.c_index c;
     RefStore.c_loaded := true;
     RefStore.c_rows := RefStore.c_rows c;
     RefStore.c_next_id := RefStore.c_next_id c |}.

(** A collection with the row of a document appended under the next key. *)
Definition with_document (c : RefStore.Coll F) (doc : Document)
    (embedding : option (list F)) : RefStore.Coll F :=
  {| RefStore.c_schema := RefStore.c_schema c;
     RefStore.c_index := RefStore.c_index c;
     RefStore.c_loaded := RefStore.c_loaded c;
     RefStore.c_rows :=
       RefStore.c_rows c ++
       [RefStore.mk_row (RefStore.c_schema c) (RefStore.c_next_id c)
                        (document_values doc embedding)];
     RefStore.c_next_id := RefStore.c_next_id c + 1 |}.

End StoreInvariant.

Section Output.

Context {F : Type}.

Definition is_document_line (l : Line F) : bool :=
  match l with
  | LDocument _ => true
  | _ => false
  end.

End Output.

(** ** More of the sample instance: a connection layer and further states *)

Module Scenario.

(** A connection layer that reaches the service at once. *)
#[global] Instance connections : Connections (gmap string (RefStore.Coll Q)) :=
  fun _ _ _ _ _ w => Ok w.

(** A connection layer that never reaches it. *)
Definition unreachable : Connections (gmap string (RefStore.Coll Q)) :=
  fun _ _ _ _ _ _ => Raise (Foreign "connect failed").

(** The client constructed while the service cannot be reached. *)
Definition offline : State Q (gmap string (RefStore.Coll Q)) :=
  @MilvusClient__init__ Q _ unreachable "127.0.0.1" 19530 30 ∅.

(** A store in which the collection of a tenant was created without an
    index (by another program): loading it raises. *)
Definition unindexed : State Q (gmap string (RefStore.Coll Q)) :=
  {| self := Sample.client;
     server := {[ "tenant_42" :=
                    {| RefStore.c_schema := fields;
                       RefStore.c_index := None;
                       RefStore.c_loaded := false;
                       RefStore.c_rows := [];
                       RefStore.c_next_id := 1 |} ]};
     issued := [] |}.

(** A run: two tenants, a document for each, then searches. *)
Definition two_tenants : list (Op Q) :=
  [OpLoad "tenant_42";
   OpStore Sample.tenant_doc (Some Sample.ones);
   OpLoad "tenant_7";
   OpStore Sample.other_doc (Some Sample.zeros);
   OpSearch (Some Sample.zeros) None 10].

(** A run without a load. *)
Definition no_load : list (Op Q) :=
  [OpStore Sample.tenant_doc (Some Sample.ones);
   OpSearch (Some Sample.zeros) (Some Sample.tenant_filter) 10;
   OpSearch None None 10].


(** The store of the two tenants, the client holding the second. *)
Definition both : State Q (gmap string (RefStore.Coll Q)) :=
  run two_tenants Sample.start.

End Scenario.

(** ** The client against any store *)

Section ClientTheory.

Context {F : Type} `{JsonCodec} {W : Type} `{Milvus F W}.

Lemma truthy_get_str (o : option string) :
  truthy (@get_str F o) = false <-> absent_str o.
Proof.
  unfold absent_str. destruct o as [[|c s]|]; simpl; split; intros Hx; auto;
    try discriminate; destruct Hx; congruence.
Qed.

Lemma truthy_vec_value (o : option (list F)) :
  truthy (vec_value o) = false <-> absent_vec o.
Proof.
  unfold absent_vec. destruct o as [[|x v]|]; simpl; split; intros Hx; auto;
    try discriminate; destruct Hx; congruence.
Qed.

Lemma truthy_content (s : string) :
  truthy (@VStr F s) = false <-> s = EmptyString.
Proof. destruct s; simpl; split; intros; congruence. Qed.

(** The check [all([...])] of [store_doc] fails exactly on incomplete input. *)
Lemma validation_fails_iff (doc : Document) (embedding : option (list F)) :
  all (validated doc embedding) = false <-> incomplete doc embedding.
Proof.
  unfold all, validated, incomplete. cbn [forallb].
  rewrite !andb_false_iff, !truthy_get_str, truthy_vec_value, truthy_content.
  intuition discriminate.
Qed.

Lemma validation_passes_iff (doc : Document) (embedding : option (list F)) :
  all (validated doc embedding) = true <-> ~ incomplete doc embedding.
Proof.
  rewrite <- validation_fails_iff. destruct (all (validated doc embedding)); split;
    congruence.
Qed.

(** [store_doc] on a loaded client, one step at a time. *)
Lemma store_doc_loaded (s : State F W) (collection : string) (doc : Document)
    (embedding : option (list F)) :
  sess (self s) = Some collection ->
  store_doc doc embedding s =
    if all (validated doc embedding) then
      let headers := json_dumps (JObject (match md_headers (metadata doc) with
                                          | Some h => h
                                          | None => []
                                          end)) in
      let rows := [[get_str (md_user_id (metadata doc))];
                   [get_str (md_kb_id (metadata doc))];
                   [get_str (md_file_id (metadata doc))];
                   [VStr headers];
                   [get_str (md_doc_id (metadata doc))];
                   [VStr (page_content doc)];
                   [vec_value embedding]] in
      match Collection_insert collection rows (server s) with
      | Ok w =>
          (Ok tt, {| self := self s; server := w;
                     issued := issued s ++ [CInsert collection rows] |})
      | Raise e =>
          (Raise (MilvusFailed ("Failed to store document: " +:+ str e)),
           logged (CInsert collection rows) s)
      end
    else (Raise ValidationError, s).
Proof.
  intros Hs. unfold store_doc, try_except, bind, get_sess, raise, command, validated.
  rewrite Hs. cbv zeta.
  destruct (all _); simpl; [|reflexivity].
  destruct (Collection_insert _ _ _); reflexivity.
Qed.

(** [search_docs] on a loaded client, one step at a time. *)
Lemma search_docs_loaded (s : State F W) (collection : string)
    (q : option (list F)) (f : option string) (lim : Z) :
  sess (self s) = Some collection ->
  search_docs q f lim s =
    (match Collection_search collection (search_kwargs (self s) q f lim) (server s) with
     | Ok results =>
         match for_hits results [] with
         | Ok docs => Ok docs
         | Raise e => Raise (MilvusFailed ("Failed to search documents: " +:+ str e))
         end
     | Raise e => Raise (MilvusFailed ("Failed to search documents: " +:+ str e))
     end,
     logged (CSearch collection (search_kwargs (self s) q f lim)) s).
Proof.
  intros Hs. unfold search_docs, get_time, try_except, bind, get_sess, raise, query, ret.
  rewrite Hs. simpl.
  destruct (Collection_search _ _ _) as [results|e]; [|reflexivity].
  destruct (for_hits results []); reflexivity.
Qed.

(** Both methods on a client that holds no collection. *)
Lemma store_doc_unloaded (s : State F W) (doc : Document) (embedding : option (list F)) :
  sess (self s) = None ->
  store_doc doc embedding s = (Raise (NotLoadedError "Failed to store document: "), s).
Proof.
  intros Hs. unfold store_doc, try_except, bind, get_sess, raise. rewrite Hs. reflexivity.
Qed.

Lemma search_docs_unloaded (s : State F W) (q : option (list F)) (f : option string)
    (lim : Z) :
  sess (self s) = None ->
  search_docs q f lim s = (Raise (NotLoadedError "Failed to search documents: "), s).
Proof.
  intros Hs. unfold search_docs, get_time, try_except, bind, get_sess, raise. rewrite Hs.
  reflexivity.
Qed.

(** The loops collect one dictionary per hit, in order, or stop at the first
    hit whose dictionary cannot be built. *)
Lemma for_hit_spec (hits : list (Hit F)) (acc : list (RetrievedDoc F)) :
  match for_hit hits acc with
  | Ok docs => exists ds, docs = (acc ++ ds)%list /\ Forall2 (fun h d => hit_doc h = Ok d) hits ds
  | Raise e => exists h, In h hits /\ hit_doc h = Raise e
  end.
Proof.
  revert acc. induction hits as [|h hits IH]; intros acc; simpl.
  - exists []. split; [symmetry; apply app_nil_r | constructor].
  - destruct (hit_doc h) as [d|e] eqn:Hd.
    + specialize (IH (acc ++ [d])). destruct (for_hit hits (acc ++ [d])) as [docs|e].
      * destruct IH as (ds & -> & Hall). exists (d :: ds). split.
        -- rewrite <- app_assoc. reflexivity.
        -- constructor; assumption.
      * destruct IH as (h' & Hin & Hh'). exists h'. split; [right|]; assumption.
    + exists h. split; [left; reflexivity | assumption].
Qed.

Lemma for_hits_spec (results : list (list (Hit F))) (acc : list (RetrievedDoc F)) :
  match for_hits results acc with
  | Ok docs =>
      exists ds, docs = (acc ++ ds)%list /\
                 Forall2 (fun h d => hit_doc h = Ok d) (concat results) ds
  | Raise e => exists h, In h (concat results) /\ hit_doc h = Raise e
  end.
Proof.
  revert acc. induction results as [|hits results IH]; intros acc; simpl.
  - exists []. split; [symmetry; apply app_nil_r | constructor].
  - pose proof (for_hit_spec hits acc) as Hh.
    destruct (for_hit hits acc) as [docs|e].
    + destruct Hh as (ds1 & -> & H1). specialize (IH (acc ++ ds1)).
      destruct (for_hits results (acc ++ ds1)) as [docs|e].
      * destruct IH as (ds2 & -> & H2). exists (ds1 ++ ds2). split.
        -- rewrite <- app_assoc. reflexivity.
        -- apply Forall2_app; assumption.
      * destruct IH as (h & Hin & Hh). exists h. split; [|assumption].
        apply in_or_app. right. exact Hin.
    + destruct Hh as (h & Hin & Hh). exists h. split; [|assumption].
      apply in_or_app. left. exact Hin.
Qed.

Lemma for_hits_ok (results : list (list (Hit F))) (docs : list (RetrievedDoc F)) :
  for_hits results [] = Ok docs ->
  Forall2 (fun h d => hit_doc h = Ok d) (concat results) docs.
Proof.
  intros Hf. pose proof (for_hits_spec results []) as Hs. rewrite Hf in Hs.
  destruct Hs as (ds & -> & Hall). exact Hall.
Qed.

(** A client fresh from [__init__] holds no collection. *)
Lemma init_unloaded (h : string) (p k : Z) : sess (MilvusClient_init h p k) = None.
Proof. reflexivity. Qed.

(** [store_doc] and [search_docs] never touch the client object. *)
Lemma store_doc_keeps_client (s : State F W) (doc : Document)
    (embedding : option (list F)) :
  self (store_doc doc embedding s).2 = self s.
Proof.
  unfold store_doc, try_except, bind, get_sess, raise, command.
  destruct (sess (self s)); simpl; [|reflexivity].
  destruct (negb _); simpl; [reflexivity|].
  destruct (Collection_insert _ _ _); reflexivity.
Qed.

Lemma search_docs_keeps_client (s : State F W) (q : option (list F))
    (f : option string) (lim : Z) :
  self (search_docs q f lim s).2 = self s.
Proof.
  unfold search_docs, get_time, try_except, bind, get_sess, raise, query, ret.
  destruct (sess (self s)); simpl; [|reflexivity].
  destruct (Collection_search _ _ _) as [results|e]; [|reflexivity].
  destruct (for_hits results []); reflexivity.
Qed.

(** A [load_collection_] that raises leaves the client as it was. *)
Lemma load_collection_failure_keeps_client (s s' : State F W) (user_id : string) (e : exn) :
  load_collection_ user_id s = (Raise e, s') -> self s' = self s.
Proof.
  unfold load_collection_, get_time, bind, query, command, set_sess. simpl.
  destruct (utility_has_collection user_id (server s)) as [[|]|e0]; simpl.
  - destruct (Collection_open user_id (server s)) as [w1|e1]; simpl.
    + destruct (Collection_load user_id w1); simpl; intros [= _ <-]; reflexivity.
    + intros [= _ <-]; reflexivity.
  - destruct (Collection_create user_id fields (server s)) as [w1|e1]; simpl.
    + destruct (Collection_create_index _ _ _ w1) as [w2|e2]; simpl.
      * destruct (Collection_load user_id w2); simpl; intros [= _ <-]; reflexivity.
      * intros [= _ <-]; reflexivity.
    + intros [= _ <-]; reflexivity.
  - intros [= _ <-]; reflexivity.
Qed.

(** C3: on a client whose collection has not been loaded ([self.sess] is
    [None]), [store_doc] and [search_docs] both fail with the not-loaded
    failure, and the state comes back unchanged: the store is as it was and no
    call, insert or search, has been issued to it. *)
Theorem unloaded_client_fails (s : State F W) (doc : Document)
    (embedding q : option (list F)) (f : option string) (lim : Z) :
  sess (self s) = None ->
  store_doc doc embedding s = (Raise (NotLoadedError "Failed to store document: "), s) /\
  search_docs q f lim s = (Raise (NotLoadedError "Failed to search documents: "), s).
Proof.
  intros Hs. split.
  - apply store_doc_unloaded. exact Hs.
  - apply search_docs_unloaded. exact Hs.
Qed.

(** Whatever the client holds, an incomplete document is refused and the state
    comes back as it was. *)
Lemma store_doc_incomplete_never_writes (s : State F W) (doc : Document)
    (embedding : option (list F)) :
  incomplete doc embedding ->
  exists msg, store_doc doc embedding s = (Raise (MilvusFailed msg), s).
Proof.
  intros Hinc. destruct (sess (self s)) as [collection|] eqn:Hs.
  - rewrite (store_doc_loaded s collection) by exact Hs.
    apply validation_fails_iff in Hinc. rewrite Hinc. eexists. reflexivity.
  - rewrite store_doc_unloaded by exact Hs. eexists. reflexivity.
Qed.

(** C2: a document in which one of user_id, kb_id, file_id, doc_id, content
    or embedding is empty or absent makes [store_doc] fail, and the state comes
    back unchanged: the failure is raised before any call to the store and no
    record is written.  On a loaded client (the precondition of store) the
    failure is the validation failure. *)
Theorem store_doc_rejects_incomplete (s : State F W) (doc : Document)
    (embedding : option (list F)) :
  incomplete doc embedding ->
  (exists msg, store_doc doc embedding s = (Raise (MilvusFailed msg), s)) /\
  (forall collection,
     sess (self s) = Some collection ->
     store_doc doc embedding s = (Raise ValidationError, s)).
Proof.
  intros Hinc. split; [apply store_doc_incomplete_never_writes; exact Hinc|].
  intros collection Hs. rewrite (store_doc_loaded s collection) by exact Hs.
  apply validation_fails_iff in Hinc. rewrite Hinc. reflexivity.
Qed.

(** A complete document has its five strings and its vector. *)
Lemma complete_fields (doc : Document) (embedding : option (list F)) :
  ~ incomplete doc embedding ->
  exists u k f d e,
    md_user_id (metadata doc) = Some u /\ md_kb_id (metadata doc) = Some k /\
    md_file_id (metadata doc) = Some f /\ md_doc_id (metadata doc) = Some d /\
    embedding = Some e.
Proof.
  unfold incomplete, absent_str, absent_vec. intros Hc.
  destruct (md_user_id (metadata doc)) as [u|]; [|tauto].
  destruct (md_kb_id (metadata doc)) as [k|]; [|tauto].
  destruct (md_file_id (metadata doc)) as [f|]; [|tauto].
  destruct (md_doc_id (metadata doc)) as [d|]; [|tauto].
  destruct embedding as [e|]; [|tauto].
  exists u, k, f, d, e. repeat split.
Qed.

(** C10: for a document that passes validation, the one call [store_doc]
    issues is an insert whose columns, paired with the schema's fields that
    are not auto-generated, in their declaration order, read user_id, kb_id,
    file_id, headers (serialized), doc_id, content, embedding; there are as
    many columns as such fields (none for id), each holds one value, of the
    type its field declares. *)
Theorem store_doc_row_follows_schema (s : State F W) (collection : string)
    (doc : Document) (embedding : option (list F)) :
  sess (self s) = Some collection ->
  ~ incomplete doc embedding ->
  exists row u k f d e,
    issued (store_doc doc embedding s).2 = issued s ++ [CInsert collection row] /\
    md_user_id (metadata doc) = Some u /\ md_kb_id (metadata doc) = Some k /\
    md_file_id (metadata doc) = Some f /\ md_doc_id (metadata doc) = Some d /\
    embedding = Some e /\
    zip (map name (List.filter (fun x => negb (auto_id x)) fields)) row =
      [("user_id", [VStr u]); ("kb_id", [VStr k]); ("file_id", [VStr f]);
       ("headers", [VStr (json_dumps (JObject (headers_of doc)))]);
       ("doc_id", [VStr d]); ("content", [VStr (page_content doc)]);
       ("embedding", [VVec e])] /\
    length row = length (List.filter (fun x => negb (auto_id x)) fields) /\
    Forall2 (fun x col => exists v, col = [v] /\ holds (dtype x) v)
            (List.filter (fun x => negb (auto_id x)) fields) row.
Proof.
  intros Hs Hc.
  destruct (complete_fields doc embedding Hc) as (u & k & f & d & e & Hu & Hk & Hf & Hd & He).
  apply validation_passes_iff in Hc.
  rewrite (store_doc_loaded s collection) by exact Hs. rewrite Hc. cbv zeta.
  rewrite Hu, Hk, Hf, Hd, He. simpl get_str. simpl vec_value.
  eexists; exists u, k, f, d, e. split.
  { destruct (Collection_insert _ _ _); reflexivity. }
  do 7 (split; [reflexivity|]).
  simpl. repeat constructor; eexists; (split; [reflexivity | exact I]).
Qed.

(** C8: when the filter expression is absent or empty, the request
    [search_docs] sends carries the empty string as its expression, that
    request is the one call issued, and the records returned are those of
    all the hits of the store's reply, one for one: the client filters
    nothing itself. *)
Theorem search_docs_forwards_empty_filter (s : State F W) (collection : string)
    (q : option (list F)) (f : option string) (lim : Z) :
  sess (self s) = Some collection ->
  absent_str f ->
  expr (search_kwargs (self s) q f lim) = EmptyString /\
  issued (search_docs q f lim s).2 =
    issued s ++ [CSearch collection (search_kwargs (self s) q f lim)] /\
  forall results docs,
    Collection_search collection (search_kwargs (self s) q f lim) (server s) = Ok results ->
    (search_docs q f lim s).1 = Ok docs ->
    Forall2 (fun hit d => hit_doc hit = Ok d) (concat results) docs.
Proof.
  intros Hs Hf. rewrite (search_docs_loaded s collection) by exact Hs. simpl.
  split; [|split; [reflexivity|]].
  - destruct Hf as [-> | ->]; reflexivity.
  - intros results docs Hr. rewrite Hr.
    destruct (for_hits results []) as [ds|e] eqn:Hfor; [|discriminate].
    intros [= <-]. apply for_hits_ok. exact Hfor.
Qed.

(** C9: when the query embedding is absent ([None] or empty), the request
    [search_docs] sends carries no query data ([None]); the call is the very
    call made with no embedding at all, whose request is fixed by the filter
    expression and the limit, and so is its outcome. *)
Theorem search_docs_without_query_vector (s : State F W) (collection : string)
    (q : option (list F)) (f : option string) (lim : Z) :
  sess (self s) = Some collection ->
  absent_vec q ->
  data (search_kwargs (self s) q f lim) = None /\
  search_kwargs (self s) q f lim =
    {| metric_type := sp_metric_type (search_params (self s));
       params := sp_params (search_params (self s));
       data := None;
       anns_field := "embedding";
       param := {| sp_metric_type := "L2"; sp_params := [("nprobe", 128)] |};
       limit := lim;
       expr := match f with Some e => e | None => EmptyString end;
       kw_output_fields := output_fields |} /\
  issued (search_docs q f lim s).2 =
    issued s ++ [CSearch collection (search_kwargs (self s) None f lim)] /\
  search_docs q f lim s = search_docs None f lim s.
Proof.
  intros Hs Hq.
  assert (Hkw : search_kwargs (self s) q f lim = search_kwargs (self s) None f lim).
  { destruct Hq as [-> | ->]; reflexivity. }
  split; [rewrite Hkw; reflexivity|]. split.
  { rewrite Hkw. unfold search_kwargs. simpl. f_equal.
    destruct f as [[|c e]|]; reflexivity. }
  rewrite !(search_docs_loaded s collection) by exact Hs. rewrite Hkw.
  split; reflexivity.
Qed.

(** [load_collection_], one call at a time. *)
Lemma load_collection_steps (s : State F W) (user_id : string) :
  load_collection_ user_id s =
    match utility_has_collection user_id (server s) with
    | Raise e => (Raise e, logged (CHasCollection user_id) s)
    | Ok true =>
        match Collection_open user_id (server s) with
        | Raise e =>
            (Raise e,
             {| self := self s; server := server s;
                issued := issued s ++ [CHasCollection user_id; COpen user_id] |})
        | Ok w1 =>
            match Collection_load user_id w1 with
            | Raise e =>
                (Raise e,
                 {| self := self s; server := w1;
                    issued := issued s ++
                              [CHasCollection user_id; COpen user_id; CLoad user_id] |})
            | Ok w2 =>
                (Ok tt,
                 {| self := attached (self s) user_id; server := w2;
                    issued := issued s ++
                              [CHasCollection user_id; COpen user_id; CLoad user_id] |})
            end
        end
    | Ok false =>
        match Collection_create user_id fields (server s) with
        | Raise e =>
            (Raise e,
             {| self := self s; server := server s;
                issued := issued s ++ [CHasCollection user_id; CCreate user_id fields] |})
        | Ok w1 =>
            match Collection_create_index user_id "embedding" (create_params (self s)) w1 with
            | Raise e =>
                (Raise e,
                 {| self := self s; server := w1;
                    issued := issued s ++
                              [CHasCollection user_id; CCreate user_id fields;
                               CCreateIndex user_id "embedding" (create_params (self s))] |})
            | Ok w2 =>
                match Collection_load user_id w2 with
                | Raise e =>
                    (Raise e,
                     {| self := self s; server := w2;
                        issued := issued s ++
                                  [CHasCollection user_id; CCreate user_id fields;
                                   CCreateIndex user_id "embedding" (create_params (self s));
                                   CLoad user_id] |})
                | Ok w3 =>
                    (Ok tt,
                     {| self := attached (self s) user_id; server := w3;
                        issued := issued s ++
                                  [CHasCollection user_id; CCreate user_id fields;
                                   CCreateIndex user_id "embedding" (create_params (self s));
                                   CLoad user_id] |})
                end
            end
        end
    end.
Proof.
  unfold load_collection_, get_time, bind, query, command, set_sess, logged, attached.
  simpl.
  destruct (utility_has_collection user_id (server s)) as [[|]|e0]; simpl;
    [| |reflexivity].
  - destruct (Collection_open user_id (server s)) as [w1|e1]; simpl;
      [|rewrite <- !app_assoc; reflexivity].
    destruct (Collection_load user_id w1); simpl; rewrite <- !app_assoc; reflexivity.
  - destruct (Collection_create user_id fields (server s)) as [w1|e1]; simpl;
      [|rewrite <- !app_assoc; reflexivity].
    destruct (Collection_create_index _ _ _ w1) as [w2|e2]; simpl;
      [|rewrite <- !app_assoc; reflexivity].
    destruct (Collection_load user_id w2); simpl; rewrite <- !app_assoc; reflexivity.
Qed.

(** No method changes the index parameters [__init__] sets. *)
Lemma init_create_params (h : string) (p k : Z) :
  create_params (MilvusClient_init h p k) = specified_index.
Proof. reflexivity. Qed.

Lemma load_collection_keeps_create_params (s : State F W) (user_id : string) :
  create_params (self (load_collection_ user_id s).2) = create_params (self s).
Proof.
  rewrite load_collection_steps.
  destruct (utility_has_collection user_id (server s)) as [[|]|e0]; [| |reflexivity].
  - destruct (Collection_open user_id (server s)) as [w1|e1]; [|reflexivity].
    destruct (Collection_load user_id w1); reflexivity.
  - destruct (Collection_create user_id fields (server s)) as [w1|e1]; [|reflexivity].
    destruct (Collection_create_index _ _ _ w1) as [w2|e2]; [|reflexivity].
    destruct (Collection_load user_id w2); reflexivity.
Qed.

(** C4: for a collection name the store does not have, [load_collection_]
    asks for the collection to be created with the schema of the
    specification (id, user_id, kb_id, file_id, headers, doc_id, content,
    embedding, with their types and bounds, in this order), then for an index
    L2 / IVF_FLAT / nlist 1024 on the embedding field, then for the load; for
    a name the store has, it opens the collection and loads it, creating
    nothing.  Whenever it returns, the load was the last call issued, it
    succeeded, and [self.sess] holds the collection. *)
Theorem load_collection_creates_or_attaches (s : State F W) (user_id : string) :
  create_params (self s) = specified_index ->
  (forall w1 w2 w3,
     utility_has_collection user_id (server s) = Ok false ->
     Collection_create user_id specified_schema (server s) = Ok w1 ->
     Collection_create_index user_id "embedding" specified_index w1 = Ok w2 ->
     Collection_load user_id w2 = Ok w3 ->
     load_collection_ user_id s =
       (Ok tt,
        {| self := attached (self s) user_id;
           server := w3;
           issued := issued s ++
                     [CHasCollection user_id;
                      CCreate user_id specified_schema;
                      CCreateIndex user_id "embedding" specified_index;
                      CLoad user_id] |})) /\
  (forall w1 w2,
     utility_has_collection user_id (server s) = Ok true ->
     Collection_open user_id (server s) = Ok w1 ->
     Collection_load user_id w1 = Ok w2 ->
     load_collection_ user_id s =
       (Ok tt,
        {| self := attached (self s) user_id;
           server := w2;
           issued := issued s ++
                     [CHasCollection user_id; COpen user_id; CLoad user_id] |})) /\
  (forall s',
     load_collection_ user_id s = (Ok tt, s') ->
     sess (self s') = Some user_id /\
     last (issued s') = Some (CLoad user_id) /\
     exists w, Collection_load user_id w = Ok (server s')).
Proof.
  intros Hcp. change specified_schema with fields.
  rewrite load_collection_steps, Hcp. split; [|split].
  - intros w1 w2 w3 -> -> -> ->. reflexivity.
  - intros w1 w2 -> -> ->. reflexivity.
  - intros s'.
    destruct (utility_has_collection user_id (server s)) as [[|]|e0]; [| |discriminate].
    + destruct (Collection_open user_id (server s)) as [w1|e1]; [|discriminate].
      destruct (Collection_load user_id w1) as [w2|e2] eqn:Hl; [|discriminate].
      intros [= <-]. simpl. split; [reflexivity|]. split; [|exists w1; exact Hl].
      rewrite last_app. reflexivity.
    + destruct (Collection_create user_id fields (server s)) as [w1|e1]; [|discriminate].
      destruct (Collection_create_index _ _ _ w1) as [w2|e2]; [|discriminate].
      destruct (Collection_load user_id w2) as [w3|e3] eqn:Hl; [|discriminate].
      intros [= <-]. simpl. split; [reflexivity|]. split; [|exists w2; exact Hl].
      rewrite last_app. reflexivity.
Qed.

(** What a successfully built dictionary holds. *)
Lemma hit_doc_ok (hit : Hit F) (d : RetrievedDoc F) :
  hit_doc hit = Ok d ->
  exists stored,
    entity_get hit "headers" = VStr stored /\
    json_loads stored = Ok (doc_headers d) /\
    d = record_of hit (doc_headers d).
Proof.
  unfold hit_doc, loads_value, record_of.
  destruct (entity_get hit "headers") as [| |stored|]; try discriminate.
  destruct (json_loads stored) as [j|e] eqn:Hj; [|discriminate].
  intros [= <-]. exists stored. simpl. repeat split. exact Hj.
Qed.

Lemma Forall2_lengths {A B : Type} (P : A -> B -> Prop) (l : list A) (l' : list B) :
  Forall2 P l l' -> length l = length l'.
Proof. induction 1; simpl; congruence. Qed.

(** The client sends at most one query vector. *)
Lemma queries_at_most_one (c : MilvusClient) (q : option (list F)) (f : option string)
    (lim : Z) :
  (length (queries (search_kwargs c q f lim)) <= 1)%nat.
Proof. unfold queries. simpl. destruct q as [[|x v]|]; simpl; lia. Qed.

Lemma queries_of_vector (c : MilvusClient) (v : list F) (f : option string) (lim : Z) :
  v <> [] -> queries (search_kwargs c (Some v) f lim) = [v].
Proof. intros Hv. unfold queries. simpl. destruct v; [congruence | reflexivity]. Qed.

(** A successful [search_docs] is a successful search of the store followed
    by one dictionary per hit. *)
Lemma search_docs_ok (s s' : State F W) (q : option (list F)) (f : option string)
    (lim : Z) (docs : list (RetrievedDoc F)) :
  search_docs q f lim s = (Ok docs, s') ->
  exists collection results,
    sess (self s) = Some collection /\
    Collection_search collection (search_kwargs (self s) q f lim) (server s) = Ok results /\
    Forall2 (fun hit d => hit_doc hit = Ok d) (concat results) docs.
Proof.
  destruct (sess (self s)) as [collection|] eqn:Hs.
  - rewrite (search_docs_loaded s collection) by exact Hs.
    destruct (Collection_search _ _ _) as [results|e] eqn:Hr; [|discriminate].
    destruct (for_hits results []) as [ds|e] eqn:Hf; [|discriminate].
    intros [= <- _]. exists collection, results.
    split; [reflexivity|]. split; [first [exact Hr | reflexivity]|].
    apply for_hits_ok. exact Hf.
  - rewrite search_docs_unloaded by exact Hs. discriminate.
Qed.

(** A reply that keeps to the limit, to a request of at most one query vector,
    holds at most [limit] hits in all. *)
Lemma capped_reply_length (kw : SearchKwargs F) (results : list (list (Hit F))) :
  (length (queries kw) <= 1)%nat ->
  reply_capped kw results ->
  Z.of_nat (length (concat results)) <= limit kw.
Proof.
  intros Hq (H0lim & Hlen & Heach).
  destruct results as [|hits [|hits' rest]]; simpl in *.
  - exact H0lim.
  - rewrite app_nil_r. inversion Heach; assumption.
  - lia.
Qed.

(** C5: when the store keeps to the limit it is asked for, [search_docs]
    returns at most [doc_limit] records, for every query embedding, filter
    expression and limit; a call that leaves the limit out runs with 10. *)
Theorem search_docs_at_most_limit (s : State F W) (q : option (list F))
    (f : option string) (lim : Z) :
  (forall collection results,
     sess (self s) = Some collection ->
     Collection_search collection (search_kwargs (self s) q f lim) (server s) = Ok results ->
     reply_capped (search_kwargs (self s) q f lim) results) ->
  (forall docs s',
     search_docs q f lim s = (Ok docs, s') -> Z.of_nat (length docs) <= lim) /\
  search_docs_call q f None = search_docs q f 10.
Proof.
  intros Hcap. split; [|reflexivity].
  intros docs s' Hok.
  destruct (search_docs_ok _ _ _ _ _ _ Hok) as (collection & results & Hs & Hr & Hall).
  apply Forall2_lengths in Hall. rewrite <- Hall.
  apply (capped_reply_length (search_kwargs (self s) q f lim)).
  - apply queries_at_most_one.
  - exact (Hcap collection results Hs Hr).
Qed.

Lemma Sorted_Forall2 {A B : Type} (R : A -> A -> Prop) (R' : B -> B -> Prop)
    (P : A -> B -> Prop) (l : list A) (l' : list B) :
  (forall a b a' b', P a a' -> P b b' -> R a b -> R' a' b') ->
  Forall2 P l l' -> Sorted R l -> Sorted R' l'.
Proof.
  intros Hstep Hall. induction Hall as [|a a' l l' Ha Hall IH]; intros Hsorted.
  - constructor.
  - inversion Hsorted as [|? ? Hs Hhd]; subst. constructor; [apply IH; exact Hs|].
    destruct Hall as [|b b' l l' Hb Hall]; constructor.
    inversion Hhd; subst. eapply Hstep; eassumption.
Qed.

Lemma Forall2_Forall_l {A B : Type} (P : A -> B -> Prop) (Q : A -> Prop)
    (l : list A) (l' : list B) :
  Forall2 P l l' -> Forall Q l -> Forall2 (fun a b => P a b /\ Q a) l l'.
Proof.
  induction 1; intros Hq; constructor; inversion Hq; subst; auto.
Qed.

(** The records built from a ranked reply to one query vector keep its order. *)
Lemma ranked_reply_sorted (metric : list F -> list F -> Q) (kw : SearchKwargs F)
    (v : list F) (results : list (list (Hit F))) (docs : list (RetrievedDoc F)) :
  queries kw = [v] ->
  anns_field kw = "embedding" ->
  reply_ranked metric kw results ->
  Forall2 (fun hit d => hit_doc hit = Ok d) (concat results) docs ->
  Sorted (fun d1 d2 => (metric v (vector_of (doc_embedding d1))
                        <= metric v (vector_of (doc_embedding d2)))%Q) docs.
Proof.
  intros Hq Hfield Hrank Hall. unfold reply_ranked in Hrank. rewrite Hq, Hfield in Hrank.
  inversion Hrank as [|q hits qs rs [Hsorted Hdist] Hrest]; subst.
  inversion Hrest; subst. simpl in Hall. rewrite app_nil_r in Hall.
  apply (Forall2_Forall_l _ _ _ _ Hall) in Hdist.
  eapply Sorted_Forall2; [|exact Hdist|exact Hsorted].
  intros a b a' b' [Ha Hda] [Hb Hdb] Hab. simpl in Hda, Hdb.
  apply hit_doc_ok in Ha, Hb.
  destruct Ha as (sa & _ & _ & ->). destruct Hb as (sb & _ & _ & ->). simpl.
  rewrite <- Hda, <- Hdb. exact Hab.
Qed.

(** C7: when the store ranks its hits by ascending distance to the query
    vector, the records [search_docs] returns come in that order: under the
    metric, the embedding of each record is at least as close to the query
    vector as the embedding of the next. *)
Theorem search_docs_ranked (metric : list F -> list F -> Q) (s : State F W)
    (v : list F) (f : option string) (lim : Z) :
  v <> [] ->
  (forall collection results,
     sess (self s) = Some collection ->
     Collection_search collection (search_kwargs (self s) (Some v) f lim) (server s)
       = Ok results ->
     reply_ranked metric (search_kwargs (self s) (Some v) f lim) results) ->
  forall docs s',
    search_docs (Some v) f lim s = (Ok docs, s') ->
    Sorted (fun d1 d2 => (metric v (vector_of (doc_embedding d1))
                          <= metric v (vector_of (doc_embedding d2)))%Q) docs.
Proof.
  intros Hv Hrank docs s' Hok.
  destruct (search_docs_ok _ _ _ _ _ _ Hok) as (collection & results & Hs & Hr & Hall).
  apply (ranked_reply_sorted metric (search_kwargs (self s) (Some v) f lim) v results).
  - apply queries_of_vector. exact Hv.
  - reflexivity.
  - exact (Hrank collection results Hs Hr).
  - exact Hall.
Qed.


End ClientTheory.

(** ** The client on the reference store *)

Section RefStoreTheory.

Context {F : Type} `{JsonCodec} `{RefStore.Metric F} `{RefStore.Expressions F}.

Lemma project_sound (outs : list string) (r : gmap string (value F)) (k : string)
    (v : value F) :
  RefStore.project outs r !! k = Some v -> r !! k = Some v.
Proof.
  unfold RefStore.project. induction outs as [|a outs IH]; simpl.
  - rewrite lookup_empty. discriminate.
  - destruct (r !! a) as [va|] eqn:Ha; simpl; [|exact IH].
    destruct (decide (a = k)) as [->|Hne].
    + rewrite lookup_insert_eq. congruence.
    + rewrite lookup_insert_ne by exact Hne. exact IH.
Qed.

Lemma project_complete (outs : list string) (r : gmap string (value F)) (k : string)
    (v : value F) :
  In k outs -> r !! k = Some v -> RefStore.project outs r !! k = Some v.
Proof.
  unfold RefStore.project. induction outs as [|a outs IH]; simpl; [tauto|].
  intros Hin Hk. destruct (decide (a = k)) as [->|Hne].
  - rewrite Hk. simpl. apply lookup_insert_eq.
  - destruct Hin as [Heq|Hin]; [congruence|].
    destruct (r !! a); simpl; [rewrite lookup_insert_ne by exact Hne|]; auto.
Qed.

(** A hit shows the requested fields of its row. *)
Lemma entity_get_mk_hit (q : list F) (field : string) (outs : list string)
    (r : gmap string (value F)) (k : string) :
  In k outs -> entity_get (RefStore.mk_hit q field outs r) k = row_value r k.
Proof.
  intros Hin. unfold entity_get, row_value. simpl.
  destruct (r !! k) as [v|] eqn:Hk.
  - rewrite (project_complete outs r k v Hin Hk). reflexivity.
  - destruct (RefStore.project outs r !! k) as [v|] eqn:Hp; [|reflexivity].
    apply project_sound in Hp. congruence.
Qed.

Lemma hit_doc_mk_hit (q : list F) (field : string) (r : gmap string (value F)) :
  hit_doc (RefStore.mk_hit q field output_fields r) =
    match loads_value (row_value r "headers") with
    | Ok headers =>
        Ok {| doc_user_id := row_value r "user_id";
              doc_kb_id := row_value r "kb_id";
              doc_file_id := row_value r "file_id";
              doc_headers := headers;
              doc_doc_id := row_value r "doc_id";
              doc_content := row_value r "content";
              doc_embedding := row_value r "embedding" |}
    | Raise e => Raise e
    end.
Proof.
  unfold hit_doc. rewrite !entity_get_mk_hit by (simpl; tauto). reflexivity.
Qed.

(** On the reference store, loading a name the store does not have leaves a
    collection with the client's schema, the index on the embedding field, no
    rows, and loaded; loading a name it has, with an index, leaves the
    collection as it was, loaded. *)
Lemma load_collection_on_reference_store
    (s : State F (gmap string (RefStore.Coll F))) (user_id : string) :
  (server s !! user_id = None ->
   exists s',
     load_collection_ user_id s = (Ok tt, s') /\
     sess (self s') = Some user_id /\
     server s' !! user_id =
       Some {| RefStore.c_schema := fields;
               RefStore.c_index := Some ("embedding", create_params (self s));
               RefStore.c_loaded := true;
               RefStore.c_rows := [];
               RefStore.c_next_id := 1 |}) /\
  (forall c ix,
     server s !! user_id = Some c ->
     RefStore.c_index c = Some ix ->
     exists s',
       load_collection_ user_id s = (Ok tt, s') /\
       sess (self s') = Some user_id /\
       server s' !! user_id =
         Some {| RefStore.c_schema := RefStore.c_schema c;
                 RefStore.c_index := RefStore.c_index c;
                 RefStore.c_loaded := true;
                 RefStore.c_rows := RefStore.c_rows c;
                 RefStore.c_next_id := RefStore.c_next_id c |}).
Proof.
  split.
  - intros Hnone. rewrite load_collection_steps. simpl.
    unfold RefStore.has_collection, RefStore.create. rewrite Hnone.
    unfold RefStore.create_index. rewrite lookup_insert_eq.
    change (RefStore.vector_dim "embedding" _) with (Some 768). cbn iota.
    unfold RefStore.load. rewrite lookup_insert_eq. cbn [RefStore.c_index].
    eexists. split; [reflexivity|]. split; [reflexivity|].
    simpl. rewrite lookup_insert_eq. reflexivity.
  - intros c ix Hc Hix. rewrite load_collection_steps. simpl.
    unfold RefStore.has_collection, RefStore.open. rewrite Hc.
    unfold RefStore.load. rewrite Hc, Hix.
    eexists. split; [reflexivity|]. split; [reflexivity|].
    simpl. rewrite lookup_insert_eq. reflexivity.
Qed.

(** The row the store makes of the seven values of a document. *)
Lemma mk_row_values (id : Z) (a b c d e f g : value F) :
  row_value (RefStore.mk_row fields id [a; b; c; d; e; f; g]) "user_id" = a /\
  row_value (RefStore.mk_row fields id [a; b; c; d; e; f; g]) "kb_id" = b /\
  row_value (RefStore.mk_row fields id [a; b; c; d; e; f; g]) "file_id" = c /\
  row_value (RefStore.mk_row fields id [a; b; c; d; e; f; g]) "headers" = d /\
  row_value (RefStore.mk_row fields id [a; b; c; d; e; f; g]) "doc_id" = e /\
  row_value (RefStore.mk_row fields id [a; b; c; d; e; f; g]) "content" = f /\
  row_value (RefStore.mk_row fields id [a; b; c; d; e; f; g]) "embedding" = g /\
  RefStore.mk_row fields id [a; b; c; d; e; f; g] !! "user_id" = Some a.
Proof. repeat split; reflexivity. Qed.

(** Inserting one row of seven conforming values appends it. *)
Lemma insert_document (w : gmap string (RefStore.Coll F)) (collection : string)
    (c : RefStore.Coll F) (a b c1 d e f g : value F) :
  w !! collection = Some c ->
  RefStore.c_schema c = fields ->
  RefStore.conform_all (RefStore.insert_fields fields) [a; b; c1; d; e; f; g] = true ->
  Collection_insert collection [[a]; [b]; [c1]; [d]; [e]; [f]; [g]] w =
    Ok (<[collection :=
            {| RefStore.c_schema := RefStore.c_schema c;
               RefStore.c_index := RefStore.c_index c;
               RefStore.c_loaded := RefStore.c_loaded c;
               RefStore.c_rows :=
                 RefStore.c_rows c ++
                 [RefStore.mk_row fields (RefStore.c_next_id c) [a; b; c1; d; e; f; g]];
               RefStore.c_next_id := RefStore.c_next_id c + 1 |}]> w).
Proof.
  intros Hw Hs Hc. simpl. unfold RefStore.insert_rows. rewrite Hw.
  cbn [length hd tl map RefStore.rows_of_columns forallb Nat.eqb andb negb].
  rewrite Hs, Hc. reflexivity.
Qed.

(** A search of a loaded collection with one query vector of the schema's
    dimension, the L2 metric, a limit in range and a well-formed expression. *)
Lemma search_loaded_collection (w : gmap string (RefStore.Coll F)) (collection : string)
    (c : RefStore.Coll F) (kw : SearchKwargs F) (v : list F)
    (p : gmap string (value F) -> bool) :
  w !! collection = Some c ->
  RefStore.c_loaded c = true ->
  RefStore.c_schema c = fields ->
  data kw = Some [v] ->
  anns_field kw = "embedding" ->
  length v = 768%nat ->
  sp_metric_type (param kw) = "L2" ->
  1 <= limit kw <= 16384 ->
  RefStore.compile_expr (expr kw) = Some p ->
  Collection_search collection kw w = Ok [RefStore.top_hits kw p (RefStore.c_rows c) v].
Proof.
  intros Hw Hl Hs Hd Ha Hv Hm Hlim Hp. simpl. unfold RefStore.search_rows.
  rewrite Hw, Hl, Hd, Ha, Hs, Hm, Hp. simpl. rewrite Hv. simpl.
  destruct Hlim as [Hlo Hhi].
  apply Z.leb_le in Hlo, Hhi. rewrite Hlo, Hhi. reflexivity.
Qed.

Lemma Forall2_In_l {A B : Type} (P : A -> B -> Prop) (l : list A) (l' : list B) (a : A) :
  Forall2 P l l' -> In a l -> exists b, In b l' /\ P a b.
Proof.
  induction 1 as [|x y l l' Hxy Hall IH]; intros Hin; [destruct Hin|].
  destruct Hin as [<- | Hin].
  - exists y. split; [left; reflexivity | exact Hxy].
  - destruct (IH Hin) as (b & Hb & Hab). exists b. split; [right|]; assumption.
Qed.

(** When the record of every hit can be built, the loops build them all. *)
Lemma for_hits_total (results : list (list (Hit F))) :
  Forall (fun hit => exists d, hit_doc hit = Ok d) (concat results) ->
  exists docs,
    for_hits results [] = Ok docs /\
    Forall2 (fun hit d => hit_doc hit = Ok d) (concat results) docs.
Proof.
  intros Hall. pose proof (for_hits_spec results []) as Hspec.
  destruct (for_hits results []) as [docs|e].
  - destruct Hspec as (ds & -> & Hds). exists ds. split; [reflexivity | exact Hds].
  - destruct Hspec as (h & Hin & Hh). rewrite List.Forall_forall in Hall.
    destruct (Hall h Hin) as (d & Hd). congruence.
Qed.

(** A readable row gives a hit whose record can be built. *)
Lemma readable_hit (q : list F) (field : string) (r : gmap string (value F)) :
  readable r -> exists d, hit_doc (RefStore.mk_hit q field output_fields r) = Ok d.
Proof.
  intros [j Hj]. rewrite hit_doc_mk_hit, Hj. eexists. reflexivity.
Qed.

Lemma within_bounds_conforms (doc : Document) (e : list F) :
  ~ incomplete doc (Some e) ->
  within_bounds doc e ->
  RefStore.conform_all (RefStore.insert_fields fields) (document_values doc (Some e)) = true.
Proof.
  intros Hc (Hu & Hk & Hf & Hh & Hd & Hcn & He).
  destruct (complete_fields doc (Some e) Hc) as (u & k & f & d & e0 & Eu & Ek & Ef & Ed & Ee).
  unfold document_values. rewrite Eu, Ek, Ef, Ed in *. simpl in Hu, Hk, Hf, Hh, Hd, Hcn.
  apply Z.leb_le in Hu, Hk, Hf, Hh, Hd, Hcn.
  cbn -[Z.leb Z.eqb Z.of_nat String.length length].
  rewrite Hu, Hk, Hf, Hh, Hd, Hcn, He. reflexivity.
Qed.

Lemma closer_total : Total (@RefStore.closer F).
Proof.
  intros h1 h2. unfold RefStore.closer.
  destruct (Qlt_le_dec (hit_distance h2) (hit_distance h1)) as [Hlt|Hle].
  - right. apply Is_true_true, Qle_bool_iff, Qlt_le_weak, Hlt.
  - left. apply Is_true_true, Qle_bool_iff, Hle.
Qed.

Lemma Sorted_take {A : Type} (R : A -> A -> Prop) (l : list A) (n : nat) :
  Sorted R l -> Sorted R (take n l).
Proof.
  intros Hs. revert n. induction Hs as [|a l Hs IH Hhd]; intros [|n]; simpl;
    try constructor.
  - apply IH.
  - destruct Hhd as [|b l Hab]; destruct n; simpl; constructor. exact Hab.
Qed.

Lemma Sorted_weaken {A : Type} (R R' : A -> A -> Prop) (l : list A) :
  (forall a b, R a b -> R' a b) -> Sorted R l -> Sorted R' l.
Proof.
  intros Himp. induction 1 as [|a l Hs IH Hhd]; constructor; [exact IH|].
  destruct Hhd; constructor. apply Himp. assumption.
Qed.

(** The hits of one query vector come in ascending order of distance, and the
    distance of each is that of its row's vector to the query. *)
Lemma top_hits_ranked (kw : SearchKwargs F) (p : gmap string (value F) -> bool)
    (rows : list (gmap string (value F))) (q : list F) :
  In (anns_field kw) (kw_output_fields kw) ->
  Sorted (fun h1 h2 => (hit_distance h1 <= hit_distance h2)%Q)
         (RefStore.top_hits kw p rows q) /\
  Forall (fun h => (hit_distance h
                    == RefStore.l2 q (vector_of (entity_get h (anns_field kw))))%Q)
         (RefStore.top_hits kw p rows q).
Proof.
  intros Hout. unfold RefStore.top_hits. split.
  - apply Sorted_take.
    eapply Sorted_weaken; [|apply (@Sorted_merge_sort _ RefStore.closer _ closer_total)].
    intros h1 h2 Hc. apply Qle_bool_iff, Is_true_true. exact Hc.
  - apply Forall_take.
    rewrite (merge_sort_Permutation RefStore.closer _).
    apply List.Forall_forall. intros h Hin. apply in_map_iff in Hin.
    destruct Hin as (r & <- & _). rewrite entity_get_mk_hit by exact Hout.
    cbn [hit_distance RefStore.mk_hit]. unfold row_value, RefStore.row_vector.
    destruct (r !! anns_field kw) as [[]|]; reflexivity.
Qed.

(** The reference store keeps to the limit. *)
Lemma search_rows_capped (w : gmap string (RefStore.Coll F)) (n : string)
    (kw : SearchKwargs F) (results : list (list (Hit F))) :
  Collection_search n kw w = Ok results -> reply_capped kw results.
Proof.
  simpl. unfold RefStore.search_rows, reply_capped, queries.
  destruct (w !! n) as [c|]; [|discriminate].
  destruct (negb (RefStore.c_loaded c)); [discriminate|].
  destruct (data kw) as [qs|]; [|discriminate].
  destruct (RefStore.vector_dim _ _) as [d|]; [|discriminate].
  destruct (negb (forallb _ qs)); [discriminate|].
  destruct (negb (String.eqb _ _)); [discriminate|].
  destruct ((1 <=? limit kw) && (limit kw <=? 16384)) eqn:Hlim; [|discriminate].
  destruct (RefStore.compile_expr (expr kw)) as [p|]; [|discriminate].
  simpl. intros [= <-].
  apply andb_true_iff in Hlim. destruct Hlim as [Hlo Hhi]. apply Z.leb_le in Hlo.
  split; [lia|]. split; [rewrite length_map; lia|].
  apply List.Forall_forall. intros hits Hin. apply in_map_iff in Hin.
  destruct Hin as (q & <- & _). unfold RefStore.top_hits. rewrite length_take. lia.
Qed.

(** The reference store ranks its hits. *)
Lemma search_rows_ranked (w : gmap string (RefStore.Coll F)) (n : string)
    (kw : SearchKwargs F) (results : list (list (Hit F))) :
  In (anns_field kw) (kw_output_fields kw) ->
  Collection_search n kw w = Ok results -> reply_ranked RefStore.l2 kw results.
Proof.
  intros Hout. simpl. unfold RefStore.search_rows, reply_ranked, queries.
  destruct (w !! n) as [c|]; [|discriminate].
  destruct (negb (RefStore.c_loaded c)); [discriminate|].
  destruct (data kw) as [qs|]; [|discriminate].
  destruct (RefStore.vector_dim _ _) as [d|]; [|discriminate].
  destruct (negb (forallb _ qs)); [discriminate|].
  destruct (negb (String.eqb _ _)); [discriminate|].
  destruct ((1 <=? limit kw) && (limit kw <=? 16384)); [|discriminate].
  destruct (RefStore.compile_expr (expr kw)) as [p|]; [|discriminate].
  simpl. intros [= <-].
  induction qs as [|q qs IH]; simpl; constructor; [|exact IH].
  apply top_hits_ranked. exact Hout.
Qed.

(** On the reference store the search path needs no assumption: a successful
    [search_docs] returns at most [doc_limit] records, in ascending order of
    distance to the query vector. *)
Lemma reference_search_at_most_limit (s s' : State F (gmap string (RefStore.Coll F)))
    (q : option (list F)) (f : option string) (lim : Z) (docs : list (RetrievedDoc F)) :
  search_docs q f lim s = (Ok docs, s') -> Z.of_nat (length docs) <= lim.
Proof.
  intros Hok.
  destruct (search_docs_ok _ _ _ _ _ _ Hok) as (collection & results & Hs & Hr & Hall).
  apply Forall2_lengths in Hall. rewrite <- Hall.
  apply (capped_reply_length (search_kwargs (self s) q f lim)).
  - apply queries_at_most_one.
  - exact (search_rows_capped _ _ _ _ Hr).
Qed.

Lemma reference_search_ranked (s s' : State F (gmap string (RefStore.Coll F)))
    (v : list F) (f : option string) (lim : Z) (docs : list (RetrievedDoc F)) :
  v <> [] ->
  search_docs (Some v) f lim s = (Ok docs, s') ->
  Sorted (fun d1 d2 => (RefStore.l2 v (vector_of (doc_embedding d1))
                        <= RefStore.l2 v (vector_of (doc_embedding d2)))%Q) docs.
Proof.
  intros Hv Hok.
  destruct (search_docs_ok _ _ _ _ _ _ Hok) as (collection & results & Hs & Hr & Hall).
  apply (ranked_reply_sorted RefStore.l2 (search_kwargs (self s) (Some v) f lim) v results).
  - apply queries_of_vector. exact Hv.
  - reflexivity.
  - apply (search_rows_ranked (server s) collection); [|exact Hr].
    simpl. repeat (first [left; reflexivity | right]).
  - exact Hall.
Qed.

(** The hits of a search that asks for more than there are matching rows:
    all of them, in some order. *)
Lemma top_hits_all (kw : SearchKwargs F) (p : gmap string (value F) -> bool)
    (rows : list (gmap string (value F))) (q : list F) :
  Z.of_nat (length (List.filter p rows)) <= limit kw ->
  Permutation (RefStore.top_hits kw p rows q)
    (map (RefStore.mk_hit q (anns_field kw) (kw_output_fields kw)) (List.filter p rows)).
Proof.
  intros Hlen. unfold RefStore.top_hits.
  rewrite take_ge.
  - apply merge_sort_Permutation.
  - rewrite (Permutation_length (merge_sort_Permutation _ _)), length_map. lia.
Qed.

(** Rows the client stores stay readable: [store_doc] appends one row, whose
    headers are what [json.dumps] wrote. *)
Lemma store_doc_keeps_rows_readable
    (s s1 : State F (gmap string (RefStore.Coll F))) (collection : string)
    (c : RefStore.Coll F) (doc : Document) (embedding : option (list F)) (j : json) :
  sess (self s) = Some collection ->
  server s !! collection = Some c ->
  RefStore.c_schema c = fields ->
  Forall readable (RefStore.c_rows c) ->
  json_loads (json_dumps (JObject (headers_of doc))) = Ok j ->
  store_doc doc embedding s = (Ok tt, s1) ->
  exists c1,
    server s1 !! collection = Some c1 /\
    length (RefStore.c_rows c1) = S (length (RefStore.c_rows c)) /\
    Forall readable (RefStore.c_rows c1).
Proof.
  intros Hs Hw Hsch Hread Hj. rewrite (store_doc_loaded s collection) by exact Hs.
  destruct (all (validated doc embedding)); [|discriminate]. cbv zeta.
  change (match md_headers (metadata doc) with Some h => h | None => [] end)
    with (headers_of doc).
  simpl Collection_insert. unfold RefStore.insert_rows. rewrite Hw.
  cbn [length hd tl map RefStore.rows_of_columns forallb Nat.eqb andb negb].
  rewrite Hsch. destruct (RefStore.conform_all _ _); [|discriminate].
  cbn [andb RefStore.mk_rows]. intros [= <-]. cbn [server].
  rewrite lookup_insert_eq. eexists. split; [reflexivity|]. cbn [RefStore.c_rows]. split.
  - rewrite length_app. simpl. lia.
  - apply Forall_app. split; [exact Hread|]. constructor; [|constructor].
    exists j. unfold readable.
    rewrite (proj1 (proj2 (proj2 (proj2 (mk_row_values _ _ _ _ _ _ _ _))))).
    exact Hj.
Qed.

Lemma readable_headers (q : list F) (field : string) (r : gmap string (value F)) :
  readable r -> headers_readable (RefStore.mk_hit q field output_fields r).
Proof.
  intros [j Hj]. unfold headers_readable.
  rewrite (entity_get_mk_hit q field output_fields r "headers")
    by (simpl; repeat (first [left; reflexivity | right])).
  unfold loads_value in Hj. destruct (row_value r "headers") as [| |text|]; try discriminate.
  exists text, j. split; [reflexivity | exact Hj].
Qed.

(** The store's part of the round trip, on the reference store: for a loaded
    collection with the client's schema and a complete document within the
    sizes of the schema (counted in bytes), the insert of its columns is
    accepted, and a search with a query vector of the schema's dimension, a
    filter that matches the document's user_id and a limit above the number of
    rows the filter matched before is answered with hits whose headers
    [json.loads] reads, one of which shows the row as it was inserted. *)
Lemma reference_store_shows_row
    (s : State F (gmap string (RefStore.Coll F))) (collection : string)
    (c : RefStore.Coll F) (doc : Document) (e v : list F) (flt : string)
    (p : gmap string (value F) -> bool) (lim : Z) (j : json) :
  server s !! collection = Some c ->
  RefStore.c_schema c = fields ->
  RefStore.c_loaded c = true ->
  ~ incomplete doc (Some e) ->
  within_bounds doc e ->
  json_loads (json_dumps (JObject (headers_of doc))) = Ok j ->
  length v = 768%nat ->
  flt <> EmptyString ->
  RefStore.parse_expr flt = Some p ->
  (forall r, r !! "user_id" = Some (get_str (md_user_id (metadata doc))) -> p r = true) ->
  Forall readable (List.filter p (RefStore.c_rows c)) ->
  1 <= lim <= 16384 ->
  Z.of_nat (length (List.filter p (RefStore.c_rows c))) < lim ->
  exists w1 results hit,
    Collection_insert collection (columns doc (Some e)) (server s) = Ok w1 /\
    Collection_search collection (search_kwargs (self s) (Some v) (Some flt) lim) w1
      = Ok results /\
    Forall headers_readable (concat results) /\
    In hit (concat results) /\
    shows (fun x => x) (columns doc (Some e)) hit.
Proof.
  intros Hw Hsch Hld Hc Hb Hround Hv Hflt Hp Hmatch Hread Hlim Hcount.
  pose proof (within_bounds_conforms doc e Hc Hb) as Hconf.
  unfold document_values in Hconf.
  pose proof (mk_row_values (RefStore.c_next_id c)
                (get_str (md_user_id (metadata doc))) (get_str (md_kb_id (metadata doc)))
                (get_str (md_file_id (metadata doc)))
                (VStr (json_dumps (JObject (headers_of doc))))
                (get_str (md_doc_id (metadata doc))) (VStr (page_content doc))
                (vec_value (Some e)))
    as (Ruser & Rkb & Rfile & Rheaders & Rdoc & Rcontent & Remb & Rlookup).
  set (row := RefStore.mk_row fields (RefStore.c_next_id c) _) in *.
  set (c' := {| RefStore.c_schema := RefStore.c_schema c;
                RefStore.c_index := RefStore.c_index c;
                RefStore.c_loaded := RefStore.c_loaded c;
                RefStore.c_rows := RefStore.c_rows c ++ [row];
                RefStore.c_next_id := RefStore.c_next_id c + 1 |}).
  set (w1 := <[collection := c']> (server s)).
  set (kw := search_kwargs (self s) (Some v) (Some flt) lim).
  assert (Hvne : v <> []) by (intros ->; discriminate Hv).
  assert (Hexpr : RefStore.compile_expr (expr kw) = Some p).
  { unfold kw, RefStore.compile_expr. simpl.
    destruct (String.eqb flt EmptyString) eqn:Heq.
    - apply String.eqb_eq in Heq. contradiction.
    - simpl. rewrite Heq. exact Hp. }
  assert (Hsearch : Collection_search collection kw w1
                    = Ok [RefStore.top_hits kw p (RefStore.c_rows c') v]).
  { apply search_loaded_collection; try assumption; try reflexivity.
    - apply lookup_insert_eq.
    - unfold kw. simpl. destruct v; [contradiction | reflexivity]. }
  assert (Hprow : p row = true) by (apply Hmatch; exact Rlookup).
  assert (Hfilter : List.filter p (RefStore.c_rows c')
                    = List.filter p (RefStore.c_rows c) ++ [row]).
  { simpl. rewrite List.filter_app. simpl. rewrite Hprow. reflexivity. }
  assert (Hperm : Permutation (RefStore.top_hits kw p (RefStore.c_rows c') v)
                    (map (RefStore.mk_hit v "embedding" output_fields)
                         (List.filter p (RefStore.c_rows c) ++ [row]))).
  { rewrite <- Hfilter. apply (top_hits_all kw). rewrite Hfilter, length_app. simpl.
    change (limit kw) with lim. lia. }
  assert (Hrow_readable : readable row).
  { exists j. rewrite Rheaders. exact Hround. }
  exists w1, [RefStore.top_hits kw p (RefStore.c_rows c') v],
         (RefStore.mk_hit v "embedding" output_fields row).
  split.
  { unfold columns, document_values. cbn [map].
    exact (insert_document (server s) collection c _ _ _ _ _ _ _ Hw Hsch Hconf). }
  split; [exact Hsearch|].
  simpl. rewrite app_nil_r. split; [|split].
  - apply List.Forall_forall. intros hit Hin.
    apply (Permutation_in _ Hperm) in Hin. apply in_map_iff in Hin.
    destruct Hin as (r & <- & Hr). apply readable_headers.
    apply in_app_or in Hr. destruct Hr as [Hr | [<- | []]]; [|exact Hrow_readable].
    rewrite List.Forall_forall in Hread. apply Hread. exact Hr.
  - apply (Permutation_in _ (Permutation_sym Hperm)). apply in_map.
    apply in_or_app. right. left. reflexivity.
  - assert (Hget : forall k, In k output_fields ->
                   entity_get (RefStore.mk_hit v "embedding" output_fields row) k
                   = row_value row k)
      by (intros k Hk; apply entity_get_mk_hit; exact Hk).
    destruct (complete_fields doc (Some e) Hc)
      as (u & k & f & d & e' & Eu & Ek & Ef & Ed & _).
    unfold shows, columns, document_values. simpl.
    rewrite Eu, Ek, Ef, Ed in *. simpl in *.
    repeat (constructor;
            [rewrite Hget by (simpl; repeat (first [left; reflexivity | right]));
             assumption|]).
    constructor.
Qed.

End RefStoreTheory.

(** ** The sample codec

    [loads] reads back what [dumps] writes, for every value of plain text:
    the contract of the [json] module that the round trip through the store
    rests on. *)

Section SampleCodec.

Import Sample.

(** Plain text is read up to its closing quote. *)
Lemma read_text_plain (s : string) (rest : list ascii) :
  plain_text s = true ->
  read_text (list_ascii_of_string s ++ dquote :: rest) = Some (s, rest).
Proof.
  unfold plain_text. induction s as [|c s IH]; simpl; intros Hp.
  - reflexivity.
  - apply andb_true_iff in Hp. destruct Hp as [Hc Hs].
    apply andb_true_iff in Hc. destruct Hc as [Hq Hb].
    apply negb_true_iff in Hq, Hb. rewrite Hq, Hb, (IH Hs). reflexivity.
Qed.

(** The first character of a written value: no blank and no closing bracket. *)
Lemma chars_open (j : json) :
  text_only j = true ->
  exists c tl,
    chars j = c :: tl /\ Ascii.eqb c " " = false /\
    Ascii.eqb c "]" = false /\ Ascii.eqb c "}" = false.
Proof.
  destruct j as [|[|]|z|s|l|m]; simpl; intros Ht; try discriminate;
    eexists _, _; (split; [reflexivity|]); repeat split.
Qed.

(** The readers skip a leading blank. *)
Lemma read_value_blank (n : nat) (l : list ascii) :
  read_value n (" "%char :: l) = read_value n l.
Proof. destruct n; reflexivity. Qed.

Lemma read_members_blank (n : nat) (l : list ascii) (acc : list (string * json)) :
  read_members n (" "%char :: l) acc = read_members n l acc.
Proof. destruct n; reflexivity. Qed.

Lemma read_items_blank (n : nat) (l : list ascii) (acc : list json) :
  read_items n (" "%char :: l) acc = read_items n l acc.
Proof. destruct n; [reflexivity|]. simpl. rewrite read_value_blank. reflexivity. Qed.

(** What follows the first part of a separated sequence. *)
Lemma separated_cons_app (p : list ascii) (ps : list (list ascii)) (r : list ascii) :
  separated (p :: ps) ++ r =
    p ++ match ps with
         | [] => r
         | _ :: _ => ","%char :: " "%char :: (separated ps ++ r)
         end.
Proof. destruct ps; simpl; [reflexivity|]. rewrite <- app_assoc. reflexivity. Qed.

(** With fuel above its weight, a written value is read back, and so are the
    items of an array up to its bracket and the members of an object up to its
    brace, whatever follows. *)
Lemma read_all (n : nat) :
  (forall j rest,
     (weight j < n)%nat -> text_only j = true ->
     read_value n (chars j ++ rest) = Some (j, rest)) /\
  (forall x items acc rest,
     (items_weight (x :: items) < n)%nat -> forallb text_only (x :: items) = true ->
     read_items n (separated (map chars (x :: items)) ++ "]"%char :: rest) acc
       = Some (JArray (acc ++ x :: items), rest)) /\
  (forall kv members acc rest,
     (members_weight (kv :: members) < n)%nat -> forallb member_ok (kv :: members) = true ->
     read_members n (separated (map member_chars (kv :: members)) ++ "}"%char :: rest) acc
       = Some (JObject (acc ++ kv :: members), rest)).
Proof.
  induction n as [|n (IHv & IHi & IHm)].
  - repeat split; intros; lia.
  - split; [|split].
    + intros j rest Hw Ht. destruct j as [|[|]|z|s|l|m]; try discriminate Ht.
      * reflexivity.
      * reflexivity.
      * reflexivity.
      * simpl in Ht. cbn -[read_text]. unfold quoted.
        rewrite <- app_assoc. cbn [app].
        rewrite (read_text_plain s rest Ht). reflexivity.
      * destruct l as [|x l]; [reflexivity|].
        change (chars (JArray (x :: l)) ++ rest)
          with ("["%char :: (separated (map chars (x :: l)) ++ ["]"%char]) ++ rest).
        rewrite <- app_assoc. cbn [app].
        assert (Hx : text_only x = true).
        { simpl in Ht. apply andb_true_iff in Ht. tauto. }
        destruct (chars_open x Hx) as (c & tl & Hc & Hb & Hk & _).
        cbn [read_value skip_blanks Ascii.eqb Bool.eqb].
        assert (Hhead : exists tl', separated (map chars (x :: l)) ++ "]"%char :: rest
                                    = c :: tl').
        { cbn [map]. rewrite separated_cons_app, Hc. eexists. reflexivity. }
        destruct Hhead as (tl' & Hhead). rewrite Hhead. cbn [skip_blanks].
        rewrite Hb, Hk, <- Hhead. apply (IHi x l []); [|exact Ht].
        simpl in Hw. unfold items_weight. simpl. lia.
      * destruct m as [|kv m]; [reflexivity|].
        change (chars (JObject (kv :: m)) ++ rest)
          with ("{"%char :: (separated (map member_chars (kv :: m)) ++ ["}"%char]) ++ rest).
        rewrite <- app_assoc. cbn [app].
        cbn [read_value skip_blanks Ascii.eqb Bool.eqb].
        assert (Hhead : exists tl', separated (map member_chars (kv :: m)) ++ "}"%char :: rest
                                    = dquote :: tl').
        { cbn [map]. rewrite separated_cons_app. unfold member_chars at 1, quoted.
          cbn [app]. eexists. reflexivity. }
        destruct Hhead as (tl' & Hhead). rewrite Hhead.
        cbn [skip_blanks Ascii.eqb Bool.eqb dquote].
        change ("034"%char) with dquote. rewrite <- Hhead.
        apply (IHm kv m []); [|exact Ht].
        simpl in Hw. unfold members_weight. simpl. lia.
    + intros x items acc rest Hw Ht. cbn [forallb] in Ht.
      apply andb_true_iff in Ht. destruct Ht as [Hx Hitems].
      unfold items_weight in Hw. cbn [fold_right] in Hw. fold (items_weight items) in Hw.
      cbn [read_items map]. rewrite separated_cons_app.
      rewrite (IHv x _ ltac:(lia) Hx).
      destruct items as [|y items].
      * cbn [skip_blanks Ascii.eqb Bool.eqb]. reflexivity.
      * cbn [map skip_blanks Ascii.eqb Bool.eqb].
        rewrite read_items_blank.
        change (chars y :: map chars items) with (map chars (y :: items)).
        rewrite (IHi y items (acc ++ [x]) rest ltac:(lia) Hitems).
        rewrite <- app_assoc. reflexivity.
    + intros [k v] members acc rest Hw Ht. cbn [forallb] in Ht.
      apply andb_true_iff in Ht. destruct Ht as [Hkv Hmembers].
      unfold member_ok in Hkv. cbn [fst snd] in Hkv.
      apply andb_true_iff in Hkv. destruct Hkv as [Hk Hv].
      unfold members_weight in Hw. cbn [fold_right snd] in Hw.
      fold (members_weight members) in Hw.
      cbn [map]. rewrite separated_cons_app.
      unfold member_chars at 1, quoted. cbn [fst snd].
      rewrite <- !app_assoc. cbn [app read_members skip_blanks].
      change (Ascii.eqb dquote " ") with false. cbn iota.
      change (Ascii.eqb dquote dquote) with true. cbn iota.
      rewrite <- ?app_assoc. cbn [app].
      rewrite (read_text_plain k _ Hk).
      cbn [skip_blanks Ascii.eqb Bool.eqb]. rewrite read_value_blank.
      rewrite (IHv v _ ltac:(lia) Hv).
      destruct members as [|kv' members].
      * cbn [skip_blanks Ascii.eqb Bool.eqb]. reflexivity.
      * cbn [map skip_blanks Ascii.eqb Bool.eqb].
        rewrite read_members_blank.
        change (member_chars kv' :: map member_chars members)
          with (map member_chars (kv' :: members)).
        rewrite (IHm kv' members (acc ++ [(k, v)]) rest ltac:(lia) Hmembers).
        rewrite <- app_assoc. reflexivity.
Qed.

(** The text of a value is at least as long as the fuel it needs. *)
Lemma chars_weight (n : nat) (j : json) :
  (weight j < n)%nat -> text_only j = true -> (weight j <= length (chars j))%nat.
Proof.
  revert j. induction n as [|n IH]; intros j Hw Ht; [lia|].
  destruct j as [|[|]|z|s|l|m]; try discriminate Ht; try (simpl; lia).
  - assert (Hl : (items_weight l <= length (separated (map chars l)) + 1)%nat).
    { assert (Hwl : (items_weight l < n)%nat) by (simpl in Hw; unfold items_weight; lia).
      simpl in Ht. clear Hw. induction l as [|x l IHl]; [simpl; lia|].
      cbn [forallb] in Ht. apply andb_true_iff in Ht. destruct Ht as [Hx Hl].
      unfold items_weight in *. cbn [fold_right] in *.
      specialize (IH x ltac:(lia) Hx). specialize (IHl Hl ltac:(lia)).
      cbn [map]. destruct l as [|y l]; simpl in *; [lia|].
      rewrite length_app. simpl. lia. }
    simpl. rewrite length_app. simpl. unfold items_weight in Hl. lia.
  - assert (Hm : (members_weight m <= length (separated (map member_chars m)) + 1)%nat).
    { assert (Hwm : (members_weight m < n)%nat)
        by (simpl in Hw; unfold members_weight; lia).
      simpl in Ht. clear Hw. induction m as [|[k v] m IHm]; [simpl; lia|].
      cbn [forallb fst snd] in Ht. apply andb_true_iff in Ht. destruct Ht as [Hkv Hm].
      apply andb_true_iff in Hkv. destruct Hkv as [_ Hv].
      unfold members_weight in *. cbn [fold_right snd] in *.
      specialize (IH v ltac:(lia) Hv). specialize (IHm Hm ltac:(lia)).
      assert (Hlen : (weight v <= length (member_chars (k, v)))%nat).
      { unfold member_chars, quoted. cbn [fst snd]. rewrite !length_app. simpl.
        rewrite !length_app. simpl. lia. }
      cbn [map]. destruct m as [|kv' m]; [simpl in *; lia|].
      cbn [separated map]. cbn [separated map] in IHm.
      rewrite length_app. cbn [length]. lia. }
    change (chars (JObject m))
      with ("{"%char :: separated (map member_chars m) ++ ["}"%char]).
    simpl. rewrite length_app. simpl. unfold members_weight in Hm. lia.
Qed.

(** The sample codec reads back what it writes, on values of plain text. *)
Theorem sample_loads_dumps (j : json) :
  text_only j = true -> loads (dumps j) = Ok j.
Proof.
  intros Ht. unfold loads, dumps. rewrite list_ascii_of_string_of_list_ascii.
  pose proof (chars_weight (S (weight j)) j ltac:(lia) Ht) as Hw.
  destruct (read_all (S (length (chars j)))) as (Hv & _ & _).
  specialize (Hv j [] ltac:(lia) Ht). rewrite app_nil_r in Hv. rewrite Hv.
  reflexivity.
Qed.

End SampleCodec.

(** ** Outcomes, failures and runs, against any store *)

Section ClientProtocol.

Context {F : Type} `{JsonCodec} {W : Type} `{Milvus F W}.

Lemma columns_rows (doc : Document) (embedding : option (list F)) :
  columns doc embedding =
    [[get_str (md_user_id (metadata doc))];
     [get_str (md_kb_id (metadata doc))];
     [get_str (md_file_id (metadata doc))];
     [VStr (json_dumps (JObject (match md_headers (metadata doc) with
                                 | Some h => h
                                 | None => []
                                 end)))];
     [get_str (md_doc_id (metadata doc))];
     [VStr (page_content doc)];
     [vec_value embedding]].
Proof. reflexivity. Qed.

(** [store_doc] on a loaded client, in the vocabulary of the protocol. *)
Lemma store_doc_attached (s : State F W) (collection : string) (doc : Document)
    (embedding : option (list F)) :
  sess (self s) = Some collection ->
  store_doc doc embedding s =
    if all (validated doc embedding) then
      match Collection_insert collection (columns doc embedding) (server s) with
      | Ok w =>
          (Ok tt, {| self := self s; server := w;
                     issued := issued s ++ [CInsert collection (columns doc embedding)] |})
      | Raise e =>
          (Raise (MilvusFailed ("Failed to store document: " +:+ str e)),
           logged (CInsert collection (columns doc embedding)) s)
      end
    else (Raise ValidationError, s).
Proof.
  intros Hs. rewrite (store_doc_loaded s collection) by exact Hs. rewrite columns_rows.
  reflexivity.
Qed.

(** X1: [store_doc] returns normally exactly when the client holds a
    collection, none of the six required values is empty or absent, and the
    insert of the store succeeds; the state is then that of the store after
    this one insert, which is the one call issued. *)
Theorem store_doc_succeeds_iff (s s' : State F W) (doc : Document)
    (embedding : option (list F)) :
  store_doc doc embedding s = (Ok tt, s') <->
  exists collection w,
    sess (self s) = Some collection /\
    ~ incomplete doc embedding /\
    Collection_insert collection (columns doc embedding) (server s) = Ok w /\
    s' = {| self := self s; server := w;
            issued := issued s ++ [CInsert collection (columns doc embedding)] |}.
Proof.
  split.
  - destruct (sess (self s)) as [collection|] eqn:Hs.
    + rewrite (store_doc_attached s collection) by exact Hs.
      destruct (all (validated doc embedding)) eqn:Hv; [|discriminate].
      destruct (Collection_insert _ _ _) as [w|e] eqn:Hi; [|discriminate].
      intros [= <-]. exists collection, w. repeat split; try assumption.
      apply validation_passes_iff. exact Hv.
    + rewrite store_doc_unloaded by exact Hs. discriminate.
  - intros (collection & w & Hs & Hc & Hi & ->).
    rewrite (store_doc_attached s collection) by exact Hs.
    apply validation_passes_iff in Hc. rewrite Hc, Hi. reflexivity.
Qed.

(** X2: every failure of [store_doc] is a [MilvusFailed] whose message is
    the fixed prefix followed by its cause: the client holds no collection, a
    required value is empty or absent (in both cases nothing is sent to the
    store), or the insert raised, and then the cause is the text of the
    store's exception. *)
Theorem store_doc_failure_causes (s s' : State F W) (doc : Document)
    (embedding : option (list F)) (e : exn) :
  store_doc doc embedding s = (Raise e, s') ->
  exists cause,
    e = MilvusFailed ("Failed to store document: " +:+ cause) /\
    ((cause = not_loaded_message /\ sess (self s) = None /\ s' = s) \/
     (cause = missing_fields_message /\ sess (self s) <> None /\
      incomplete doc embedding /\ s' = s) \/
     (exists collection e0,
        sess (self s) = Some collection /\
        ~ incomplete doc embedding /\
        Collection_insert collection (columns doc embedding) (server s) = Raise e0 /\
        cause = str e0 /\
        s' = logged (CInsert collection (columns doc embedding)) s)).
Proof.
  destruct (sess (self s)) as [collection|] eqn:Hs.
  - rewrite (store_doc_attached s collection) by exact Hs.
    destruct (all (validated doc embedding)) eqn:Hv.
    + destruct (Collection_insert _ _ _) as [w|e0] eqn:Hi; [discriminate|].
      intros [= <- <-]. exists (str e0). split; [reflexivity|]. right. right.
      exists collection, e0. repeat split; try reflexivity; try assumption.
      apply validation_passes_iff. exact Hv.
    + intros [= <- <-]. exists missing_fields_message. split; [reflexivity|].
      right. left. repeat split; try congruence.
      apply validation_fails_iff. exact Hv.
  - rewrite store_doc_unloaded by exact Hs. intros [= <- <-].
    exists not_loaded_message. split; [reflexivity|]. left. repeat split.
Qed.

Lemma hit_doc_readable (hit : Hit F) :
  (exists d, hit_doc hit = Ok d) <-> headers_readable hit.
Proof.
  unfold headers_readable, hit_doc, loads_value. split.
  - intros [d Hd]. destruct (entity_get hit "headers") as [| |text|]; try discriminate.
    destruct (json_loads text) as [j|e] eqn:Hj; [|discriminate].
    exists text, j. split; [reflexivity | exact Hj].
  - intros (text & j & -> & ->). eexists. reflexivity.
Qed.

Lemma for_hits_readable (results : list (list (Hit F))) :
  (exists docs, for_hits results [] = Ok docs) <-> Forall headers_readable (concat results).
Proof.
  split.
  - intros [docs Hd]. apply for_hits_ok in Hd.
    induction Hd as [|h d hs ds Hh _ IH]; constructor; [|exact IH].
    apply hit_doc_readable. exists d. exact Hh.
  - intros Hall. pose proof (for_hits_spec results []) as Hs.
    destruct (for_hits results []) as [docs|e]; [exists docs; reflexivity|].
    destruct Hs as (h & Hin & Hr).
    pose proof (proj1 (List.Forall_forall _ _) Hall h Hin) as Hrd.
    apply hit_doc_readable in Hrd. destruct Hrd as [d Hd]. congruence.
Qed.

Lemma shows_document (kept : list F -> list F) (doc : Document) (e : list F)
    (hit : Hit F) :
  ~ incomplete doc (Some e) ->
  shows kept (columns doc (Some e)) hit ->
  entity_get hit "user_id" = get_str (md_user_id (metadata doc)) /\
  entity_get hit "kb_id" = get_str (md_kb_id (metadata doc)) /\
  entity_get hit "file_id" = get_str (md_file_id (metadata doc)) /\
  entity_get hit "headers" = VStr (json_dumps (JObject (headers_of doc))) /\
  entity_get hit "doc_id" = get_str (md_doc_id (metadata doc)) /\
  entity_get hit "content" = VStr (page_content doc) /\
  entity_get hit "embedding" = VVec (kept e).
Proof.
  intros Hc Hshows.
  destruct (complete_fields doc (Some e) Hc) as (u & k & f & d & e' & Eu & Ek & Ef & Ed & _).
  unfold shows, columns, document_values in Hshows. simpl in Hshows.
  rewrite Eu, Ek, Ef, Ed in *. simpl in Hshows.
  repeat match goal with
         | Hx : Forall2 _ (_ :: _) (_ :: _) |- _ =>
             let Hh := fresh "Hh" in let Ht := fresh "Ht" in
             apply Forall2_cons_1 in Hx; destruct Hx as [Hh Ht]
         end.
  simpl. repeat split; assumption.
Qed.

(** C1 (amended): [store_doc] of a document whose required fields are all
    non-empty, on a store that accepts the insert, issues that insert with the
    values of the document as they are, the headers serialized by
    [json.dumps]; and a [search_docs] that follows returns, for a hit of the
    reply that shows the inserted row, a record whose user_id, kb_id, file_id,
    doc_id and content equal the input, whose embedding is the input as the
    store keeps it, and whose headers are what [json.loads] reads from the
    serialized map: the record is the input, its headers the map they were,
    when the store keeps vectors as they are and [json.loads] inverts
    [json.dumps] on the map.  That the reply holds such a hit, and headers
    that [json.loads] reads in every hit, is the store's part (for the
    reference store: [reference_store_shows_row]). *)
Theorem store_then_search_round_trip (kept : list F -> list F) (s : State F W)
    (collection : string) (doc : Document) (e : list F) (w1 : W)
    (q : option (list F)) (f : option string) (lim : Z)
    (results : list (list (Hit F))) (hit : Hit F) :
  sess (self s) = Some collection ->
  ~ incomplete doc (Some e) ->
  Collection_insert collection (columns doc (Some e)) (server s) = Ok w1 ->
  Collection_search collection (search_kwargs (self s) q f lim) w1 = Ok results ->
  Forall headers_readable (concat results) ->
  In hit (concat results) ->
  shows kept (columns doc (Some e)) hit ->
  exists s1 s2 docs d,
    store_doc doc (Some e) s = (Ok tt, s1) /\
    issued s1 = issued s ++ [CInsert collection (columns doc (Some e))] /\
    search_docs q f lim s1 = (Ok docs, s2) /\
    In d docs /\
    doc_user_id d = get_str (md_user_id (metadata doc)) /\
    doc_kb_id d = get_str (md_kb_id (metadata doc)) /\
    doc_file_id d = get_str (md_file_id (metadata doc)) /\
    doc_doc_id d = get_str (md_doc_id (metadata doc)) /\
    doc_content d = VStr (page_content doc) /\
    doc_embedding d = VVec (kept e) /\
    json_loads (json_dumps (JObject (headers_of doc))) = Ok (doc_headers d) /\
    (kept e = e ->
     json_loads (json_dumps (JObject (headers_of doc))) = Ok (JObject (headers_of doc)) ->
     d = input_record doc (Some e)).
Proof.
  intros Hs Hc Hins Hsearch Hread Hin Hshows.
  destruct (shows_document kept doc e hit Hc Hshows)
    as (Su & Sk & Sf & Sh & Sd & St & Se).
  set (s1 := {| self := self s; server := w1;
                issued := issued s ++ [CInsert collection (columns doc (Some e))] |}).
  destruct (proj2 (for_hits_readable results) Hread) as [docs Hdocs].
  pose proof (for_hits_ok _ _ Hdocs) as Hall.
  destruct (Forall2_In_l _ _ _ _ Hall Hin) as (d & Hd & Hhit).
  exists s1, (logged (CSearch collection (search_kwargs (self s) q f lim)) s1), docs, d.
  split.
  { rewrite (store_doc_attached s collection) by exact Hs.
    apply validation_passes_iff in Hc. rewrite Hc, Hins. reflexivity. }
  split; [reflexivity|]. split.
  { rewrite (search_docs_loaded s1 collection) by exact Hs.
    change (self s1) with (self s). change (server s1) with w1.
    rewrite Hsearch, Hdocs. reflexivity. }
  split; [exact Hd|].
  destruct (hit_doc_ok hit d Hhit) as (stored & Hstored & Hloads & Hrec).
  rewrite Sh in Hstored. injection Hstored as <-.
  assert (Hfields :
            doc_user_id d = get_str (md_user_id (metadata doc)) /\
            doc_kb_id d = get_str (md_kb_id (metadata doc)) /\
            doc_file_id d = get_str (md_file_id (metadata doc)) /\
            doc_doc_id d = get_str (md_doc_id (metadata doc)) /\
            doc_content d = VStr (page_content doc) /\
            doc_embedding d = VVec (kept e)).
  { rewrite Hrec. unfold record_of. simpl. repeat split; assumption. }
  destruct Hfields as (Fu & Fk & Ff & Fd & Ft & Fe).
  repeat (split; [assumption|]).
  intros Hkept Hround. rewrite Hround in Hloads. injection Hloads as Hh.
  destruct d as [du dk df dh dd dt de]. simpl in *. subst.
  unfold input_record. simpl. rewrite Hkept. reflexivity.
Qed.

(** X3: [search_docs] returns a list exactly when the client holds a
    collection, the search of the store succeeds, and the headers of every
    hit are text that [json.loads] reads. *)
Theorem search_docs_succeeds_iff (s : State F W) (q : option (list F))
    (f : option string) (lim : Z) :
  (exists docs, (search_docs q f lim s).1 = Ok docs) <->
  exists collection results,
    sess (self s) = Some collection /\
    Collection_search collection (search_kwargs (self s) q f lim) (server s) = Ok results /\
    Forall headers_readable (concat results).
Proof.
  split.
  - intros [docs Hd]. destruct (sess (self s)) as [collection|] eqn:Hs.
    + rewrite (search_docs_loaded s collection) in Hd by exact Hs. cbn [fst] in Hd.
      destruct (Collection_search _ _ _) as [results|e0] eqn:Hr; [|discriminate].
      exists collection, results. split; [reflexivity|].
      split; [first [exact Hr | reflexivity]|]. apply for_hits_readable.
      destruct (for_hits results []) as [ds|e1]; [exists ds; reflexivity | discriminate].
    + rewrite search_docs_unloaded in Hd by exact Hs. discriminate.
  - intros (collection & results & Hs & Hr & Hall).
    rewrite (search_docs_loaded s collection) by exact Hs. cbn [fst]. rewrite Hr.
    apply for_hits_readable in Hall. destruct Hall as [docs Hd]. exists docs.
    rewrite Hd. reflexivity.
Qed.

(** X4: every failure of [search_docs] is a [MilvusFailed] whose message is
    the fixed prefix followed by its cause: the client holds no collection
    (nothing is sent), the search of the store raised, or [json.loads] raised
    on the headers of a hit; the cause is then the text of that exception, and
    no list is returned. *)
Theorem search_docs_failure_causes (s s' : State F W) (q : option (list F))
    (f : option string) (lim : Z) (e : exn) :
  search_docs q f lim s = (Raise e, s') ->
  exists cause,
    e = MilvusFailed ("Failed to search documents: " +:+ cause) /\
    ((cause = not_loaded_message /\ sess (self s) = None /\ s' = s) \/
     (exists collection,
        sess (self s) = Some collection /\
        s' = logged (CSearch collection (search_kwargs (self s) q f lim)) s /\
        ((exists e0,
            Collection_search collection (search_kwargs (self s) q f lim) (server s)
              = Raise e0 /\ cause = str e0) \/
         (exists results hit e0,
            Collection_search collection (search_kwargs (self s) q f lim) (server s)
              = Ok results /\
            In hit (concat results) /\
            loads_value (entity_get hit "headers") = Raise e0 /\
            cause = str e0)))).
Proof.
  destruct (sess (self s)) as [collection|] eqn:Hs.
  - rewrite (search_docs_loaded s collection) by exact Hs.
    destruct (Collection_search _ _ _) as [results|e0] eqn:Hr.
    + pose proof (for_hits_spec results []) as Hspec.
      destruct (for_hits results []) as [docs|e1]; [discriminate|].
      intros [= <- <-]. exists (str e1). split; [reflexivity|]. right.
      exists collection. split; [reflexivity|]. split; [reflexivity|]. right.
      destruct Hspec as (hit & Hin & Hd). exists results, hit, e1.
      split; [first [exact Hr | reflexivity]|]. split; [exact Hin|].
      split; [|reflexivity].
      unfold hit_doc in Hd. destruct (loads_value _); [discriminate | congruence].
    + intros [= <- <-]. exists (str e0). split; [reflexivity|]. right.
      exists collection. split; [reflexivity|]. split; [reflexivity|]. left.
      exists e0. split; [first [exact Hr | reflexivity] | reflexivity].
  - rewrite search_docs_unloaded by exact Hs. intros [= <- <-].
    exists not_loaded_message. split; [reflexivity|]. left. repeat split.
Qed.

(** X5: an exception of [load_collection_] is the exception of the store,
    as it is (it is not wrapped into [MilvusFailed]): the last call issued
    raised it, the client object is as before, and the store is left as the
    calls before the failing one made it. *)
Theorem load_collection_failure_propagates (s s' : State F W) (user_id : string)
    (e : exn) :
  load_collection_ user_id s = (Raise e, s') ->
  self s' = self s /\
  exists before call,
    issued s' = issued s ++ before ++ [call] /\
    store_raises call (server s') e /\
    hd_error (before ++ [call]) = Some (CHasCollection user_id).
Proof.
  rewrite load_collection_steps.
  destruct (utility_has_collection user_id (server s)) as [[|]|e0] eqn:Hh.
  - destruct (Collection_open user_id (server s)) as [w1|e1] eqn:Ho.
    + destruct (Collection_load user_id w1) as [w2|e2] eqn:Hl; [discriminate|].
      intros [= <- <-]. split; [reflexivity|].
      exists [CHasCollection user_id; COpen user_id], (CLoad user_id).
      repeat split. exact Hl.
    + intros [= <- <-]. split; [reflexivity|].
      exists [CHasCollection user_id], (COpen user_id). repeat split. exact Ho.
  - destruct (Collection_create user_id fields (server s)) as [w1|e1] eqn:Hc.
    + destruct (Collection_create_index _ _ _ w1) as [w2|e2] eqn:Hi.
      * destruct (Collection_load user_id w2) as [w3|e3] eqn:Hl; [discriminate|].
        intros [= <- <-]. split; [reflexivity|].
        exists [CHasCollection user_id; CCreate user_id fields;
                CCreateIndex user_id "embedding" (create_params (self s))],
               (CLoad user_id).
        repeat split. exact Hl.
      * intros [= <- <-]. split; [reflexivity|].
        exists [CHasCollection user_id; CCreate user_id fields],
               (CCreateIndex user_id "embedding" (create_params (self s))).
        repeat split. exact Hi.
    + intros [= <- <-]. split; [reflexivity|].
      exists [CHasCollection user_id], (CCreate user_id fields). repeat split. exact Hc.
  - intros [= <- <-]. split; [reflexivity|].
    exists [], (CHasCollection user_id). repeat split. exact Hh.
Qed.

Lemma load_collection_ok (s s1 : State F W) (user_id : string) :
  load_collection_ user_id s = (Ok tt, s1) -> self s1 = attached (self s) user_id.
Proof.
  rewrite load_collection_steps.
  destruct (utility_has_collection user_id (server s)) as [[|]|e0]; [| |discriminate].
  - destruct (Collection_open user_id (server s)) as [w1|e1]; [|discriminate].
    destruct (Collection_load user_id w1); [|discriminate]. intros [= <-]. reflexivity.
  - destruct (Collection_create user_id fields (server s)) as [w1|e1]; [|discriminate].
    destruct (Collection_create_index _ _ _ w1) as [w2|e2]; [|discriminate].
    destruct (Collection_load user_id w2); [|discriminate]. intros [= <-]. reflexivity.
Qed.

(** X6: after a [load_collection_] that returns, on a client that held
    another collection or none, [store_doc] and [search_docs] address the
    collection just loaded: a complete document is inserted into it, and every
    search is sent to it with the search parameters of the client. *)
Theorem load_collection_retargets (s s1 : State F W) (user_id : string) :
  load_collection_ user_id s = (Ok tt, s1) ->
  (forall doc embedding,
     ~ incomplete doc embedding ->
     issued (store_doc doc embedding s1).2 =
       issued s1 ++ [CInsert user_id (columns doc embedding)]) /\
  (forall q f lim,
     issued (search_docs q f lim s1).2 =
       issued s1 ++ [CSearch user_id (search_kwargs (self s) q f lim)]).
Proof.
  intros Hl. apply load_collection_ok in Hl.
  assert (Hs : sess (self s1) = Some user_id) by (rewrite Hl; reflexivity).
  split.
  - intros doc embedding Hc. rewrite (store_doc_attached s1 user_id) by exact Hs.
    apply validation_passes_iff in Hc. rewrite Hc.
    destruct (Collection_insert _ _ _); reflexivity.
  - intros q f lim. rewrite (search_docs_loaded s1 user_id) by exact Hs.
    rewrite Hl. reflexivity.
Qed.

End ClientProtocol.

Section Runs.

Context {F : Type} `{JsonCodec} {W : Type} `{Milvus F W} {connection : Connections W}.

Lemma run_cons (op : Op F) (ops : list (Op F)) (s : State F W) :
  run (op :: ops) s = run ops (step op s).
Proof. reflexivity. Qed.

(** A step changes the client object only by attaching it to the collection
    of a load. *)
Lemma step_client (op : Op F) (s : State F W) :
  self (step op s) = self s \/
  exists u, op = OpLoad u /\ self (step op s) = attached (self s) u.
Proof.
  destruct op as [u|doc embedding|q f lim]; simpl.
  - destruct (load_collection_ u s) as [[[]|e] s1] eqn:Hl; simpl.
    + right. exists u. split; [reflexivity|]. apply (load_collection_ok _ _ _ Hl).
    + left. apply (load_collection_failure_keeps_client _ _ _ _ Hl).
  - left. apply store_doc_keeps_client.
  - left. apply search_docs_keeps_client.
Qed.

(** X7: whatever methods are called, in whatever order and with whatever
    outcome, the configuration of the client stays as it was: host, port,
    partitions, top_k, the search parameters and the index parameters never
    change, and the collection held changes only to that of a load. *)
Theorem run_keeps_configuration (ops : list (Op F)) (s : State F W) :
  host (self (run ops s)) = host (self s) /\
  port (self (run ops s)) = port (self s) /\
  partitions (self (run ops s)) = partitions (self s) /\
  top_k (self (run ops s)) = top_k (self s) /\
  search_params (self (run ops s)) = search_params (self s) /\
  create_params (self (run ops s)) = create_params (self s) /\
  (sess (self (run ops s)) = sess (self s) \/
   exists u, In (OpLoad u) ops /\ sess (self (run ops s)) = Some u).
Proof.
  revert s. induction ops as [|op ops IH]; intros s.
  - repeat split. left. reflexivity.
  - rewrite run_cons. destruct (IH (step op s)) as (Hh & Hp & Hpa & Hk & Hsp & Hcp & Hs).
    destruct (step_client op s) as [Hc|(u & -> & Hc)]; rewrite Hc in *.
    + repeat split; try assumption.
      destruct Hs as [Hs|(u & Hin & Hs)]; [left; exact Hs|].
      right. exists u. split; [right; exact Hin | exact Hs].
    + repeat split; try assumption.
      destruct Hs as [Hs|(u' & Hin & Hs)].
      * right. exists u. split; [left; reflexivity | exact Hs].
      * right. exists u'. split; [right; exact Hin | exact Hs].
Qed.

Lemma step_unloaded (op : Op F) (s : State F W) :
  sess (self s) = None -> is_load op = false -> step op s = s.
Proof.
  intros Hs Hop. destruct op as [u|doc embedding|q f lim]; [discriminate| |]; simpl.
  - rewrite store_doc_unloaded by exact Hs. reflexivity.
  - rewrite search_docs_unloaded by exact Hs. reflexivity.
Qed.

Lemma run_unloaded (ops : list (Op F)) (s : State F W) :
  sess (self s) = None -> Forall (fun op => is_load op = false) ops -> run ops s = s.
Proof.
  intros Hs Hops. induction Hops as [|op ops Hop _ IH]; [reflexivity|].
  rewrite run_cons, step_unloaded by assumption. exact IH.
Qed.

(** X8: a client is constructed whether [connections.connect] returns or
    raises; it holds no collection, and until [load_collection_] is called
    every [store_doc] and [search_docs] fails without a call to the store: a
    run of such calls leaves the client, the store and the history of calls
    as construction left them. *)
Theorem fresh_client_inert_until_load (h : string) (p k : Z) (w : W)
    (ops : list (Op F)) :
  Forall (fun op => is_load op = false) ops ->
  run ops (MilvusClient__init__ h p k w) = MilvusClient__init__ h p k w /\
  self (MilvusClient__init__ (F:=F) h p k w) = MilvusClient_init h p k /\
  issued (MilvusClient__init__ (F:=F) h p k w) = [] /\
  server (MilvusClient__init__ (F:=F) h p k w) =
    match connections_connect h p 3 3 1 w with
    | Ok w' => w'
    | Raise _ => w
    end.
Proof.
  intros Hops.
  assert (Hself : self (MilvusClient__init__ (F:=F) h p k w) = MilvusClient_init h p k).
  { unfold MilvusClient__init__. destruct (connections_connect _ _ _ _ _ _); reflexivity. }
  split; [|split; [exact Hself|split]].
  - apply run_unloaded; [|exact Hops]. rewrite Hself. reflexivity.
  - unfold MilvusClient__init__. destruct (connections_connect _ _ _ _ _ _); reflexivity.
  - unfold MilvusClient__init__. simpl.
    destruct (connections_connect _ _ _ _ _ _); reflexivity.
Qed.

Lemma complete_columns (doc : Document) (embedding : option (list F)) :
  ~ incomplete doc embedding ->
  exists u k f h d t e,
    columns doc embedding =
      [[VStr u]; [VStr k]; [VStr f]; [VStr h]; [VStr d]; [VStr t]; [VVec e]] /\
    u <> EmptyString /\ k <> EmptyString /\ f <> EmptyString /\
    d <> EmptyString /\ t <> EmptyString /\ e <> [].
Proof.
  unfold incomplete, absent_str, absent_vec. intros Hc. rewrite columns_rows.
  destruct (md_user_id (metadata doc)) as [u|]; [|tauto].
  destruct (md_kb_id (metadata doc)) as [k|]; [|tauto].
  destruct (md_file_id (metadata doc)) as [f|]; [|tauto].
  destruct (md_doc_id (metadata doc)) as [d|]; [|tauto].
  destruct embedding as [e|]; [|tauto].
  eexists u, k, f, _, d, (page_content doc), e. split; [reflexivity|].
  repeat split; intros Heq; apply Hc; rewrite ?Heq; intuition congruence.
Qed.

Lemma search_kwargs_well_formed (c : MilvusClient) (n : string) (q : option (list F))
    (f : option string) (lim : Z) :
  well_formed c (CSearch n (search_kwargs c q f lim)).
Proof.
  simpl. repeat split. destruct q as [[|x v]|]; [left| right; exists x, v|left]; reflexivity.
Qed.

(** The calls of one method. *)
Lemma step_calls (op : Op F) (s : State F W) :
  exists calls,
    issued (step op s) = issued s ++ calls /\
    Forall (well_formed (self s)) calls /\
    (forall n rows, In (CInsert n rows) calls -> sess (self s) = Some n) /\
    (forall n kw, In (CSearch n kw) calls -> sess (self s) = Some n) /\
    (forall n, sess (self (step op s)) = Some n ->
               sess (self s) = Some n \/ In (CLoad n) calls).
Proof.
  destruct op as [u|doc embedding|q f lim]; simpl.
  - rewrite load_collection_steps.
    destruct (utility_has_collection u (server s)) as [[|]|e0].
    + destruct (Collection_open u (server s)) as [w1|e1].
      * destruct (Collection_load u w1); simpl; eexists; (split; [reflexivity|]);
          (split; [repeat constructor|]);
          (split; [intros n rows [|[|[|[]]]]; discriminate|]);
          (split; [intros n kw [|[|[|[]]]]; discriminate|]).
        -- intros n [= <-]. right. simpl. tauto.
        -- intros n Hn. left. exact Hn.
      * simpl. eexists. split; [reflexivity|]. split; [repeat constructor|].
        split; [intros n rows [|[|[]]]; discriminate|].
        split; [intros n kw [|[|[]]]; discriminate|].
        intros n Hn. left. exact Hn.
    + destruct (Collection_create u fields (server s)) as [w1|e1].
      * destruct (Collection_create_index _ _ _ w1) as [w2|e2].
        -- destruct (Collection_load u w2); simpl; eexists; (split; [reflexivity|]);
             (split; [repeat constructor|]);
             (split; [intros n rows [|[|[|[|[]]]]]; discriminate|]);
             (split; [intros n kw [|[|[|[|[]]]]]; discriminate|]).
           ++ intros n [= <-]. right. simpl. tauto.
           ++ intros n Hn. left. exact Hn.
        -- simpl. eexists. split; [reflexivity|]. split; [repeat constructor|].
           split; [intros n rows [|[|[|[]]]]; discriminate|].
           split; [intros n kw [|[|[|[]]]]; discriminate|].
           intros n Hn. left. exact Hn.
      * simpl. eexists. split; [reflexivity|]. split; [repeat constructor|].
        split; [intros n rows [|[|[]]]; discriminate|].
        split; [intros n kw [|[|[]]]; discriminate|].
        intros n Hn. left. exact Hn.
    + simpl. eexists. split; [reflexivity|]. split; [repeat constructor|].
      split; [intros n rows [|[]]; discriminate|].
      split; [intros n kw [|[]]; discriminate|].
      intros n Hn. left. exact Hn.
  - destruct (sess (self s)) as [collection|] eqn:Hs.
    + rewrite (store_doc_attached s collection) by exact Hs.
      destruct (all (validated doc embedding)) eqn:Hv.
      * assert (Hwf : well_formed (self s) (CInsert collection (columns doc embedding))).
        { apply validation_passes_iff in Hv. apply complete_columns in Hv. exact Hv. }
        destruct (Collection_insert _ _ _); simpl; eexists; (split; [reflexivity|]);
          (split; [constructor; [exact Hwf | constructor]|]);
          (split; [intros n rows [[= <- _]|[]]; congruence|]);
          (split; [intros n kw [|[]]; discriminate|]);
          intros n Hn; left; congruence.
      * simpl. exists []. split; [symmetry; apply app_nil_r|]. split; [constructor|].
        split; [intros n rows []|]. split; [intros n kw []|]. intros n Hn. left.
        congruence.
    + rewrite store_doc_unloaded by exact Hs. simpl.
      exists []. split; [symmetry; apply app_nil_r|]. split; [constructor|].
      split; [intros n rows []|]. split; [intros n kw []|]. intros n Hn. left. congruence.
  - destruct (sess (self s)) as [collection|] eqn:Hs.
    + rewrite (search_docs_loaded s collection) by exact Hs. simpl.
      eexists. split; [reflexivity|].
      split; [constructor; [apply search_kwargs_well_formed | constructor]|].
      split; [intros n rows [|[]]; discriminate|].
      split; [intros n kw [[= <- _]|[]]; congruence|].
      intros n Hn. left. congruence.
    + rewrite search_docs_unloaded by exact Hs. simpl.
      exists []. split; [symmetry; apply app_nil_r|]. split; [constructor|].
      split; [intros n rows []|]. split; [intros n kw []|]. intros n Hn. left. congruence.
Qed.

Lemma well_formed_same_parameters (c c' : MilvusClient) (call : Call F) :
  search_params c' = search_params c -> create_params c' = create_params c ->
  well_formed c' call -> well_formed c call.
Proof. intros Hsp Hcp. destruct call; simpl; rewrite ?Hsp, ?Hcp; trivial. Qed.

Lemma step_keeps_parameters (op : Op F) (s : State F W) :
  search_params (self (step op s)) = search_params (self s) /\
  create_params (self (step op s)) = create_params (self s).
Proof.
  destruct (step_client op s) as [Hc|(u & _ & Hc)]; rewrite Hc; split; reflexivity.
Qed.

(** X9: every call the client sends in a run is well formed: a collection
    is created with the fixed schema only, indexed on [embedding] with the
    index parameters of the client only; an insert carries one row of seven
    values in which no required value is empty; a search names [embedding],
    asks for all output fields and carries no query vector or one that is not
    empty. *)
Theorem run_issues_well_formed_calls (ops : list (Op F)) (s : State F W) :
  exists calls,
    issued (run ops s) = issued s ++ calls /\ Forall (well_formed (self s)) calls.
Proof.
  revert s. induction ops as [|op ops IH]; intros s.
  - exists []. split; [symmetry; apply app_nil_r | constructor].
  - rewrite run_cons. destruct (IH (step op s)) as (rest & Hrest & Hwf).
    destruct (step_calls op s) as (calls & Hcalls & Hwf1 & _).
    exists (calls ++ rest). split.
    + rewrite Hrest, Hcalls, app_assoc. reflexivity.
    + apply Forall_app. split; [exact Hwf1|].
      destruct (step_keeps_parameters op s) as [Hsp Hcp].
      eapply List.Forall_impl; [|exact Hwf].
      intros call. apply well_formed_same_parameters; assumption.
Qed.

Lemma loads_first_mono (seen seen' : list string) (calls : list (Call F)) :
  (forall n, In n seen -> In n seen') -> loads_first seen calls -> loads_first seen' calls.
Proof.
  revert seen seen'. induction calls as [|c calls IH]; intros seen seen' Hsub; [trivial|].
  destruct c; simpl; eauto.
  - apply IH. intros n [->|Hn]; [left; reflexivity | right; auto].
  - intros [Hin Hrest]. split; eauto.
  - intros [Hin Hrest]. split; eauto.
Qed.

Lemma loads_first_app (seen seen' : list string) (calls rest : list (Call F)) :
  loads_first seen calls ->
  (forall n, In n seen' -> In n seen \/ In (CLoad n) calls) ->
  loads_first seen' rest ->
  loads_first seen (calls ++ rest).
Proof.
  revert seen. induction calls as [|c calls IH]; intros seen Hcalls Hsub Hrest.
  - simpl. eapply loads_first_mono; [|exact Hrest].
    intros n Hn. destruct (Hsub n Hn) as [Hin|[]]. exact Hin.
  - assert (Hskip : forall seen0,
              (forall n, In n seen' -> In n seen0 \/ In (CLoad n) (c :: calls)) ->
              (forall n, CLoad n <> c) ->
              forall n, In n seen' -> In n seen0 \/ In (CLoad n) calls).
    { intros seen0 Hs0 Hne n Hn. destruct (Hs0 n Hn) as [Hin|[Heq|Hin]]; auto.
      exfalso. apply (Hne n). symmetry. exact Heq. }
    destruct c; simpl in *;
      try (apply IH; [exact Hcalls | apply Hskip; [exact Hsub | discriminate]
                     | exact Hrest]).
    + apply IH; [exact Hcalls | | exact Hrest].
      intros n Hn. destruct (Hsub n Hn) as [Hin|[[= <-]|Hin]]; simpl; auto.
    + destruct Hcalls as [Hin Hcalls]. split; [exact Hin|].
      apply IH; [exact Hcalls | apply Hskip; [exact Hsub | discriminate] | exact Hrest].
    + destruct Hcalls as [Hin Hcalls]. split; [exact Hin|].
      apply IH; [exact Hcalls | apply Hskip; [exact Hsub | discriminate] | exact Hrest].
Qed.

Lemma loads_first_uses (seen : list string) (calls : list (Call F)) :
  (forall n rows, In (CInsert n rows) calls -> In n seen) ->
  (forall n kw, In (CSearch n kw) calls -> In n seen) ->
  loads_first seen calls.
Proof.
  revert seen. induction calls as [|c calls IH]; intros seen Hi Hq; [exact I|].
  destruct c; simpl;
    try (apply IH; [intros n rows Hn; apply (Hi n rows); right; exact Hn
                   |intros n kw Hn; apply (Hq n kw); right; exact Hn]).
  - apply IH.
    + intros n rows Hn. right. apply (Hi n rows). right. exact Hn.
    + intros n kw Hn. right. apply (Hq n kw). right. exact Hn.
  - split; [apply (Hi collection rows); left; reflexivity|].
    apply IH; [intros n rows' Hn; apply (Hi n rows'); right; exact Hn
              |intros n kw Hn; apply (Hq n kw); right; exact Hn].
  - split; [apply (Hq collection kwargs); left; reflexivity|].
    apply IH; [intros n rows Hn; apply (Hi n rows); right; exact Hn
              |intros n kw' Hn; apply (Hq n kw'); right; exact Hn].
Qed.

Lemma held_In (c : MilvusClient) (n : string) : In n (held c) <-> sess c = Some n.
Proof.
  unfold held. destruct (sess c) as [m|]; simpl; split; try tauto; try discriminate.
  - intros [->|[]]. reflexivity.
  - intros [= ->]. left. reflexivity.
Qed.

(** X10: in every run, an insert or a search is sent only to a collection
    for which the client issued a load earlier in the run (or to the one it
    held when the run began): the client never writes to or reads from a
    collection it did not load. *)
Theorem run_loads_before_use (ops : list (Op F)) (s : State F W) :
  exists calls,
    issued (run ops s) = issued s ++ calls /\ loads_first (held (self s)) calls.
Proof.
  revert s. induction ops as [|op ops IH]; intros s.
  - exists []. split; [symmetry; apply app_nil_r | exact I].
  - rewrite run_cons. destruct (IH (step op s)) as (rest & Hrest & Hlf).
    destruct (step_calls op s) as (calls & Hcalls & _ & Hins & Hsearch & Hsess).
    exists (calls ++ rest). split.
    + rewrite Hrest, Hcalls, app_assoc. reflexivity.
    + eapply loads_first_app; [| |exact Hlf].
      * apply loads_first_uses.
        -- intros n rows Hn. apply held_In. eapply Hins. exact Hn.
        -- intros n kw Hn. apply held_In. eapply Hsearch. exact Hn.
      * intros n Hn. apply held_In in Hn. destruct (Hsess n Hn) as [Hold|Hnew].
        -- left. apply held_In. exact Hold.
        -- right. exact Hnew.
Qed.

End Runs.

(** ** Runs on the reference store *)

Section ReferenceRuns.

Context {F : Type} `{JsonCodec} `{RefStore.Metric F} `{RefStore.Expressions F}.

(** [load_collection_] on the reference store. *)
Lemma load_collection_reference (s : State F (gmap string (RefStore.Coll F)))
    (user_id : string) :
  load_collection_ user_id s =
    match server s !! user_id with
    | None =>
        (Ok tt,
         {| self := attached (self s) user_id;
            server := <[user_id := new_collection (create_params (self s))]> (server s);
            issued := issued s ++
                      [CHasCollection user_id; CCreate user_id fields;
                       CCreateIndex user_id "embedding" (create_params (self s));
                       CLoad user_id] |})
    | Some c =>
        match RefStore.c_index c with
        | None =>
            (Raise (Foreign "index not found"),
             {| self := self s; server := server s;
                issued := issued s ++
                          [CHasCollection user_id; COpen user_id; CLoad user_id] |})
        | Some _ =>
            (Ok tt,
             {| self := attached (self s) user_id;
                server := <[user_id := loaded_collection c]> (server s);
                issued := issued s ++
                          [CHasCollection user_id; COpen user_id; CLoad user_id] |})
        end
    end.
Proof.
  rewrite load_collection_steps. simpl.
  unfold RefStore.has_collection, RefStore.create, RefStore.open.
  destruct (server s !! user_id) as [c|] eqn:Hc.
  - unfold RefStore.load. rewrite Hc.
    destruct (RefStore.c_index c) eqn:Hix; [|reflexivity].
    unfold loaded_collection. rewrite Hix. reflexivity.
  - unfold RefStore.create_index. rewrite lookup_insert_eq.
    change (RefStore.vector_dim "embedding" _) with (Some 768). cbn iota.
    unfold RefStore.load. rewrite lookup_insert_eq. cbn [RefStore.c_index].
    rewrite !insert_insert_eq. reflexivity.
Qed.

(** The insert of the columns of a document into the reference store. *)
Lemma insert_columns (w : gmap string (RefStore.Coll F)) (collection : string)
    (doc : Document)
    (embedding : option (list F)) :
  Collection_insert collection (columns doc embedding) w =
    match w !! collection with
    | None => Raise (Foreign "collection not found")
    | Some c =>
        if RefStore.conform_all (RefStore.insert_fields (RefStore.c_schema c))
                                (document_values doc embedding)
        then Ok (<[collection := with_document c doc embedding]> w)
        else Raise (Foreign "the data does not match the schema")
    end.
Proof.
  simpl. unfold RefStore.insert_rows. destruct (w !! collection) as [c|]; [|reflexivity].
  cbn [columns document_values length hd tl map RefStore.rows_of_columns forallb
       Nat.eqb andb negb].
  rewrite !andb_true_r. reflexivity.
Qed.

(** [store_doc] on the reference store. *)
Lemma store_doc_reference (s : State F (gmap string (RefStore.Coll F))) (doc : Document)
    (embedding : option (list F)) :
  (store_doc doc embedding s).2 = s \/
  (exists collection e,
     sess (self s) = Some collection /\
     (store_doc doc embedding s).2 =
       logged (CInsert collection (columns doc embedding)) s /\
     (store_doc doc embedding s).1 = Raise e) \/
  (exists collection c,
     sess (self s) = Some collection /\
     server s !! collection = Some c /\
     ~ incomplete doc embedding /\
     RefStore.conform_all (RefStore.insert_fields (RefStore.c_schema c))
                          (document_values doc embedding) = true /\
     store_doc doc embedding s =
       (Ok tt,
        {| self := self s;
           server := <[collection := with_document c doc embedding]> (server s);
           issued := issued s ++ [CInsert collection (columns doc embedding)] |})).
Proof.
  destruct (sess (self s)) as [collection|] eqn:Hs.
  - rewrite (store_doc_attached s collection) by exact Hs.
    destruct (all (validated doc embedding)) eqn:Hv; [|left; reflexivity].
    rewrite insert_columns. destruct (server s !! collection) as [c|] eqn:Hc.
    + destruct (RefStore.conform_all _ _) eqn:Hconf.
      * right. right. exists collection, c. repeat split; try assumption.
        apply validation_passes_iff. exact Hv.
      * right. left. eexists collection, _. repeat split.
    + right. left. eexists collection, _. repeat split.
  - rewrite store_doc_unloaded by exact Hs. left. reflexivity.
Qed.

(** X11: on the reference store a [store_doc] that returns has appended
    exactly one row to the collection the client holds, made of the seven
    values of the document under the next key of the collection; the rows
    that were there and every other collection are as before. *)
Theorem store_doc_appends_one_row (s s1 : State F (gmap string (RefStore.Coll F)))
    (doc : Document)
    (embedding : option (list F)) :
  store_doc doc embedding s = (Ok tt, s1) ->
  exists collection c c1,
    sess (self s) = Some collection /\
    server s !! collection = Some c /\
    server s1 !! collection = Some c1 /\
    RefStore.c_rows c1 =
      RefStore.c_rows c ++
      [RefStore.mk_row (RefStore.c_schema c) (RefStore.c_next_id c)
                       (document_values doc embedding)] /\
    RefStore.c_next_id c1 = RefStore.c_next_id c + 1 /\
    forall n, n <> collection -> server s1 !! n = server s !! n.
Proof.
  intros Hok.
  destruct (store_doc_reference s doc embedding)
    as [Hsame|[(collection & e & _ & _ & He)|(collection & c & Hs & Hc & _ & _ & Heq)]].
  - exfalso. rewrite Hok in Hsame. simpl in Hsame. subst s1.
    destruct (sess (self s)) as [collection|] eqn:Hs.
    + rewrite (store_doc_attached s collection) in Hok by exact Hs.
      destruct (all _); [|discriminate].
      destruct (Collection_insert _ _ _); [|discriminate].
      injection Hok as Hok. apply (f_equal (fun x => length (issued x))) in Hok.
      simpl in Hok. rewrite length_app in Hok. simpl in Hok. lia.
    + rewrite store_doc_unloaded in Hok by exact Hs. discriminate.
  - rewrite Hok in He. discriminate.
  - rewrite Heq in Hok. injection Hok as <-.
    exists collection, c, (with_document c doc embedding).
    split; [exact Hs|]. split; [exact Hc|]. simpl.
    split; [apply lookup_insert_eq|]. split; [reflexivity|]. split; [reflexivity|].
    intros n Hn. apply lookup_insert_ne. congruence.
Qed.

Lemma valid_new_collection : valid_collection (F:=F) (new_collection specified_index).
Proof. repeat split. constructor. Qed.

Lemma valid_loaded_collection (c : RefStore.Coll F) :
  valid_collection c -> valid_collection (loaded_collection c).
Proof. intros H2. exact H2. Qed.

Lemma text_within_conforms (n : Z) (s : string) :
  s <> EmptyString -> (Z.of_nat (String.length s) <=? n) = true ->
  text_within (F:=F) n (VStr s).
Proof. intros Hs Hn. exists s. split; [reflexivity|]. split; [exact Hs|]. lia. Qed.

(** The row of a complete document that fits the schema is valid. *)
Lemma valid_row_of_document (doc : Document) (embedding : option (list F)) (id : Z) :
  ~ incomplete doc embedding ->
  RefStore.conform_all (RefStore.insert_fields fields) (document_values doc embedding)
    = true ->
  valid_row (RefStore.mk_row fields id (document_values doc embedding)).
Proof.
  intros Hc Hconf.
  destruct (complete_columns doc embedding Hc)
    as (u & k & f & h & d & t & e & Hcols & Hu & Hk & Hf & Hd & Ht & He).
  unfold columns, document_values in Hcols. simpl in Hcols.
  injection Hcols as Eu Ek Ef Eh Ed Et Ee.
  unfold document_values in *. rewrite Eu, Ek, Ef, Ed, Et, Ee in *.
  cbn -[Z.leb Z.eqb Z.of_nat String.length length] in Hconf.
  rewrite !andb_true_iff in Hconf.
  destruct Hconf as (Cu & Ck & Cf & Ch & Cd & Ct & Ce & _).
  unfold valid_row.
  destruct (mk_row_values id (VStr u) (VStr k) (VStr f)
              (VStr (json_dumps (JObject (headers_of doc)))) (VStr d) (VStr t) (VVec e))
    as (-> & -> & -> & -> & -> & -> & -> & _).
  split; [exists id; reflexivity|].
  split; [apply text_within_conforms; assumption|].
  split; [apply text_within_conforms; assumption|].
  split; [apply text_within_conforms; assumption|].
  split; [exists (headers_of doc); split; [reflexivity | lia]|].
  split; [apply text_within_conforms; assumption|].
  split; [apply text_within_conforms; assumption|].
  exists e. split; [reflexivity | lia].
Qed.

Lemma valid_with_document (c : RefStore.Coll F) (doc : Document)
    (embedding : option (list F)) :
  valid_collection c ->
  ~ incomplete doc embedding ->
  RefStore.conform_all (RefStore.insert_fields (RefStore.c_schema c))
                       (document_values doc embedding) = true ->
  valid_collection (with_document c doc embedding).
Proof.
  intros (Hschema & Hindex & Hrows) Hc Hconf. unfold valid_collection. simpl.
  split; [exact Hschema|]. split; [exact Hindex|].
  apply Forall_app. split; [exact Hrows|]. constructor; [|constructor].
  rewrite Hschema in *. apply valid_row_of_document; assumption.
Qed.

Lemma valid_insert (w : gmap string (RefStore.Coll F)) (n : string) (c : RefStore.Coll F) :
  (forall m c0, w !! m = Some c0 -> valid_collection c0) ->
  valid_collection c ->
  forall m c0, <[n := c]> w !! m = Some c0 -> valid_collection c0.
Proof.
  intros Hall Hc m c0 Hm. destruct (decide (n = m)) as [->|Hne].
  - rewrite lookup_insert_eq in Hm. injection Hm as <-. exact Hc.
  - rewrite lookup_insert_ne in Hm by exact Hne. eapply Hall. exact Hm.
Qed.

Lemma load_collection_keeps_valid (s : State F (gmap string (RefStore.Coll F)))
    (user_id : string) :
  valid_state s -> valid_state (load_collection_ user_id s).2.
Proof.
  intros (Hcp & Hall & Hheld). rewrite load_collection_reference.
  destruct (server s !! user_id) as [c|] eqn:Hc.
  - destruct (RefStore.c_index c) eqn:Hix; simpl.
    + split; [exact Hcp|]. split.
      * apply valid_insert; [exact Hall|]. apply valid_loaded_collection.
        eapply Hall. exact Hc.
      * simpl. intros n [= <-]. exists (loaded_collection c).
        split; [apply lookup_insert_eq | reflexivity].
    + split; [exact Hcp|]. split; assumption.
  - simpl. split; [exact Hcp|]. split.
    + apply valid_insert; [exact Hall|]. rewrite Hcp. apply valid_new_collection.
    + simpl. intros n [= <-]. eexists. split; [apply lookup_insert_eq | reflexivity].
Qed.

Lemma store_doc_keeps_valid (s : State F (gmap string (RefStore.Coll F))) (doc : Document)
    (embedding : option (list F)) :
  valid_state s -> valid_state (store_doc doc embedding s).2.
Proof.
  intros (Hcp & Hall & Hheld).
  destruct (store_doc_reference s doc embedding)
    as [->|[(collection & e & _ & -> & _)
           |(collection & c & Hs & Hc & Hcomplete & Hconf & ->)]].
  - split; [exact Hcp|]. split; assumption.
  - split; [exact Hcp|]. split; assumption.
  - simpl. split; [exact Hcp|]. split.
    + apply valid_insert; [exact Hall|]. apply valid_with_document; try assumption.
      eapply Hall. exact Hc.
    + simpl. intros n Hn. destruct (decide (collection = n)) as [->|Hne].
      * exists (with_document c doc embedding). split; [apply lookup_insert_eq|].
        simpl. destruct (Hheld n Hn) as (c0 & Hc0 & Hl). congruence.
      * rewrite lookup_insert_ne by exact Hne. apply Hheld. exact Hn.
Qed.

Lemma search_docs_state (s : State F (gmap string (RefStore.Coll F))) (q : option (list F))
    (f : option string)
    (lim : Z) :
  self (search_docs q f lim s).2 = self s /\ server (search_docs q f lim s).2 = server s.
Proof.
  destruct (sess (self s)) as [collection|] eqn:Hs.
  - rewrite (search_docs_loaded s collection) by exact Hs. split; reflexivity.
  - rewrite search_docs_unloaded by exact Hs. split; reflexivity.
Qed.

Lemma step_keeps_valid (op : Op F) (s : State F (gmap string (RefStore.Coll F))) :
  valid_state s -> valid_state (step op s).
Proof.
  destruct op as [u|doc embedding|q f lim]; simpl.
  - apply load_collection_keeps_valid.
  - apply store_doc_keeps_valid.
  - intros Hv. destruct (search_docs_state s q f lim) as [Hself Hserver].
    unfold valid_state. rewrite Hself, Hserver. exact Hv.
Qed.

(** X12: the reference store stays valid under every run of the client:
    every collection has the fixed schema and the index on [embedding], and
    every row has its key, its five texts not empty and within the sizes of
    the schema, headers that [json.dumps] wrote from a map, and a vector of
    768 numbers; the collection the client holds exists and is loaded. *)
Theorem run_keeps_store_valid (ops : list (Op F))
    (s : State F (gmap string (RefStore.Coll F))) :
  valid_state s -> valid_state (run ops s).
Proof.
  revert s. induction ops as [|op ops IH]; intros s Hv; [exact Hv|].
  rewrite run_cons. apply IH. apply step_keeps_valid. exact Hv.
Qed.

Lemma In_take {A : Type} (x : A) (n : nat) (l : list A) : In x (take n l) -> In x l.
Proof.
  revert l. induction n as [|n IH]; intros [|a l]; simpl; try tauto.
  intros [->|Hin]; [left; reflexivity | right; apply IH; exact Hin].
Qed.

(** Every hit of the reference store shows a row of the collection. *)
Lemma search_rows_hits (w : gmap string (RefStore.Coll F)) (n : string)
    (kw : SearchKwargs F)
    (results : list (list (Hit F))) (h : Hit F) :
  Collection_search n kw w = Ok results ->
  In h (concat results) ->
  exists c r q,
    w !! n = Some c /\ In r (RefStore.c_rows c) /\
    h = RefStore.mk_hit q (anns_field kw) (kw_output_fields kw) r.
Proof.
  simpl. unfold RefStore.search_rows.
  destruct (w !! n) as [c|]; [|discriminate].
  destruct (negb (RefStore.c_loaded c)); [discriminate|].
  destruct (data kw) as [qs|]; [|discriminate].
  destruct (RefStore.vector_dim _ _); [|discriminate].
  destruct (negb (forallb _ qs)); [discriminate|].
  destruct (negb (String.eqb _ _)); [discriminate|].
  destruct (negb _); [discriminate|].
  destruct (RefStore.compile_expr _) as [p|]; [|discriminate].
  intros [= <-] Hin. apply in_concat in Hin. destruct Hin as (hits & Hhits & Hin).
  apply List.in_map_iff in Hhits. destruct Hhits as (q & <- & _).
  unfold RefStore.top_hits in Hin. apply In_take in Hin.
  apply (Permutation_in _ (merge_sort_Permutation _ _)) in Hin.
  apply List.in_map_iff in Hin. destruct Hin as (r & <- & Hr).
  apply List.filter_In in Hr. exists c, r, q. repeat split. apply Hr.
Qed.

(** X13: on a valid reference store every record [search_docs] returns is
    whole: its five texts are not empty and within the sizes of the schema,
    its embedding has 768 numbers, and its headers are what [json.loads] read
    from the serialization of a map. *)
Theorem search_docs_returns_valid_records (s s' : State F (gmap string (RefStore.Coll F)))
    (q : option (list F)) (f : option string) (lim : Z) (docs : list (RetrievedDoc F)) :
  valid_state s ->
  search_docs q f lim s = (Ok docs, s') ->
  Forall valid_record docs.
Proof.
  intros (_ & Hall & _) Hok.
  destruct (search_docs_ok _ _ _ _ _ _ Hok) as (collection & results & _ & Hr & Hdocs).
  assert (Hhits : Forall (fun h => forall d, hit_doc h = Ok d -> valid_record d)
                         (concat results)).
  { apply List.Forall_forall. intros h Hin d Hd.
    destruct (search_rows_hits _ _ _ _ _ Hr Hin) as (c & r & qv & Hc & Hrow & ->).
    destruct (Hall _ _ Hc) as (_ & _ & Hrows).
    pose proof (proj1 (List.Forall_forall _ _) Hrows r Hrow)
      as (_ & Hu & Hk & Hf & (m & Hm & _) & Hdi & Ht & He).
    change (kw_output_fields (search_kwargs (self s) q f lim)) with output_fields in Hd.
    rewrite hit_doc_mk_hit in Hd. rewrite Hm in Hd. simpl in Hd.
    destruct (json_loads (json_dumps (JObject m))) as [j|e0] eqn:Hj; [|discriminate].
    injection Hd as <-. unfold valid_record. simpl.
    repeat split; try assumption. exists m. exact Hj. }
  clear Hr Hok. revert Hdocs Hhits. generalize (concat results). intros hits Hdocs Hhits.
  induction Hdocs as [|h d hs ds Hd _ IH]; constructor.
  - inversion Hhits; subst. auto.
  - apply IH. inversion Hhits; subst. assumption.
Qed.

(** X14: on the reference store [load_collection_] is idempotent: after a
    load that returned, loading the same collection again returns too, by
    opening it (nothing is created), and leaves the client and the store as
    they were. *)
Theorem load_collection_twice (s s1 : State F (gmap string (RefStore.Coll F)))
    (user_id : string) :
  load_collection_ user_id s = (Ok tt, s1) ->
  load_collection_ user_id s1 =
    (Ok tt,
     {| self := self s1; server := server s1;
        issued := issued s1 ++ [CHasCollection user_id; COpen user_id; CLoad user_id] |}).
Proof.
  rewrite (load_collection_reference s).
  assert (Hagain : forall c : RefStore.Coll F,
            RefStore.c_loaded c = true -> RefStore.c_index c <> None ->
            forall s2 : State F (gmap string (RefStore.Coll F)),
              server s2 !! user_id = Some c -> sess (self s2) = Some user_id ->
              load_collection_ user_id s2 =
                (Ok tt,
                 {| self := self s2; server := server s2;
                    issued := issued s2 ++
                              [CHasCollection user_id; COpen user_id; CLoad user_id] |})).
  { intros c Hl Hix s2 Hc Hs. rewrite load_collection_reference, Hc.
    destruct (RefStore.c_index c) as [ix|] eqn:Eix; [|congruence].
    f_equal. f_equal.
    - destruct (self s2) as [h p se pa k sp cp]. simpl in Hs. subst se. reflexivity.
    - apply insert_id. rewrite Hc. f_equal. destruct c as [sc ix' l r nx].
      simpl in Hl. subst l. reflexivity. }
  destruct (server s !! user_id) as [c|] eqn:Hc.
  - destruct (RefStore.c_index c) as [ix|] eqn:Hix; [|discriminate].
    intros [= <-]. apply (Hagain (loaded_collection c)).
    + reflexivity.
    + simpl. congruence.
    + simpl. apply lookup_insert_eq.
    + reflexivity.
  - intros [= <-]. apply (Hagain (new_collection (create_params (self s)))).
    + reflexivity.
    + discriminate.
    + simpl. apply lookup_insert_eq.
    + reflexivity.
Qed.

Lemma step_keeps_rows (op : Op F) (s : State F (gmap string (RefStore.Coll F))) (n : string)
    (c : RefStore.Coll F) :
  server s !! n = Some c ->
  exists c' more,
    server (step op s) !! n = Some c' /\
    RefStore.c_schema c' = RefStore.c_schema c /\
    RefStore.c_index c' = RefStore.c_index c /\
    RefStore.c_rows c' = RefStore.c_rows c ++ more.
Proof.
  intros Hc.
  assert (Hsame : forall w : gmap string (RefStore.Coll F), w !! n = Some c ->
            exists c' more, w !! n = Some c' /\
              RefStore.c_schema c' = RefStore.c_schema c /\
              RefStore.c_index c' = RefStore.c_index c /\
              RefStore.c_rows c' = RefStore.c_rows c ++ more).
  { intros w Hw. exists c, []. rewrite app_nil_r. repeat split. exact Hw. }
  destruct op as [u|doc embedding|q f lim]; simpl.
  - rewrite load_collection_reference.
    destruct (server s !! u) as [cu|] eqn:Hu.
    + destruct (RefStore.c_index cu) eqn:Hix; simpl; [|apply Hsame; exact Hc].
      destruct (decide (u = n)) as [->|Hne].
      * rewrite lookup_insert_eq. exists (loaded_collection cu), [].
        rewrite app_nil_r. assert (cu = c) as -> by congruence. repeat split.
      * rewrite lookup_insert_ne by exact Hne. apply Hsame. exact Hc.
    + simpl. rewrite lookup_insert_ne by congruence. apply Hsame. exact Hc.
  - destruct (store_doc_reference s doc embedding)
      as [->|[(collection & e & _ & -> & _)|(collection & c0 & _ & Hc0 & _ & _ & ->)]];
      [apply Hsame; exact Hc | apply Hsame; exact Hc |].
    simpl. destruct (decide (collection = n)) as [->|Hne].
    + rewrite lookup_insert_eq. assert (c0 = c) as -> by congruence.
      eexists _, _. repeat split.
    + rewrite lookup_insert_ne by exact Hne. apply Hsame. exact Hc.
  - rewrite (proj2 (search_docs_state s q f lim)). apply Hsame. exact Hc.
Qed.

(** X15: no run of the client removes or alters what the reference store
    holds: a collection that is there stays, with its schema and its index,
    and its rows stay as they are, in their order, before any row added. *)
Theorem run_keeps_rows (ops : list (Op F)) (s : State F (gmap string (RefStore.Coll F)))
    (n : string)
    (c : RefStore.Coll F) :
  server s !! n = Some c ->
  exists c' more,
    server (run ops s) !! n = Some c' /\
    RefStore.c_schema c' = RefStore.c_schema c /\
    RefStore.c_index c' = RefStore.c_index c /\
    RefStore.c_rows c' = RefStore.c_rows c ++ more.
Proof.
  revert s c. induction ops as [|op ops IH]; intros s c Hc.
  - exists c, []. rewrite app_nil_r. repeat split. exact Hc.
  - rewrite run_cons.
    destruct (step_keeps_rows op s n c Hc) as (c1 & more1 & Hc1 & Hs1 & Hi1 & Hr1).
    destruct (IH (step op s) c1 Hc1) as (c2 & more2 & Hc2 & Hs2 & Hi2 & Hr2).
    exists c2, (more1 ++ more2). split; [exact Hc2|].
    split; [congruence|]. split; [congruence|].
    rewrite Hr2, Hr1, app_assoc. reflexivity.
Qed.

Lemma step_elsewhere (op : Op F) (s : State F (gmap string (RefStore.Coll F))) (n : string)
    :
  sess (self s) <> Some n -> op <> OpLoad n ->
  server (step op s) !! n = server s !! n /\ sess (self (step op s)) <> Some n.
Proof.
  intros Hs Hop. split.
  - destruct op as [u|doc embedding|q f lim]; simpl.
    + assert (Hne : u <> n) by congruence. rewrite load_collection_reference.
      destruct (server s !! u) as [cu|].
      * destruct (RefStore.c_index cu); simpl; [|reflexivity].
        apply lookup_insert_ne. exact Hne.
      * simpl. apply lookup_insert_ne. exact Hne.
    + destruct (store_doc_reference s doc embedding)
        as [->|[(collection & e & _ & -> & _)|(collection & c0 & Hc & _ & _ & _ & ->)]];
        [reflexivity | reflexivity |].
      simpl. apply lookup_insert_ne. congruence.
    + rewrite (proj2 (search_docs_state s q f lim)). reflexivity.
  - destruct (step_client op s) as [->|(u & -> & ->)]; [exact Hs|].
    simpl. congruence.
Qed.

(** X16: a run changes no collection but those it works on: a collection
    the client does not hold when the run begins and that no
    [load_collection_] of the run names is, at the end, exactly as it was (or
    still absent). *)
Theorem run_leaves_other_collections (ops : list (Op F))
    (s : State F (gmap string (RefStore.Coll F)))
    (n : string) :
  sess (self s) <> Some n ->
  ~ In (OpLoad n) ops ->
  server (run ops s) !! n = server s !! n.
Proof.
  revert s. induction ops as [|op ops IH]; intros s Hs Hops; [reflexivity|].
  rewrite run_cons.
  assert (Hop : op <> OpLoad n) by (intros ->; apply Hops; left; reflexivity).
  destruct (step_elsewhere op s n Hs Hop) as [Hserver Hsess].
  rewrite IH; [exact Hserver | exact Hsess |].
  intros Hin. apply Hops. right. exact Hin.
Qed.

End ReferenceRuns.

(** ** The test harness *)

Section HarnessTheory.

Context {F : Type} `{JsonCodec} {W : Type} `{Milvus F W} {connection : Connections W}.

Variable MILVUS_HOST_LOCAL : string.
Variable MILVUS_PORT : Z.
Variable VECTOR_SEARCH_TOP_K : Z.
Variable embed_user_input : string -> result (option (list F)).

Lemma init_client (w : W) :
  self (MilvusClient__init__ (F:=F) MILVUS_HOST_LOCAL MILVUS_PORT VECTOR_SEARCH_TOP_K w)
  = MilvusClient_init MILVUS_HOST_LOCAL MILVUS_PORT VECTOR_SEARCH_TOP_K.
Proof.
  unfold MilvusClient__init__. destruct (connections_connect _ _ _ _ _ _); reflexivity.
Qed.

(** [search_docs] is its [try] under its handler. *)
Lemma search_docs_through_try (q : option (list F)) (f : option string) (lim : Z) :
  search_docs (W:=W) q f lim =
    get_time (try_except (search_docs_try q f lim)
                (fun e => raise (MilvusFailed ("Failed to search documents: " +:+ str e)))).
Proof. reflexivity. Qed.

(** The handler of [search_docs] prints exactly when the call raises, and
    shows the exception whose text the raised [MilvusFailed] carries. *)
Lemma search_docs_prints_spec (q : option (list F)) (f : option string) (lim : Z)
    (s : State F W) :
  match (search_docs q f lim s).1 with
  | Ok _ => search_docs_prints q f lim s = []
  | Raise e =>
      exists cause,
        search_docs_prints q f lim s = [LSearchFailed cause] /\
        e = MilvusFailed ("Failed to search documents: " +:+ str cause)
  end.
Proof.
  rewrite search_docs_through_try. unfold get_time, try_except, search_docs_prints.
  destruct (search_docs_try q f lim s) as [[docs|e] s']; simpl; [reflexivity|].
  exists e. split; reflexivity.
Qed.

(** X17: whatever the store and the embedding service do, [main] sends the
    calls of one [load_collection_] of the test collection and then at most
    one search, of that collection, with the filter 123 and the limit 1000:
    the search is sent exactly when the load returned and the query text was
    embedded.  It sends no insert, and leaves the store as the load left it. *)
Theorem main_issues_load_then_search (w : W) :
  let s0 := MilvusClient__init__ MILVUS_HOST_LOCAL MILVUS_PORT VECTOR_SEARCH_TOP_K w in
  let loaded := load_collection_ "abc1234__5678" s0 in
  let final := (main MILVUS_HOST_LOCAL MILVUS_PORT VECTOR_SEARCH_TOP_K
                     embed_user_input w).2 in
  issued final =
    issued loaded.2 ++
    match loaded.1, embed_user_input "荷塘月色" with
    | Ok _, Ok query =>
        [CSearch "abc1234__5678"
           (search_kwargs
              (MilvusClient_init MILVUS_HOST_LOCAL MILVUS_PORT VECTOR_SEARCH_TOP_K)
              query (Some "123") 1000)]
    | _, _ => []
    end /\
  server final = server loaded.2 /\
  self final = self loaded.2.
Proof.
  cbv zeta. unfold main.
  destruct (load_collection_ _ _) as [[[]|e] s1] eqn:Hl; cbn [fst snd];
    [|rewrite app_nil_r; repeat split].
  destruct (embed_user_input _) as [query|e]; [|rewrite app_nil_r; repeat split].
  pose proof (load_collection_ok _ _ _ Hl) as Hself. rewrite init_client in Hself.
  assert (Hs : sess (self s1) = Some "abc1234__5678") by (rewrite Hself; reflexivity).
  rewrite (search_docs_loaded s1 "abc1234__5678") by exact Hs.
  assert (Hkw : search_kwargs (self s1) query (Some "123") 1000 =
                search_kwargs
                  (MilvusClient_init MILVUS_HOST_LOCAL MILVUS_PORT VECTOR_SEARCH_TOP_K)
                  query (Some "123") 1000) by (rewrite Hself; reflexivity).
  rewrite Hkw.
  destruct (Collection_search _ _ _) as [results|e].
  - destruct (for_hits results []) as [[|d docs]|e]; [repeat split| |repeat split].
    destruct (print_results 0 (d :: docs)) as [printed e]. repeat split.
  - repeat split.
Qed.

Lemma print_headers_no_document (headers : json) :
  is_document_line (F:=F) (print_headers headers) = false.
Proof.
  destruct headers as [| | |text| |]; simpl; try reflexivity.
  destruct (json_loads text); reflexivity.
Qed.

(** The loop of [main] over the records: when it ends normally it printed
    eight lines for each, the first being the number of the record. *)
Lemma print_results_lines (i : nat) (docs : list (RetrievedDoc F))
    (printed : list (Line F)) :
  print_results i docs = (printed, None) ->
  length printed = (8 * length docs)%nat /\
  List.filter is_document_line printed = map LDocument (seq (S i) (length docs)).
Proof.
  revert i printed. induction docs as [|d docs IH]; intros i printed; simpl.
  - intros [= <-]. split; reflexivity.
  - unfold print_result.
    destruct (slice5 (doc_embedding d)) as [head|e]; [|discriminate].
    destruct (print_results (S i) docs) as [more [e|]] eqn:Hmore; [discriminate|].
    intros [= <-]. destruct (IH (S i) more Hmore) as [Hlen Hdocs]. split.
    + simpl. rewrite Hlen. lia.
    + cbn [app List.filter is_document_line]. rewrite print_headers_no_document.
      rewrite Hdocs. reflexivity.
Qed.

(** The loop stops at the first record it cannot print, and reports its
    exception. *)
Lemma print_results_failure (i : nat) (docs : list (RetrievedDoc F))
    (printed : list (Line F)) (e : exn) :
  print_results i docs = (printed, Some e) ->
  exists d, In d docs /\ slice5 (doc_embedding d) = Raise e.
Proof.
  revert i printed. induction docs as [|d docs IH]; intros i printed; simpl;
    [discriminate|].
  unfold print_result.
  destruct (slice5 (doc_embedding d)) as [head|e0] eqn:Hd.
  - destruct (print_results (S i) docs) as [more [e1|]] eqn:Hmore; [|discriminate].
    intros [= _ <-]. destruct (IH (S i) more Hmore) as (d' & Hin & Hd').
    exists d'. split; [right; exact Hin | exact Hd'].
  - intros [= _ <-]. exists d. split; [left; reflexivity | exact Hd].
Qed.

(** X18: what the [print] calls of the module write while [main] runs is
    one of six reports.  The load failed: one line, with the exception of the
    load.  The search returned no record: the load line and the line that says
    so.  The search returned records and all were printed: the load line, the
    count, then eight lines for every record, the records numbered from 1 in
    the order of the search.  The embedding service raised: the load line and
    the failure line of [main] with that exception.  [search_docs] raised: the
    load line, the line of the handler of [search_docs] with the exception it
    caught, and the failure line of [main] with the [MilvusFailed] that wraps
    its text.  Slicing the embedding of a record raised: the load line, the
    count, the lines printed up to then, and the failure line. *)
Theorem main_reports (w : W) :
  let s0 := MilvusClient__init__ MILVUS_HOST_LOCAL MILVUS_PORT VECTOR_SEARCH_TOP_K w in
  let user_id := "abc1234__5678" in
  let out := (main MILVUS_HOST_LOCAL MILVUS_PORT VECTOR_SEARCH_TOP_K
                   embed_user_input w).1 in
  (exists e, (load_collection_ user_id s0).1 = Raise e /\ out = [LLoadFailed user_id e]) \/
  (exists s1,
     load_collection_ user_id s0 = (Ok tt, s1) /\
     ((exists query,
         embed_user_input "荷塘月色" = Ok query /\
         (search_docs query (Some "123") 1000 s1).1 = Ok [] /\
         out = [LLoaded user_id; LNoDocuments user_id]) \/
      (exists query docs lines,
         embed_user_input "荷塘月色" = Ok query /\
         (search_docs query (Some "123") 1000 s1).1 = Ok docs /\
         docs <> [] /\
         out = LLoaded user_id :: LFound (length docs) user_id :: lines /\
         length lines = (8 * length docs)%nat /\
         List.filter is_document_line lines = map LDocument (seq 1 (length docs))) \/
      (exists e,
         embed_user_input "荷塘月色" = Raise e /\
         out = [LLoaded user_id; LRetrieveFailed user_id e]) \/
      (exists query cause,
         embed_user_input "荷塘月色" = Ok query /\
         (search_docs query (Some "123") 1000 s1).1 =
           Raise (MilvusFailed ("Failed to search documents: " +:+ str cause)) /\
         out = [LLoaded user_id; LSearchFailed cause;
                LRetrieveFailed user_id
                  (MilvusFailed ("Failed to search documents: " +:+ str cause))]) \/
      (exists query docs d lines e,
         embed_user_input "荷塘月色" = Ok query /\
         (search_docs query (Some "123") 1000 s1).1 = Ok docs /\
         In d docs /\ slice5 (doc_embedding d) = Raise e /\
         out = LLoaded user_id :: LFound (length docs) user_id :: lines
               ++ [LRetrieveFailed user_id e]))).
Proof.
  cbv zeta. unfold main.
  destruct (load_collection_ _ _) as [[[]|e] s1] eqn:Hl; cbn [fst snd];
    [|left; exists e; split; reflexivity].
  right. exists s1. split; [reflexivity|].
  destruct (embed_user_input _) as [query|e] eqn:He;
    [|right; right; left; exists e; split; reflexivity].
  pose proof (search_docs_prints_spec query (Some "123") 1000 s1) as Hprints.
  destruct (search_docs query (Some "123") 1000 s1) as [[[|d docs]|e] s2] eqn:Hsearch;
    cbn [fst snd] in *.
  - left. exists query. rewrite Hsearch, Hprints. repeat split.
  - rewrite Hprints. cbn [app].
    destruct (print_results 0 (d :: docs)) as [printed [e|]] eqn:Hp; cbn [fst snd].
    + right. right. right. right.
      destruct (print_results_failure _ _ _ _ Hp) as (d' & Hin & Hd').
      exists query, (d :: docs), d', printed, e. rewrite Hsearch.
      repeat split; assumption.
    + right. left. exists query, (d :: docs), printed.
      destruct (print_results_lines _ _ _ Hp) as [Hlen Hdocs].
      rewrite app_nil_r, Hsearch. repeat split; try assumption. discriminate.
  - destruct Hprints as (cause & -> & ->).
    right. right. right. left. exists query, cause. rewrite Hsearch. repeat split.
Qed.

End HarnessTheory.

(** ** The theorems at work on the sample instance *)

(** The scenario of the specification: load the new collection tenant_42,
    store the document d1 at the origin, search at the origin with the
    tenant's filter and limit 10: exactly one record, d1 with its content. *)
Example scenario_tenant_42 :
  exists d s',
    search_docs (Some Sample.zeros) (Some Sample.tenant_filter) 10
      (store_doc Sample.scenario_doc (Some Sample.zeros) Sample.loaded).2 = (Ok [d], s') /\
    doc_doc_id d = VStr "d1" /\ doc_content d = VStr "hello world" /\
    doc_headers d = JObject [].
Proof.
  eexists _, _. split; [vm_compute; reflexivity|]. repeat split.
Qed.

(** A fresh client: both methods fail, nothing is issued. *)
Lemma unloaded_client_fails_witness :
  store_doc Sample.tenant_doc (Some Sample.zeros) Sample.start
    = (Raise (MilvusFailed
                "Failed to store document: Milvus collection is not loaded. Call load_collection_() first."),
       Sample.start) /\
  search_docs (Some Sample.zeros) (Some Sample.tenant_filter) 10 Sample.start
    = (Raise (MilvusFailed
                "Failed to search documents: Milvus collection is not loaded. Call load_collection_() first."),
       Sample.start).
Proof.
  apply (unloaded_client_fails Sample.start Sample.tenant_doc (Some Sample.zeros)
           (Some Sample.zeros) (Some Sample.tenant_filter) 10).
  reflexivity.
Defined.

(** The second scenario of the specification: an empty embedding. *)
Lemma store_doc_rejects_incomplete_witness :
  store_doc Sample.tenant_doc (Some []) Sample.loaded
    = (Raise (MilvusFailed
                "Failed to store document: Missing required fields in document metadata or embedding."),
       Sample.loaded).
Proof.
  apply (proj2 (store_doc_rejects_incomplete Sample.loaded Sample.tenant_doc (Some [])
                  (or_intror (or_intror (or_intror (or_intror (or_intror
                     (or_intror eq_refl)))))))
           "tenant_42").
  vm_compute. reflexivity.
Defined.

(** The insert issued for the tenant's document has seven columns. *)
Lemma store_doc_row_follows_schema_witness :
  exists row,
    issued (store_doc Sample.tenant_doc (Some Sample.zeros) Sample.loaded).2
      = issued Sample.loaded ++ [CInsert "tenant_42" row] /\
    length row = 7%nat.
Proof.
  destruct (store_doc_row_follows_schema Sample.loaded "tenant_42" Sample.tenant_doc
              (Some Sample.zeros))
    as (row & u & k & f & d & e & Hissued & _ & _ & _ & _ & _ & _ & Hlen & _).
  - vm_compute. reflexivity.
  - apply validation_passes_iff. vm_compute. reflexivity.
  - exists row. split; [exact Hissued | exact Hlen].
Defined.

(** A search without filter sends the empty expression. *)
Lemma search_docs_forwards_empty_filter_witness :
  expr (search_kwargs (self Sample.one_stored) (Some Sample.zeros) None 10) = EmptyString /\
  issued (search_docs (Some Sample.zeros) None 10 Sample.one_stored).2
    = issued Sample.one_stored
      ++ [CSearch "tenant_42" (search_kwargs (self Sample.one_stored) (Some Sample.zeros) None 10)].
Proof.
  destruct (search_docs_forwards_empty_filter Sample.one_stored "tenant_42"
              (Some Sample.zeros) None 10) as (He & Hi & _).
  - vm_compute. reflexivity.
  - left. reflexivity.
  - split; assumption.
Defined.

(** A search with an empty embedding is the search with none. *)
Lemma search_docs_without_query_vector_witness :
  data (search_kwargs (self Sample.one_stored) (Some (@nil Q)) (Some Sample.tenant_filter) 10) = None /\
  search_docs (Some (@nil Q)) (Some Sample.tenant_filter) 10 Sample.one_stored
    = search_docs None (Some Sample.tenant_filter) 10 Sample.one_stored.
Proof.
  destruct (search_docs_without_query_vector Sample.one_stored "tenant_42"
              (Some (@nil Q)) (Some Sample.tenant_filter) 10) as (Hd & _ & _ & Hsame).
  - vm_compute. reflexivity.
  - right. reflexivity.
  - split; assumption.
Defined.

(** Loading tenant_42 on the empty store creates it; loading it again opens it. *)
Lemma load_collection_creates_or_attaches_witness :
  load_collection_ "tenant_42" Sample.start
    = (Ok tt,
       {| self := attached Sample.client "tenant_42";
          server := server Sample.loaded;
          issued := [CHasCollection "tenant_42"; CCreate "tenant_42" specified_schema;
                     CCreateIndex "tenant_42" "embedding" specified_index;
                     CLoad "tenant_42"] |}) /\
  issued (load_collection_ "tenant_42" Sample.loaded).2
    = issued Sample.loaded
      ++ [CHasCollection "tenant_42"; COpen "tenant_42"; CLoad "tenant_42"].
Proof.
  split.
  - eapply (proj1 (load_collection_creates_or_attaches Sample.start "tenant_42" eq_refl));
      vm_compute; reflexivity.
  - erewrite (proj1 (proj2 (load_collection_creates_or_attaches Sample.loaded "tenant_42"
                              eq_refl)));
      [reflexivity | vm_compute; reflexivity ..].
Defined.

(** Two documents stored, limit 1: one record. *)
Lemma search_docs_at_most_limit_witness :
  exists docs s',
    search_docs (Some Sample.zeros) (Some Sample.tenant_filter) 1 Sample.far_then_near
      = (Ok docs, s') /\
    Z.of_nat (length docs) <= 1.
Proof.
  destruct (search_docs (Some Sample.zeros) (Some Sample.tenant_filter) 1
              Sample.far_then_near) as [[docs|e] s'] eqn:Hrun.
  - exists docs, s'. split; [reflexivity|].
    apply (proj1 (search_docs_at_most_limit Sample.far_then_near (Some Sample.zeros)
                    (Some Sample.tenant_filter) 1
                    (fun collection results _ Hr => search_rows_capped _ _ _ _ Hr))
             docs s' Hrun).
  - apply (f_equal (fun r => match r.1 with Ok _ => true | Raise _ => false end)) in Hrun.
    vm_compute in Hrun. discriminate Hrun.
Defined.

(** The document stored last, at the query point, comes first. *)
Lemma search_docs_ranked_witness :
  exists docs s',
    search_docs (Some Sample.zeros) None 10 Sample.far_then_near = (Ok docs, s') /\
    map doc_doc_id docs = [VStr "d2"; VStr "d1"] /\
    Sorted (fun d1 d2 =>
              (Sample.squared_distance Sample.zeros (vector_of (doc_embedding d1))
               <= Sample.squared_distance Sample.zeros (vector_of (doc_embedding d2)))%Q)
           docs.
Proof.
  destruct (search_docs (Some Sample.zeros) None 10 Sample.far_then_near)
    as [[docs|e] s'] eqn:Hrun.
  - exists docs, s'. split; [reflexivity|]. split.
    + pose proof (f_equal (fun r => match r.1 with
                                    | Ok ds => map doc_doc_id ds
                                    | Raise _ => []
                                    end) Hrun) as Hval.
      vm_compute in Hval. symmetry. exact Hval.
    + eapply (search_docs_ranked RefStore.l2 Sample.far_then_near Sample.zeros None 10).
      * discriminate.
      * intros collection results _ Hr.
        apply (search_rows_ranked (server Sample.far_then_near) collection); [|exact Hr].
        simpl. repeat (first [left; reflexivity | right]).
      * exact Hrun.
  - apply (f_equal (fun r => match r.1 with Ok _ => true | Raise _ => false end)) in Hrun.
    vm_compute in Hrun. discriminate Hrun.
Defined.



(** With one closer record of the same tenant and limit 10, the document
    stored comes back. *)
Lemma store_then_search_round_trip_witness :
  exists s1 s2 docs,
    store_doc Sample.tenant_doc (Some Sample.ones) Sample.one_stored = (Ok tt, s1) /\
    search_docs (Some Sample.zeros) (Some Sample.tenant_filter) 10 s1 = (Ok docs, s2) /\
    In (input_record Sample.tenant_doc (Some Sample.ones)) docs.
Proof.
  assert (Hc : ~ incomplete Sample.tenant_doc (Some Sample.ones))
    by (apply validation_passes_iff; vm_compute; reflexivity).
  assert (Hround : json_loads (json_dumps (JObject (headers_of Sample.tenant_doc)))
                   = Ok (JObject (headers_of Sample.tenant_doc)))
    by (apply sample_loads_dumps; reflexivity).
  eassert (Hlook : server Sample.one_stored !! "tenant_42" = Some _)
    by (vm_compute; reflexivity).
  destruct (reference_store_shows_row Sample.one_stored "tenant_42" _
              Sample.tenant_doc Sample.ones Sample.zeros Sample.tenant_filter
              (fun r => match r !! "user_id" with
                        | Some (VStr u) => String.eqb u "tenant_42"
                        | _ => false
                        end) 10 (JObject (headers_of Sample.tenant_doc)) Hlook)
    as (w1 & results & hit & Hins & Hsearch & Hread & Hin & Hshows).
  - reflexivity.
  - reflexivity.
  - exact Hc.
  - repeat split; vm_compute; intros Hx; discriminate Hx.
  - exact Hround.
  - reflexivity.
  - discriminate.
  - reflexivity.
  - intros r Hr. simpl in Hr. rewrite Hr. reflexivity.
  - apply List.Forall_forall. intros r Hr. vm_compute in Hr.
    destruct Hr as [<- | []]. eexists. vm_compute. reflexivity.
  - lia.
  - vm_compute. reflexivity.
  - destruct (store_then_search_round_trip (fun x => x) Sample.one_stored "tenant_42"
                Sample.tenant_doc Sample.ones w1 (Some Sample.zeros)
                (Some Sample.tenant_filter) 10 results hit)
      as (s1 & s2 & docs & d & Hstore & _ & Hdocs & Hd & _ & _ & _ & _ & _ & _ & _ & Heq);
      try assumption.
    + vm_compute. reflexivity.
    + exists s1, s2, docs. split; [exact Hstore|]. split; [exact Hdocs|].
      rewrite <- (Heq eq_refl Hround). exact Hd.
Defined.

(** C1 as stated fails: with [other_doc] of the same tenant stored at the
    query point, [tenant_doc] (all seven fields non-empty) is stored
    successfully further away, and a search with a filter matching its user_id
    and limit 1 succeeds without returning it. *)
Lemma store_then_search_misses_beyond_limit :
  exists s1 s2 docs,
    store_doc Sample.tenant_doc (Some Sample.ones) Sample.one_stored = (Ok tt, s1) /\
    search_docs (Some Sample.zeros) (Some Sample.tenant_filter) 1 s1 = (Ok docs, s2) /\
    map doc_doc_id docs = [VStr "d2"] /\
    ~ In (input_record Sample.tenant_doc (Some Sample.ones)) docs.
Proof.
  eexists _, _, _. split; [vm_compute; reflexivity|].
  split; [vm_compute; reflexivity|]. split; [reflexivity|].
  intros [Hx | []].
  apply (f_equal doc_doc_id) in Hx. discriminate Hx.
Qed.

(** ** The further theorems at work on the sample instance *)

Lemma start_loads :
  load_collection_ "tenant_42" Sample.start = (Ok tt, Sample.loaded).
Proof. vm_compute. reflexivity. Qed.

Lemma valid_start : valid_state Sample.start.
Proof.
  split; [reflexivity|]. split.
  - intros n c Hn. simpl in Hn. rewrite lookup_empty in Hn. discriminate Hn.
  - intros n Hn. discriminate Hn.
Qed.

(** A vector of one number passes the check of the client and is refused by
    the store. *)
Lemma store_doc_failure_causes_witness :
  exists e s' cause,
    store_doc Sample.tenant_doc (Some [(0 : Q)]) Sample.loaded = (Raise e, s') /\
    e = MilvusFailed ("Failed to store document: " +:+ cause).
Proof.
  destruct (store_doc Sample.tenant_doc (Some [(0 : Q)]) Sample.loaded)
    as [[[]|e] s'] eqn:Hrun.
  - apply (f_equal (fun r => match r.1 with Ok _ => true | Raise _ => false end)) in Hrun.
    vm_compute in Hrun. discriminate Hrun.
  - destruct (store_doc_failure_causes _ _ _ _ _ Hrun) as (cause & He & _).
    exists e, s', cause. split; [reflexivity | exact He].
Defined.

(** The filter of [main] is no expression of the sample store. *)
Lemma search_docs_failure_causes_witness :
  exists e s' cause,
    search_docs (Some Sample.zeros) (Some "123") 1000 Sample.loaded = (Raise e, s') /\
    e = MilvusFailed ("Failed to search documents: " +:+ cause).
Proof.
  destruct (search_docs (Some Sample.zeros) (Some "123") 1000 Sample.loaded)
    as [[docs|e] s'] eqn:Hrun.
  - apply (f_equal (fun r => match r.1 with Ok _ => true | Raise _ => false end)) in Hrun.
    vm_compute in Hrun. discriminate Hrun.
  - destruct (search_docs_failure_causes _ _ _ _ _ _ Hrun) as (cause & He & _).
    exists e, s', cause. split; [reflexivity | exact He].
Defined.

(** Loading a collection that has no index. *)
Lemma load_collection_failure_propagates_witness :
  exists e s',
    load_collection_ "tenant_42" Scenario.unindexed = (Raise e, s') /\
    self s' = self Scenario.unindexed /\
    exists before call,
      issued s' = issued Scenario.unindexed ++ before ++ [call] /\
      store_raises call (server s') e /\
      hd_error (before ++ [call]) = Some (CHasCollection "tenant_42").
Proof.
  destruct (load_collection_ "tenant_42" Scenario.unindexed) as [[[]|e] s'] eqn:Hrun.
  - apply (f_equal (fun r => match r.1 with Ok _ => true | Raise _ => false end)) in Hrun.
    vm_compute in Hrun. discriminate Hrun.
  - exists e, s'. split; [reflexivity|].
    apply (load_collection_failure_propagates _ _ _ _ Hrun).
Defined.

(** After the load of tenant_42 the insert goes to tenant_42. *)
Lemma load_collection_retargets_witness :
  issued (store_doc Sample.tenant_doc (Some Sample.zeros) Sample.loaded).2 =
    issued Sample.loaded ++
    [CInsert "tenant_42" (columns Sample.tenant_doc (Some Sample.zeros))].
Proof.
  apply (proj1 (load_collection_retargets Sample.start Sample.loaded "tenant_42"
                  start_loads)).
  apply validation_passes_iff. vm_compute. reflexivity.
Defined.

(** A client constructed offline, and calls without a load. *)
Lemma fresh_client_inert_until_load_witness :
  run Scenario.no_load Scenario.offline = Scenario.offline.
Proof.
  apply (proj1 (fresh_client_inert_until_load (connection := Scenario.unreachable)
                  "127.0.0.1" 19530 30 ∅ Scenario.no_load
                  ltac:(repeat constructor))).
Defined.

(** The first document of tenant_42. *)
Lemma store_doc_appends_one_row_witness :
  exists s1 collection c c1,
    store_doc Sample.tenant_doc (Some Sample.ones) Sample.loaded = (Ok tt, s1) /\
    sess (self Sample.loaded) = Some collection /\
    server Sample.loaded !! collection = Some c /\
    server s1 !! collection = Some c1 /\
    RefStore.c_next_id c1 = RefStore.c_next_id c + 1.
Proof.
  destruct (store_doc Sample.tenant_doc (Some Sample.ones) Sample.loaded)
    as [[[]|e] s1] eqn:Hrun.
  - destruct (store_doc_appends_one_row _ _ _ _ Hrun)
      as (collection & c & c1 & Hs & Hc & Hc1 & _ & Hnext & _).
    exists s1, collection, c, c1. repeat split; assumption.
  - apply (f_equal (fun r => match r.1 with Ok _ => true | Raise _ => false end)) in Hrun.
    vm_compute in Hrun. discriminate Hrun.
Defined.

(** The store of the two tenants is valid. *)
Lemma run_keeps_store_valid_witness :
  valid_state (run Scenario.two_tenants Sample.start).
Proof. exact (run_keeps_store_valid Scenario.two_tenants Sample.start valid_start). Defined.

(** The two records of tenant_42 are whole. *)
Lemma search_docs_returns_valid_records_witness :
  exists docs s',
    search_docs (Some Sample.zeros) None 10 Sample.far_then_near = (Ok docs, s') /\
    Forall valid_record docs.
Proof.
  destruct (search_docs (Some Sample.zeros) None 10 Sample.far_then_near)
    as [[docs|e] s'] eqn:Hrun.
  - exists docs, s'. split; [reflexivity|].
    apply (search_docs_returns_valid_records Sample.far_then_near s' (Some Sample.zeros)
             None 10 docs); [|exact Hrun].
    unfold Sample.far_then_near, Sample.loaded.
    do 2 apply store_doc_keeps_valid. apply load_collection_keeps_valid.
    exact valid_start.
  - apply (f_equal (fun r => match r.1 with Ok _ => true | Raise _ => false end)) in Hrun.
    vm_compute in Hrun. discriminate Hrun.
Defined.

(** Loading tenant_42 a second time. *)
Lemma load_collection_twice_witness :
  load_collection_ "tenant_42" Sample.loaded =
    (Ok tt,
     {| self := self Sample.loaded; server := server Sample.loaded;
        issued := issued Sample.loaded ++
                  [CHasCollection "tenant_42"; COpen "tenant_42"; CLoad "tenant_42"] |}).
Proof. apply (load_collection_twice Sample.start Sample.loaded "tenant_42" start_loads). Defined.

(** The row of tenant_42 stays through the run of the two tenants. *)
Lemma run_keeps_rows_witness :
  exists c c' more,
    server Sample.one_stored !! "tenant_42" = Some c /\
    server (run Scenario.two_tenants Sample.one_stored) !! "tenant_42" = Some c' /\
    RefStore.c_rows c' = RefStore.c_rows c ++ more.
Proof.
  destruct (server Sample.one_stored !! "tenant_42") as [c|] eqn:Hc.
  - destruct (run_keeps_rows Scenario.two_tenants Sample.one_stored "tenant_42" c Hc)
      as (c' & more & Hc' & _ & _ & Hrows).
    exists c, c', more. split; [reflexivity|]. split; assumption.
  - apply (f_equal (fun o => match o with Some _ => true | None => false end)) in Hc.
    vm_compute in Hc. discriminate Hc.
Defined.

(** The client holds tenant_7: what it stores leaves tenant_42 alone. *)
Lemma run_leaves_other_collections_witness :
  server (run Scenario.no_load Scenario.both) !! "tenant_42" =
    server Scenario.both !! "tenant_42".
Proof.
  apply (run_leaves_other_collections Scenario.no_load Scenario.both "tenant_42").
  - intros Hs. vm_compute in Hs. discriminate Hs.
  - intros [Hx|[Hx|[Hx|[]]]]; discriminate Hx.
Defined.
